(** * Did-I-Pay: the bookkeeping core of the expense-memory tracker

    A shallow embedding of [App.tsx] and [types.ts].  The development has
    three layers:

    - [JS]: the ECMAScript built-ins the application calls ([toLowerCase],
      [toUpperCase], [includes], [trim], [parseFloat],
      [Number.prototype.toString], [toFixed], [JSON.stringify],
      [JSON.parse]), written after the language standard and executable;
    - the data model of [types.ts] and the components of [App.tsx] ([App],
      [Home], [AddExpense], [PersonDetail]), one module each, with the
      functions under the names they have in the source;
    - the properties of the bookkeeping engine.

    Conventions.  A JavaScript [number] is an IEEE-754 binary64 value: it is
    modelled by Rocq's primitive [float], so [+], [-], [/] and the comparisons
    are the machine operations.  A JavaScript string is modelled by [string],
    the UTF-8 bytes of the text; case mapping follows the Unicode Character
    Database and white space the language standard.  The state of [App] is
    its hooks and refs together with the part of the browser they act on:
    local storage, the clock and the pending timers.  A handler is a
    function on that state; the persistence effect runs after a handler
    that ended normally and a render that did not throw ([App.draws] tells
    whether a render throws).  The result of [Math.random()] is an input of
    the function that calls it. *)

From Stdlib Require Import ZArith List String Ascii Bool Lia Floats DecimalString.
From stdpp Require Import gmap strings.
Import ListNotations.

Set Warnings "-register-all".

Local Open Scope string_scope.
Local Open Scope Z_scope.

(** ** ECMAScript built-ins *)

Module JS.

(** *** Strings *)

(** A string is falsy exactly when it is empty (as in [!s] or [s || d]). *)
Definition truthy (s : string) : bool :=
  match s with
  | EmptyString => false
  | String _ _ => true
  end.

(** **** Characters

    A string holds the UTF-8 bytes of a text.  A character is a Unicode
    code point; a half of a surrogate pair on its own (JavaScript strings
    can hold one) is spelt like a code point of three bytes.  A byte that
    does not start a well-formed sequence is a character of its own,
    numbered above the code points. *)

Definition byte (c : ascii) : Z := Z.of_nat (nat_of_ascii c).

Definition ofByte (n : Z) : ascii := ascii_of_nat (Z.to_nat n).

(** The six low bits of a continuation byte. *)
Definition continuation (c : ascii) : option Z :=
  let b := byte c in
  if (128 <=? b) && (b <? 192) then Some (b - 128) else None.

Definition stray (a : ascii) (r : string) : Z * string * string :=
  (1114112 + byte a, String a EmptyString, r).

(** The first character of a string: its number, the bytes that spell it
    and what follows them. *)
Definition next (s : string) : option (Z * string * string) :=
  match s with
  | EmptyString => None
  | String a r =>
      let b := byte a in
      Some
        (if b <? 128 then (b, String a EmptyString, r)
         else
           match r with
           | String c1 r1 =>
               match continuation c1 with
               | Some x1 =>
                   if (194 <=? b) && (b <? 224) then
                     ((b - 192) * 64 + x1, String a (String c1 EmptyString), r1)
                   else
                     match r1 with
                     | String c2 r2 =>
                         match continuation c2 with
                         | Some x2 =>
                             let cp3 := ((b - 224) * 64 + x1) * 64 + x2 in
                             if (224 <=? b) && (b <? 240) && (2048 <=? cp3) then
                               (cp3, String a (String c1 (String c2 EmptyString)), r2)
                             else
                               match r2 with
                               | String c3 r3 =>
                                   match continuation c3 with
                                   | Some x3 =>
                                       let cp4 := (((b - 240) * 64 + x1) * 64 + x2) * 64 + x3 in
                                       if (240 <=? b) && (b <? 245)
                                          && (65536 <=? cp4) && (cp4 <? 1114112) then
                                         (cp4,
                                          String a (String c1 (String c2 (String c3 EmptyString))),
                                          r3)
                                       else stray a r
                                   | None => stray a r
                                   end
                               | EmptyString => stray a r
                               end
                         | None => stray a r
                         end
                     | EmptyString => stray a r
                     end
               | None => stray a r
               end
           | EmptyString => stray a r
           end)
  end.

(** The characters of a string, each with the bytes that spell it. *)
Fixpoint charsN (n : nat) (s : string) : list (Z * string) :=
  match n with
  | O => []
  | S n' =>
      match next s with
      | Some (cp, w, r) => (cp, w) :: charsN n' r
      | None => []
      end
  end.

Definition chars (s : string) : list (Z * string) := charsN (String.length s) s.

Definition codePoints (s : string) : list Z := map fst (chars s).

(** The string that a list of characters spells. *)
Fixpoint text (l : list (Z * string)) : string :=
  match l with
  | [] => EmptyString
  | (_, w) :: l' => w ++ text l'
  end.

(** The bytes of one character. *)
Definition encode (cp : Z) : string :=
  if cp <? 128 then String (ofByte cp) EmptyString
  else if cp <? 2048 then
    String (ofByte (192 + cp / 64)) (String (ofByte (128 + cp mod 64)) EmptyString)
  else if cp <? 65536 then
    String (ofByte (224 + cp / 4096))
      (String (ofByte (128 + (cp / 64) mod 64))
         (String (ofByte (128 + cp mod 64)) EmptyString))
  else if cp <? 1114112 then
    String (ofByte (240 + cp / 262144))
      (String (ofByte (128 + (cp / 4096) mod 64))
         (String (ofByte (128 + (cp / 64) mod 64))
            (String (ofByte (128 + cp mod 64)) EmptyString)))
  else String (ofByte (cp - 1114112)) EmptyString.

Fixpoint encodeAll (l : list Z) : string :=
  match l with
  | [] => EmptyString
  | cp :: l' => encode cp ++ encodeAll l'
  end.

(** **** Case *)

(** The case mappings of the Unicode Character Database (version 14).
    An entry [(lo, hi, step, d)] maps every [step]-th code point from [lo]
    to [hi] to the code point [d] further on; the characters with a longer
    mapping are listed with it. *)
Definition lowerRanges : list (Z * Z * Z * Z) :=
  [
   (65, 90, 1, 32); (192, 214, 1, 32); (216, 222, 1, 32); (256, 302, 2, 1);
   (306, 310, 2, 1); (313, 327, 2, 1); (330, 374, 2, 1); (376, 376, 1, -121);
   (377, 381, 2, 1); (385, 385, 1, 210); (386, 388, 2, 1); (390, 390, 1, 206);
   (391, 391, 1, 1); (393, 394, 1, 205); (395, 395, 1, 1); (398, 398, 1, 79);
   (399, 399, 1, 202); (400, 400, 1, 203); (401, 401, 1, 1); (403, 403, 1, 205);
   (404, 404, 1, 207); (406, 406, 1, 211); (407, 407, 1, 209); (408, 408, 1, 1);
   (412, 412, 1, 211); (413, 413, 1, 213); (415, 415, 1, 214); (416, 420, 2, 1);
   (422, 422, 1, 218); (423, 423, 1, 1); (425, 425, 1, 218); (428, 428, 1, 1);
   (430, 430, 1, 218); (431, 431, 1, 1); (433, 434, 1, 217); (435, 437, 2, 1);
   (439, 439, 1, 219); (440, 440, 1, 1); (444, 444, 1, 1); (452, 452, 1, 2);
   (453, 453, 1, 1); (455, 455, 1, 2); (456, 456, 1, 1); (458, 458, 1, 2);
   (459, 475, 2, 1); (478, 494, 2, 1); (497, 497, 1, 2); (498, 500, 2, 1);
   (502, 502, 1, -97); (503, 503, 1, -56); (504, 542, 2, 1); (544, 544, 1, -130);
   (546, 562, 2, 1); (570, 570, 1, 10795); (571, 571, 1, 1); (573, 573, 1, -163);
   (574, 574, 1, 10792); (577, 577, 1, 1); (579, 579, 1, -195); (580, 580, 1, 69);
   (581, 581, 1, 71); (582, 590, 2, 1); (880, 882, 2, 1); (886, 886, 1, 1);
   (895, 895, 1, 116); (902, 902, 1, 38); (904, 906, 1, 37); (908, 908, 1, 64);
   (910, 911, 1, 63); (913, 929, 1, 32); (931, 939, 1, 32); (975, 975, 1, 8);
   (984, 1006, 2, 1); (1012, 1012, 1, -60); (1015, 1015, 1, 1); (1017, 1017, 1, -7);
   (1018, 1018, 1, 1); (1021, 1023, 1, -130); (1024, 1039, 1, 80); (1040, 1071, 1, 32);
   (1120, 1152, 2, 1); (1162, 1214, 2, 1); (1216, 1216, 1, 15); (1217, 1229, 2, 1);
   (1232, 1326, 2, 1); (1329, 1366, 1, 48); (4256, 4293, 1, 7264); (4295, 4295, 1, 7264);
   (4301, 4301, 1, 7264); (5024, 5103, 1, 38864); (5104, 5109, 1, 8);
   (7312, 7354, 1, -3008); (7357, 7359, 1, -3008); (7680, 7828, 2, 1);
   (7838, 7838, 1, -7615); (7840, 7934, 2, 1); (7944, 7951, 1, -8); (7960, 7965, 1, -8);
   (7976, 7983, 1, -8); (7992, 7999, 1, -8); (8008, 8013, 1, -8); (8025, 8031, 2, -8);
   (8040, 8047, 1, -8); (8072, 8079, 1, -8); (8088, 8095, 1, -8); (8104, 8111, 1, -8);
   (8120, 8121, 1, -8); (8122, 8123, 1, -74); (8124, 8124, 1, -9); (8136, 8139, 1, -86);
   (8140, 8140, 1, -9); (8152, 8153, 1, -8); (8154, 8155, 1, -100); (8168, 8169, 1, -8);
   (8170, 8171, 1, -112); (8172, 8172, 1, -7); (8184, 8185, 1, -128);
   (8186, 8187, 1, -126); (8188, 8188, 1, -9); (8486, 8486, 1, -7517);
   (8490, 8490, 1, -8383); (8491, 8491, 1, -8262); (8498, 8498, 1, 28);
   (8544, 8559, 1, 16); (8579, 8579, 1, 1); (9398, 9423, 1, 26); (11264, 11311, 1, 48);
   (11360, 11360, 1, 1); (11362, 11362, 1, -10743); (11363, 11363, 1, -3814);
   (11364, 11364, 1, -10727); (11367, 11371, 2, 1); (11373, 11373, 1, -10780);
   (11374, 11374, 1, -10749); (11375, 11375, 1, -10783); (11376, 11376, 1, -10782);
   (11378, 11378, 1, 1); (11381, 11381, 1, 1); (11390, 11391, 1, -10815);
   (11392, 11490, 2, 1); (11499, 11501, 2, 1); (11506, 11506, 1, 1); (42560, 42604, 2, 1);
   (42624, 42650, 2, 1); (42786, 42798, 2, 1); (42802, 42862, 2, 1); (42873, 42875, 2, 1);
   (42877, 42877, 1, -35332); (42878, 42886, 2, 1); (42891, 42891, 1, 1);
   (42893, 42893, 1, -42280); (42896, 42898, 2, 1); (42902, 42920, 2, 1);
   (42922, 42922, 1, -42308); (42923, 42923, 1, -42319); (42924, 42924, 1, -42315);
   (42925, 42925, 1, -42305); (42926, 42926, 1, -42308); (42928, 42928, 1, -42258);
   (42929, 42929, 1, -42282); (42930, 42930, 1, -42261); (42931, 42931, 1, 928);
   (42932, 42946, 2, 1); (42948, 42948, 1, -48); (42949, 42949, 1, -42307);
   (42950, 42950, 1, -35384); (42951, 42953, 2, 1); (42960, 42960, 1, 1);
   (42966, 42968, 2, 1); (42997, 42997, 1, 1); (65313, 65338, 1, 32);
   (66560, 66599, 1, 40); (66736, 66771, 1, 40); (66928, 66964, 2, 39);
   (66929, 66937, 2, 39); (66941, 66953, 2, 39); (66957, 66961, 2, 39);
   (66965, 66965, 1, 39); (68736, 68786, 1, 64); (71840, 71871, 1, 32);
   (93760, 93791, 1, 32); (125184, 125217, 1, 34)
  ].

Definition lowerSpecial : list (Z * list Z) :=
  [
   (304, [105; 775])
  ].

Definition upperRanges : list (Z * Z * Z * Z) :=
  [
   (97, 122, 1, -32); (181, 181, 1, 743); (224, 246, 1, -32); (248, 254, 1, -32);
   (255, 255, 1, 121); (257, 303, 2, -1); (305, 305, 1, -232); (307, 311, 2, -1);
   (314, 328, 2, -1); (331, 375, 2, -1); (378, 382, 2, -1); (383, 383, 1, -300);
   (384, 384, 1, 195); (387, 389, 2, -1); (392, 392, 1, -1); (396, 396, 1, -1);
   (402, 402, 1, -1); (405, 405, 1, 97); (409, 409, 1, -1); (410, 410, 1, 163);
   (414, 414, 1, 130); (417, 421, 2, -1); (424, 424, 1, -1); (429, 429, 1, -1);
   (432, 432, 1, -1); (436, 438, 2, -1); (441, 441, 1, -1); (445, 445, 1, -1);
   (447, 447, 1, 56); (453, 453, 1, -1); (454, 454, 1, -2); (456, 456, 1, -1);
   (457, 457, 1, -2); (459, 459, 1, -1); (460, 460, 1, -2); (462, 476, 2, -1);
   (477, 477, 1, -79); (479, 495, 2, -1); (498, 498, 1, -1); (499, 499, 1, -2);
   (501, 501, 1, -1); (505, 543, 2, -1); (547, 563, 2, -1); (572, 572, 1, -1);
   (575, 576, 1, 10815); (578, 578, 1, -1); (583, 591, 2, -1); (592, 592, 1, 10783);
   (593, 593, 1, 10780); (594, 594, 1, 10782); (595, 595, 1, -210); (596, 596, 1, -206);
   (598, 599, 1, -205); (601, 601, 1, -202); (603, 603, 1, -203); (604, 604, 1, 42319);
   (608, 608, 1, -205); (609, 609, 1, 42315); (611, 611, 1, -207); (613, 613, 1, 42280);
   (614, 614, 1, 42308); (616, 616, 1, -209); (617, 617, 1, -211); (618, 618, 1, 42308);
   (619, 619, 1, 10743); (620, 620, 1, 42305); (623, 623, 1, -211); (625, 625, 1, 10749);
   (626, 626, 1, -213); (629, 629, 1, -214); (637, 637, 1, 10727); (640, 640, 1, -218);
   (642, 642, 1, 42307); (643, 643, 1, -218); (647, 647, 1, 42282); (648, 648, 1, -218);
   (649, 649, 1, -69); (650, 651, 1, -217); (652, 652, 1, -71); (658, 658, 1, -219);
   (669, 669, 1, 42261); (670, 670, 1, 42258); (837, 837, 1, 84); (881, 883, 2, -1);
   (887, 887, 1, -1); (891, 893, 1, 130); (940, 940, 1, -38); (941, 943, 1, -37);
   (945, 961, 1, -32); (962, 962, 1, -31); (963, 971, 1, -32); (972, 972, 1, -64);
   (973, 974, 1, -63); (976, 976, 1, -62); (977, 977, 1, -57); (981, 981, 1, -47);
   (982, 982, 1, -54); (983, 983, 1, -8); (985, 1007, 2, -1); (1008, 1008, 1, -86);
   (1009, 1009, 1, -80); (1010, 1010, 1, 7); (1011, 1011, 1, -116); (1013, 1013, 1, -96);
   (1016, 1016, 1, -1); (1019, 1019, 1, -1); (1072, 1103, 1, -32); (1104, 1119, 1, -80);
   (1121, 1153, 2, -1); (1163, 1215, 2, -1); (1218, 1230, 2, -1); (1231, 1231, 1, -15);
   (1233, 1327, 2, -1); (1377, 1414, 1, -48); (4304, 4346, 1, 3008); (4349, 4351, 1, 3008);
   (5112, 5117, 1, -8); (7296, 7296, 1, -6254); (7297, 7297, 1, -6253);
   (7298, 7298, 1, -6244); (7299, 7300, 1, -6242); (7301, 7301, 1, -6243);
   (7302, 7302, 1, -6236); (7303, 7303, 1, -6181); (7304, 7304, 1, 35266);
   (7545, 7545, 1, 35332); (7549, 7549, 1, 3814); (7566, 7566, 1, 35384);
   (7681, 7829, 2, -1); (7835, 7835, 1, -59); (7841, 7935, 2, -1); (7936, 7943, 1, 8);
   (7952, 7957, 1, 8); (7968, 7975, 1, 8); (7984, 7991, 1, 8); (8000, 8005, 1, 8);
   (8017, 8023, 2, 8); (8032, 8039, 1, 8); (8048, 8049, 1, 74); (8050, 8053, 1, 86);
   (8054, 8055, 1, 100); (8056, 8057, 1, 128); (8058, 8059, 1, 112); (8060, 8061, 1, 126);
   (8112, 8113, 1, 8); (8126, 8126, 1, -7205); (8144, 8145, 1, 8); (8160, 8161, 1, 8);
   (8165, 8165, 1, 7); (8526, 8526, 1, -28); (8560, 8575, 1, -16); (8580, 8580, 1, -1);
   (9424, 9449, 1, -26); (11312, 11359, 1, -48); (11361, 11361, 1, -1);
   (11365, 11365, 1, -10795); (11366, 11366, 1, -10792); (11368, 11372, 2, -1);
   (11379, 11379, 1, -1); (11382, 11382, 1, -1); (11393, 11491, 2, -1);
   (11500, 11502, 2, -1); (11507, 11507, 1, -1); (11520, 11557, 1, -7264);
   (11559, 11559, 1, -7264); (11565, 11565, 1, -7264); (42561, 42605, 2, -1);
   (42625, 42651, 2, -1); (42787, 42799, 2, -1); (42803, 42863, 2, -1);
   (42874, 42876, 2, -1); (42879, 42887, 2, -1); (42892, 42892, 1, -1);
   (42897, 42899, 2, -1); (42900, 42900, 1, 48); (42903, 42921, 2, -1);
   (42933, 42947, 2, -1); (42952, 42954, 2, -1); (42961, 42961, 1, -1);
   (42967, 42969, 2, -1); (42998, 42998, 1, -1); (43859, 43859, 1, -928);
   (43888, 43967, 1, -38864); (65345, 65370, 1, -32); (66600, 66639, 1, -40);
   (66776, 66811, 1, -40); (66967, 67003, 2, -39); (66968, 66976, 2, -39);
   (66980, 66992, 2, -39); (66996, 67000, 2, -39); (67004, 67004, 1, -39);
   (68800, 68850, 1, -64); (71872, 71903, 1, -32); (93792, 93823, 1, -32);
   (125218, 125251, 1, -34)
  ].

Definition upperSpecial : list (Z * list Z) :=
  [
   (223, [83; 83]); (329, [700; 78]); (496, [74; 780]); (912, [921; 776; 769]);
   (944, [933; 776; 769]); (1415, [1333; 1362]); (7830, [72; 817]); (7831, [84; 776]);
   (7832, [87; 778]); (7833, [89; 778]); (7834, [65; 702]); (8016, [933; 787]);
   (8018, [933; 787; 768]); (8020, [933; 787; 769]); (8022, [933; 787; 834]);
   (8064, [7944; 921]); (8065, [7945; 921]); (8066, [7946; 921]); (8067, [7947; 921]);
   (8068, [7948; 921]); (8069, [7949; 921]); (8070, [7950; 921]); (8071, [7951; 921]);
   (8072, [7944; 921]); (8073, [7945; 921]); (8074, [7946; 921]); (8075, [7947; 921]);
   (8076, [7948; 921]); (8077, [7949; 921]); (8078, [7950; 921]); (8079, [7951; 921]);
   (8080, [7976; 921]); (8081, [7977; 921]); (8082, [7978; 921]); (8083, [7979; 921]);
   (8084, [7980; 921]); (8085, [7981; 921]); (8086, [7982; 921]); (8087, [7983; 921]);
   (8088, [7976; 921]); (8089, [7977; 921]); (8090, [7978; 921]); (8091, [7979; 921]);
   (8092, [7980; 921]); (8093, [7981; 921]); (8094, [7982; 921]); (8095, [7983; 921]);
   (8096, [8040; 921]); (8097, [8041; 921]); (8098, [8042; 921]); (8099, [8043; 921]);
   (8100, [8044; 921]); (8101, [8045; 921]); (8102, [8046; 921]); (8103, [8047; 921]);
   (8104, [8040; 921]); (8105, [8041; 921]); (8106, [8042; 921]); (8107, [8043; 921]);
   (8108, [8044; 921]); (8109, [8045; 921]); (8110, [8046; 921]); (8111, [8047; 921]);
   (8114, [8122; 921]); (8115, [913; 921]); (8116, [902; 921]); (8118, [913; 834]);
   (8119, [913; 834; 921]); (8124, [913; 921]); (8130, [8138; 921]); (8131, [919; 921]);
   (8132, [905; 921]); (8134, [919; 834]); (8135, [919; 834; 921]); (8140, [919; 921]);
   (8146, [921; 776; 768]); (8147, [921; 776; 769]); (8150, [921; 834]);
   (8151, [921; 776; 834]); (8162, [933; 776; 768]); (8163, [933; 776; 769]);
   (8164, [929; 787]); (8166, [933; 834]); (8167, [933; 776; 834]); (8178, [8186; 921]);
   (8179, [937; 921]); (8180, [911; 921]); (8182, [937; 834]); (8183, [937; 834; 921]);
   (8188, [937; 921]); (64256, [70; 70]); (64257, [70; 73]); (64258, [70; 76]);
   (64259, [70; 70; 73]); (64260, [70; 70; 76]); (64261, [83; 84]); (64262, [83; 84]);
   (64275, [1348; 1350]); (64276, [1348; 1333]); (64277, [1348; 1339]);
   (64278, [1358; 1350]); (64279, [1348; 1341])
  ].

(** The case-ignorable characters, and the cased characters that are not
    case-ignorable, as ranges of code points. *)
Definition caseIgnorable : list (Z * Z) :=
  [
   (39, 39); (46, 46); (58, 58); (94, 94); (96, 96); (168, 168); (173, 173); (175, 175);
   (180, 180); (183, 184); (688, 879); (884, 885); (890, 890); (900, 901); (903, 903);
   (1155, 1161); (1369, 1369); (1375, 1375); (1425, 1469); (1471, 1471); (1473, 1474);
   (1476, 1477); (1479, 1479); (1524, 1524); (1536, 1541); (1552, 1562); (1564, 1564);
   (1600, 1600); (1611, 1631); (1648, 1648); (1750, 1757); (1759, 1768); (1770, 1773);
   (1807, 1807); (1809, 1809); (1840, 1866); (1958, 1968); (2027, 2037); (2042, 2042);
   (2045, 2045); (2070, 2093); (2137, 2139); (2184, 2184); (2192, 2193); (2200, 2207);
   (2249, 2306); (2362, 2362); (2364, 2364); (2369, 2376); (2381, 2381); (2385, 2391);
   (2402, 2403); (2417, 2417); (2433, 2433); (2492, 2492); (2497, 2500); (2509, 2509);
   (2530, 2531); (2558, 2558); (2561, 2562); (2620, 2620); (2625, 2626); (2631, 2632);
   (2635, 2637); (2641, 2641); (2672, 2673); (2677, 2677); (2689, 2690); (2748, 2748);
   (2753, 2757); (2759, 2760); (2765, 2765); (2786, 2787); (2810, 2815); (2817, 2817);
   (2876, 2876); (2879, 2879); (2881, 2884); (2893, 2893); (2901, 2902); (2914, 2915);
   (2946, 2946); (3008, 3008); (3021, 3021); (3072, 3072); (3076, 3076); (3132, 3132);
   (3134, 3136); (3142, 3144); (3146, 3149); (3157, 3158); (3170, 3171); (3201, 3201);
   (3260, 3260); (3263, 3263); (3270, 3270); (3276, 3277); (3298, 3299); (3328, 3329);
   (3387, 3388); (3393, 3396); (3405, 3405); (3426, 3427); (3457, 3457); (3530, 3530);
   (3538, 3540); (3542, 3542); (3633, 3633); (3636, 3642); (3654, 3662); (3761, 3761);
   (3764, 3772); (3782, 3782); (3784, 3789); (3864, 3865); (3893, 3893); (3895, 3895);
   (3897, 3897); (3953, 3966); (3968, 3972); (3974, 3975); (3981, 3991); (3993, 4028);
   (4038, 4038); (4141, 4144); (4146, 4151); (4153, 4154); (4157, 4158); (4184, 4185);
   (4190, 4192); (4209, 4212); (4226, 4226); (4229, 4230); (4237, 4237); (4253, 4253);
   (4348, 4348); (4957, 4959); (5906, 5908); (5938, 5939); (5970, 5971); (6002, 6003);
   (6068, 6069); (6071, 6077); (6086, 6086); (6089, 6099); (6103, 6103); (6109, 6109);
   (6155, 6159); (6211, 6211); (6277, 6278); (6313, 6313); (6432, 6434); (6439, 6440);
   (6450, 6450); (6457, 6459); (6679, 6680); (6683, 6683); (6742, 6742); (6744, 6750);
   (6752, 6752); (6754, 6754); (6757, 6764); (6771, 6780); (6783, 6783); (6823, 6823);
   (6832, 6862); (6912, 6915); (6964, 6964); (6966, 6970); (6972, 6972); (6978, 6978);
   (7019, 7027); (7040, 7041); (7074, 7077); (7080, 7081); (7083, 7085); (7142, 7142);
   (7144, 7145); (7149, 7149); (7151, 7153); (7212, 7219); (7222, 7223); (7288, 7293);
   (7376, 7378); (7380, 7392); (7394, 7400); (7405, 7405); (7412, 7412); (7416, 7417);
   (7468, 7530); (7544, 7544); (7579, 7679); (8125, 8125); (8127, 8129); (8141, 8143);
   (8157, 8159); (8173, 8175); (8189, 8190); (8203, 8207); (8216, 8217); (8228, 8228);
   (8231, 8231); (8234, 8238); (8288, 8292); (8294, 8303); (8305, 8305); (8319, 8319);
   (8336, 8348); (8400, 8432); (11388, 11389); (11503, 11505); (11631, 11631);
   (11647, 11647); (11744, 11775); (11823, 11823); (12293, 12293); (12330, 12333);
   (12337, 12341); (12347, 12347); (12441, 12446); (12540, 12542); (40981, 40981);
   (42232, 42237); (42508, 42508); (42607, 42610); (42612, 42621); (42623, 42623);
   (42652, 42655); (42736, 42737); (42752, 42785); (42864, 42864); (42888, 42890);
   (42994, 42996); (43000, 43001); (43010, 43010); (43014, 43014); (43019, 43019);
   (43045, 43046); (43052, 43052); (43204, 43205); (43232, 43249); (43263, 43263);
   (43302, 43309); (43335, 43345); (43392, 43394); (43443, 43443); (43446, 43449);
   (43452, 43453); (43471, 43471); (43493, 43494); (43561, 43566); (43569, 43570);
   (43573, 43574); (43587, 43587); (43596, 43596); (43632, 43632); (43644, 43644);
   (43696, 43696); (43698, 43700); (43703, 43704); (43710, 43711); (43713, 43713);
   (43741, 43741); (43756, 43757); (43763, 43764); (43766, 43766); (43867, 43871);
   (43881, 43883); (44005, 44005); (44008, 44008); (44013, 44013); (64286, 64286);
   (64434, 64450); (65024, 65039); (65043, 65043); (65056, 65071); (65106, 65106);
   (65109, 65109); (65279, 65279); (65287, 65287); (65294, 65294); (65306, 65306);
   (65342, 65342); (65344, 65344); (65392, 65392); (65438, 65439); (65507, 65507);
   (65529, 65531); (66045, 66045); (66272, 66272); (66422, 66426); (67456, 67461);
   (67463, 67504); (67506, 67514); (68097, 68099); (68101, 68102); (68108, 68111);
   (68152, 68154); (68159, 68159); (68325, 68326); (68900, 68903); (69291, 69292);
   (69446, 69456); (69506, 69509); (69633, 69633); (69688, 69702); (69744, 69744);
   (69747, 69748); (69759, 69761); (69811, 69814); (69817, 69818); (69821, 69821);
   (69826, 69826); (69837, 69837); (69888, 69890); (69927, 69931); (69933, 69940);
   (70003, 70003); (70016, 70017); (70070, 70078); (70089, 70092); (70095, 70095);
   (70191, 70193); (70196, 70196); (70198, 70199); (70206, 70206); (70367, 70367);
   (70371, 70378); (70400, 70401); (70459, 70460); (70464, 70464); (70502, 70508);
   (70512, 70516); (70712, 70719); (70722, 70724); (70726, 70726); (70750, 70750);
   (70835, 70840); (70842, 70842); (70847, 70848); (70850, 70851); (71090, 71093);
   (71100, 71101); (71103, 71104); (71132, 71133); (71219, 71226); (71229, 71229);
   (71231, 71232); (71339, 71339); (71341, 71341); (71344, 71349); (71351, 71351);
   (71453, 71455); (71458, 71461); (71463, 71467); (71727, 71735); (71737, 71738);
   (71995, 71996); (71998, 71998); (72003, 72003); (72148, 72151); (72154, 72155);
   (72160, 72160); (72193, 72202); (72243, 72248); (72251, 72254); (72263, 72263);
   (72273, 72278); (72281, 72283); (72330, 72342); (72344, 72345); (72752, 72758);
   (72760, 72765); (72767, 72767); (72850, 72871); (72874, 72880); (72882, 72883);
   (72885, 72886); (73009, 73014); (73018, 73018); (73020, 73021); (73023, 73029);
   (73031, 73031); (73104, 73105); (73109, 73109); (73111, 73111); (73459, 73460);
   (78896, 78904); (92912, 92916); (92976, 92982); (92992, 92995); (94031, 94031);
   (94095, 94111); (94176, 94177); (94179, 94180); (110576, 110579); (110581, 110587);
   (110589, 110590); (113821, 113822); (113824, 113827); (118528, 118573);
   (118576, 118598); (119143, 119145); (119155, 119170); (119173, 119179);
   (119210, 119213); (119362, 119364); (121344, 121398); (121403, 121452);
   (121461, 121461); (121476, 121476); (121499, 121503); (121505, 121519);
   (122880, 122886); (122888, 122904); (122907, 122913); (122915, 122916);
   (122918, 122922); (123184, 123197); (123566, 123566); (123628, 123631);
   (125136, 125142); (125252, 125259); (127995, 127999); (917505, 917505);
   (917536, 917631); (917760, 917999)
  ].

Definition cased : list (Z * Z) :=
  [
   (65, 90); (97, 122); (170, 170); (181, 181); (186, 186); (192, 214); (216, 246);
   (248, 442); (444, 447); (452, 659); (661, 687); (880, 883); (886, 887); (891, 893);
   (895, 895); (902, 902); (904, 906); (908, 908); (910, 929); (931, 1013); (1015, 1153);
   (1162, 1327); (1329, 1366); (1376, 1416); (4256, 4293); (4295, 4295); (4301, 4301);
   (4304, 4346); (4349, 4351); (5024, 5109); (5112, 5117); (7296, 7304); (7312, 7354);
   (7357, 7359); (7424, 7467); (7531, 7543); (7545, 7578); (7680, 7957); (7960, 7965);
   (7968, 8005); (8008, 8013); (8016, 8023); (8025, 8025); (8027, 8027); (8029, 8029);
   (8031, 8061); (8064, 8116); (8118, 8124); (8126, 8126); (8130, 8132); (8134, 8140);
   (8144, 8147); (8150, 8155); (8160, 8172); (8178, 8180); (8182, 8188); (8450, 8450);
   (8455, 8455); (8458, 8467); (8469, 8469); (8473, 8477); (8484, 8484); (8486, 8486);
   (8488, 8488); (8490, 8493); (8495, 8500); (8505, 8505); (8508, 8511); (8517, 8521);
   (8526, 8526); (8544, 8575); (8579, 8580); (9398, 9449); (11264, 11387); (11390, 11492);
   (11499, 11502); (11506, 11507); (11520, 11557); (11559, 11559); (11565, 11565);
   (42560, 42605); (42624, 42651); (42786, 42863); (42865, 42887); (42891, 42894);
   (42896, 42954); (42960, 42961); (42963, 42963); (42965, 42969); (42997, 42998);
   (43002, 43002); (43824, 43866); (43872, 43880); (43888, 43967); (64256, 64262);
   (64275, 64279); (65313, 65338); (65345, 65370); (66560, 66639); (66736, 66771);
   (66776, 66811); (66928, 66938); (66940, 66954); (66956, 66962); (66964, 66965);
   (66967, 66977); (66979, 66993); (66995, 67001); (67003, 67004); (68736, 68786);
   (68800, 68850); (71840, 71903); (93760, 93823); (119808, 119892); (119894, 119964);
   (119966, 119967); (119970, 119970); (119973, 119974); (119977, 119980);
   (119982, 119993); (119995, 119995); (119997, 120003); (120005, 120069);
   (120071, 120074); (120077, 120084); (120086, 120092); (120094, 120121);
   (120123, 120126); (120128, 120132); (120134, 120134); (120138, 120144);
   (120146, 120485); (120488, 120512); (120514, 120538); (120540, 120570);
   (120572, 120596); (120598, 120628); (120630, 120654); (120656, 120686);
   (120688, 120712); (120714, 120744); (120746, 120770); (120772, 120779);
   (122624, 122633); (122635, 122654); (125184, 125251); (127280, 127305);
   (127312, 127337); (127344, 127369)
  ].

Fixpoint shifted (t : list (Z * Z * Z * Z)) (c : Z) : option Z :=
  match t with
  | [] => None
  | (lo, hi, step, d) :: t' =>
      if (lo <=? c) && (c <=? hi) && ((c - lo) mod step =? 0) then Some (c + d)
      else shifted t' c
  end.

Fixpoint expanded (t : list (Z * list Z)) (c : Z) : option (list Z) :=
  match t with
  | [] => None
  | (c', l) :: t' => if c =? c' then Some l else expanded t' c
  end.

Fixpoint within (t : list (Z * Z)) (c : Z) : bool :=
  match t with
  | [] => false
  | (lo, hi) :: t' => (lo <=? c) && (c <=? hi) || within t' c
  end.

(** The lowercase and the uppercase mapping of one character. *)
Definition lowerOf (c : Z) : list Z :=
  match expanded lowerSpecial c with
  | Some l => l
  | None =>
      match shifted lowerRanges c with
      | Some c' => [c']
      | None => [c]
      end
  end.

Definition upperOf (c : Z) : list Z :=
  match expanded upperSpecial c with
  | Some l => l
  | None =>
      match shifted upperRanges c with
      | Some c' => [c']
      | None => [c]
      end
  end.

Definition isCaseIgnorable (c : Z) : bool := within caseIgnorable c.

Definition isCased (c : Z) : bool := within cased c.

(** A cased letter follows, case-ignorable characters aside. *)
Fixpoint followedByCased (l : list Z) : bool :=
  match l with
  | [] => false
  | c :: l' => if isCaseIgnorable c then followedByCased l' else isCased c
  end.

(** The lowercase of a list of characters.  A capital sigma (931) that
    ends a word, one that a cased letter precedes and none follows, becomes
    the final small sigma (962), any other the small sigma (963); [before]
    tells whether a cased letter precedes, case-ignorable characters
    aside. *)
Fixpoint lowerAll (before : bool) (l : list Z) : list Z :=
  match l with
  | [] => []
  | c :: rest =>
      (if c =? 931 then
         if before && negb (followedByCased rest) then [962] else [963]
       else lowerOf c)
      ++ lowerAll (if isCaseIgnorable c then before else isCased c) rest
  end%list.

(** [String.prototype.toLowerCase] *)
Definition toLowerCase (s : string) : string :=
  encodeAll (lowerAll false (codePoints s)).

(** [String.prototype.toUpperCase] *)
Definition toUpperCase (s : string) : string :=
  encodeAll (flat_map upperOf (codePoints s)).

(** [s[0]]: the first UTF-16 code unit, as a string; [undefined] ([None])
    on the empty string.  Of a character above the Basic Multilingual Plane
    it is the first half of the surrogate pair. *)
Definition charAt0 (s : string) : option string :=
  match next s with
  | None => None
  | Some (cp, _, _) =>
      Some (encode (if (65536 <=? cp) && (cp <? 1114112)
                    then 55296 + (cp - 65536) / 1024 else cp))
  end.

(** [String.prototype.includes]: [includes s q] is [s.includes(q)]. *)
Fixpoint includes (s q : string) : bool :=
  String.prefix q s ||
  match s with
  | EmptyString => false
  | String _ s' => includes s' q
  end.

(** [WhiteSpace] and [LineTerminator]: TAB, LF, VT, FF, CR, SPACE, the
    no-break space, the other space separators of Unicode, the line and
    paragraph separators and the byte order mark. *)
Definition isWhiteSpace (cp : Z) : bool :=
  existsb (Z.eqb cp)
    [9; 10; 11; 12; 13; 32; 160; 5760; 8192; 8193; 8194; 8195; 8196; 8197; 8198;
     8199; 8200; 8201; 8202; 8232; 8233; 8239; 8287; 12288; 65279].

(** What is left of a list of characters without its leading white space. *)
Fixpoint dropSpace (l : list (Z * string)) : list (Z * string) :=
  match l with
  | (cp, w) :: l' => if isWhiteSpace cp then dropSpace l' else l
  | [] => []
  end.

Definition trimStart (s : string) : string := text (dropSpace (chars s)).

Definition trimEnd (s : string) : string := text (rev (dropSpace (rev (chars s)))).

(** [String.prototype.trim] *)
Definition trim (s : string) : string :=
  text (rev (dropSpace (rev (dropSpace (chars s))))).

Definition allWhiteSpace (s : string) : bool :=
  forallb (fun c : Z * string => isWhiteSpace (fst c)) (chars s).

Definition isDigit (c : ascii) : bool :=
  (48 <=? nat_of_ascii c)%nat && (nat_of_ascii c <=? 57)%nat.

(** The longest prefix of decimal digits, and what follows it. *)
Fixpoint takeDigits (s : string) : string * string :=
  match s with
  | String c s' =>
      if isDigit c then let (d, r) := takeDigits s' in (String c d, r)
      else (EmptyString, s)
  | EmptyString => (EmptyString, EmptyString)
  end.

(** What follows the prefix [p] of [s], when [s] starts with [p]. *)
Fixpoint stripPrefix (p s : string) : option string :=
  match p, s with
  | EmptyString, _ => Some s
  | String a p', String b s' => if Ascii.eqb a b then stripPrefix p' s' else None
  | String _ _, EmptyString => None
  end.

(** An optional sign, a minus or (where [plus] allows it) a plus: whether
    it is a minus, and what follows it. *)
Definition takeSign (plus : bool) (s : string) : bool * string :=
  match stripPrefix "-" s with
  | Some r => (true, r)
  | None =>
      match stripPrefix "+" s with
      | Some r => if plus then (false, r) else (false, s)
      | None => (false, s)
      end
  end.

(** The mathematical value of a string of decimal digits. *)
Fixpoint digitsValue (acc : Z) (s : string) : Z :=
  match s with
  | EmptyString => acc
  | String c s' => digitsValue (10 * acc + (Z.of_nat (nat_of_ascii c) - 48)) s'
  end.

(** The decimal digits of a natural number, without leading zeros. *)
Definition digitsOf (n : Z) : string :=
  NilZero.string_of_uint (N.to_uint (Z.to_N n)).

Fixpoint zeros (n : nat) : string :=
  match n with
  | O => EmptyString
  | S n' => String "0" (zeros n')
  end.

(** *** Numbers *)

Abbreviation number := float.

(** The Number value for the real [(-1)^neg * m * 10^e10] with [0 <= m]:
    the nearest binary64 value, ties to even.  For a negative exponent the
    quotient is computed with 64 bits to spare and a sticky bit, so that
    rounding it is rounding the exact value. *)
Definition roundDecimal (neg : bool) (m e10 : Z) : number :=
  if m =? 0 then (if neg then neg_zero else zero)
  else if 0 <=? e10 then
    let v := m * 10 ^ e10 in
    SF2Prim (binary_normalize prec emax (if neg then - v else v) 0 false)
  else
    let d := 10 ^ (- e10) in
    let s := Z.max 0 (Z.log2 d - Z.log2 m + 64) in
    let q := (m * 2 ^ s) / d in
    let r := (m * 2 ^ s) mod d in
    let v := 2 * q + (if r =? 0 then 0 else 1) in
    SF2Prim (binary_normalize prec emax (if neg then - v else v) (- (s + 1)) false).

(** An exponent part: the mark [e] or [E], an optional sign and digits.
    The exponent and what follows, when there is such a part. *)
Definition takeExponent (s : string) : option (Z * string) :=
  match s with
  | String c r =>
      if (Ascii.eqb c "e" || Ascii.eqb c "E")%bool then
        let '(eneg, r1) := takeSign true r in
        let '(ed, rest) := takeDigits r1 in
        if truthy ed then Some (if eneg then - digitsValue 0 ed else digitsValue 0 ed, rest)
        else None
      else None
  | EmptyString => None
  end.

(** [parseFloat]: leading white space is skipped, then the longest prefix
    that is a [StrDecimalLiteral] is converted; [NaN] when there is none. *)
Definition parseFloat (input : string) : number :=
  let '(neg, s1) := takeSign true (trimStart input) in
  if String.prefix "Infinity" s1 then (if neg then neg_infinity else infinity)
  else
    let '(ip, s2) := takeDigits s1 in
    let '(fp, s3) :=
      match stripPrefix "." s2 with
      | Some r => takeDigits r
      | None => (EmptyString, s2)
      end in
    if negb (truthy ip) && negb (truthy fp) then nan
    else
      let ex :=
        match takeExponent s3 with
        | Some (ex, _) => ex
        | None => 0
        end in
      roundDecimal neg (digitsValue 0 (ip ++ fp)) (ex - Z.of_nat (String.length fp)).

(** [floor (m * 2^e * 10^j)] and whether the quotient left a remainder
    below, at or above one half. *)
Definition scaled (m : positive) (e j : Z) : Z * comparison :=
  let num := Zpos m * 2 ^ Z.max e 0 * 10 ^ Z.max j 0 in
  let den := 2 ^ Z.max (- e) 0 * 10 ^ Z.max (- j) 0 in
  (num / den, (2 * (num mod den) ?= den)).

(** The least [n] from [n0] on with [m * 2^e < 10^n]. *)
Fixpoint decimalExponent (fuel : nat) (m : positive) (e n0 : Z) : Z :=
  match fuel with
  | O => n0
  | S fuel' =>
      if fst (scaled m e (- n0)) =? 0 then n0
      else decimalExponent fuel' m e (n0 + 1)
  end.

(** The digits [s], their number [k] and the exponent [n] of
    [Number::toString]: [k] is as small as possible with [s * 10^(n-k)]
    rounding to [x]; of the candidates the closest to [x], the even one on
    a tie. *)
Fixpoint shortest (fuel : nat) (x : number) (m : positive) (e n0 k : Z) : Z * Z * Z :=
  let '(lo, half) := scaled m e (k - n0) in
  let hi := lo + 1 in
  let okLo := PrimFloat.eqb (roundDecimal false lo (n0 - k)) x in
  let okHi := PrimFloat.eqb (roundDecimal false hi (n0 - k)) x in
  let up := if hi =? 10 ^ k then (10 ^ (k - 1), k, n0 + 1) else (hi, k, n0) in
  let pick (b : bool) := if b then up else (lo, k, n0) in
  match fuel with
  | O => pick (negb okLo)
  | S fuel' =>
      if okLo && okHi then
        pick match half with
             | Lt => false
             | Gt => true
             | Eq => Z.odd lo
             end
      else if okLo then pick false
      else if okHi then pick true
      else shortest fuel' x m e n0 (k + 1)
  end.

(** [Number::toString(x)] in radix 10. *)
Definition Number_toString (x : number) : string :=
  match Prim2SF x with
  | S754_nan => "NaN"
  | S754_zero _ => "0"
  | S754_infinity sg => if sg then "-Infinity" else "Infinity"
  | S754_finite sg m e =>
      let est := ((Z.log2 (Zpos m) + e) * 30103) / 100000 in
      let n0 := decimalExponent 4 m e (est - 1) in
      let '(s, k, n) := shortest 17 (abs x) m e n0 1 in
      let ds := digitsOf s in
      let body :=
        if (k <=? n) && (n <=? 21) then ds ++ zeros (Z.to_nat (n - k))
        else if (0 <? n) && (n <=? 21) then
          substring 0 (Z.to_nat n) ds ++ "." ++ substring (Z.to_nat n) (Z.to_nat (k - n)) ds
        else if (-6 <? n) && (n <=? 0) then "0." ++ zeros (Z.to_nat (- n)) ++ ds
        else
          let ex := (if n - 1 <? 0 then "-" else "+") ++ digitsOf (Z.abs (n - 1)) in
          if k =? 1 then ds ++ "e" ++ ex
          else substring 0 1 ds ++ "." ++ substring 1 (Z.to_nat (k - 1)) ds ++ "e" ++ ex in
      (if sg then "-" else EmptyString) ++ body
  end.

(** The integer nearest to [m * 2^e], the larger one on a tie. *)
Definition roundHalfUp (m : positive) (e : Z) : Z :=
  if 0 <=? e then Zpos m * 2 ^ e
  else (2 * Zpos m + 2 ^ (- e)) / (2 * 2 ^ (- e)).

(** [Number.prototype.toFixed(0)]. *)
Definition toFixed0 (x : number) : string :=
  match Prim2SF x with
  | S754_finite sg m e =>
      (if sg then "-" else EmptyString) ++
      (if 10 ^ 21 <=? fst (scaled m e 0) then Number_toString (abs x)
       else digitsOf (roundHalfUp m e))
  | S754_zero _ => "0"
  | _ => Number_toString x
  end.


(** *** JSON *)

Inductive JSValue :=
  | JNull
  | JBool (b : bool)
  | JNum (x : number)
  | JStr (s : string)
  | JArr (elements : list JSValue)
  | JObj (props : list (string * JSValue)).

Definition dquote : ascii := "034"%char.
Definition backslash : ascii := "092"%char.

Definition hexDigit (n : nat) : ascii :=
  if (n <? 10)%nat then ascii_of_nat (48 + n) else ascii_of_nat (87 + n).

(** One character of [QuoteJSONString]. *)
Definition quoteChar (c : ascii) : string :=
  let n := nat_of_ascii c in
  let esc (e : ascii) := String backslash (String e EmptyString) in
  if Ascii.eqb c dquote then esc dquote
  else if Ascii.eqb c backslash then esc backslash
  else if (n =? 8)%nat then esc "b"%char
  else if (n =? 9)%nat then esc "t"%char
  else if (n =? 10)%nat then esc "n"%char
  else if (n =? 12)%nat then esc "f"%char
  else if (n =? 13)%nat then esc "r"%char
  else if (n <? 32)%nat then
    String backslash ("u00" ++ String (hexDigit (n / 16)) (String (hexDigit (n mod 16)) EmptyString))
  else String c EmptyString.

Fixpoint quoteChars (s : string) : string :=
  match s with
  | EmptyString => EmptyString
  | String c s' => quoteChar c ++ quoteChars s'
  end.

Definition QuoteJSONString (s : string) : string :=
  String dquote (quoteChars s ++ String dquote EmptyString).

Fixpoint join (sep : string) (l : list string) : string :=
  match l with
  | [] => EmptyString
  | [x] => x
  | x :: l' => x ++ sep ++ join sep l'
  end.

(** [JSON.stringify] of a value made of arrays, plain objects, strings,
    numbers, booleans and [null]; a number that is not finite is written
    [null]. *)
Fixpoint stringifyValue (v : JSValue) : string :=
  match v with
  | JNull => "null"
  | JBool b => if b then "true" else "false"
  | JNum x => if is_finite x then Number_toString x else "null"
  | JStr s => QuoteJSONString s
  | JArr l => "[" ++ join "," (map stringifyValue l) ++ "]"
  | JObj props =>
      "{" ++ join "," (map (fun kv => QuoteJSONString (fst kv) ++ ":" ++ stringifyValue (snd kv)) props) ++ "}"
  end.

Inductive Error := SyntaxError | TypeError.

(** SPACE, TAB, LF and CR, the white space of the JSON grammar. *)
Definition isJSONSpace (c : ascii) : bool :=
  let n := nat_of_ascii c in
  (n =? 32)%nat || (n =? 9)%nat || (n =? 10)%nat || (n =? 13)%nat.

Fixpoint skipWs (s : string) : string :=
  match s with
  | String c s' => if isJSONSpace c then skipWs s' else s
  | EmptyString => EmptyString
  end.

Definition hexValue (c : ascii) : option nat :=
  let n := nat_of_ascii c in
  if isDigit c then Some (n - 48)%nat
  else if (97 <=? n)%nat && (n <=? 102)%nat then Some (n - 87)%nat
  else if (65 <=? n)%nat && (n <=? 70)%nat then Some (n - 55)%nat
  else None.

(** The UTF-8 form of a code unit below 65536. *)
Definition utf8 (cp : nat) : string :=
  if (cp <? 128)%nat then String (ascii_of_nat cp) EmptyString
  else if (cp <? 2048)%nat then
    String (ascii_of_nat (192 + cp / 64))
      (String (ascii_of_nat (128 + cp mod 64)) EmptyString)
  else
    String (ascii_of_nat (224 + cp / 4096))
      (String (ascii_of_nat (128 + (cp / 64) mod 64))
         (String (ascii_of_nat (128 + cp mod 64)) EmptyString)).

(** The character a two-character escape stands for. *)
Definition unescape (e : ascii) : option ascii :=
  if Ascii.eqb e dquote then Some dquote
  else if Ascii.eqb e backslash then Some backslash
  else if Ascii.eqb e "/" then Some "/"%char
  else if Ascii.eqb e "b" then Some "008"%char
  else if Ascii.eqb e "f" then Some "012"%char
  else if Ascii.eqb e "n" then Some "010"%char
  else if Ascii.eqb e "r" then Some "013"%char
  else if Ascii.eqb e "t" then Some "009"%char
  else None.

Definition prepend (t : string) (k : option (string * string)) : option (string * string) :=
  match k with
  | Some (t', rest) => Some (t ++ t', rest)
  | None => None
  end.

(** The characters of a JSON string after its opening quote, up to the
    closing one.  The escapes of the two halves of a surrogate pair stand
    for one character. *)
Fixpoint parseChars (s : string) : option (string * string) :=
  match s with
  | EmptyString => None
  | String c r =>
      if Ascii.eqb c dquote then Some (EmptyString, r)
      else if Ascii.eqb c backslash then
        match r with
        | String e r1 =>
            match unescape e with
            | Some c' => prepend (String c' EmptyString) (parseChars r1)
            | None =>
                if Ascii.eqb e "u" then
                  match r1 with
                  | String h1 (String h2 (String h3 (String h4 r2))) =>
                      match hexValue h1, hexValue h2, hexValue h3, hexValue h4 with
                      | Some a, Some b, Some c', Some d =>
                          let u := (((a * 16 + b) * 16 + c') * 16 + d)%nat in
                          let single := prepend (utf8 u) (parseChars r2) in
                          if (55296 <=? Z.of_nat u) && (Z.of_nat u <? 56320) then
                            match r2 with
                            | String b1 (String e1 (String g1 (String g2 (String g3
                                (String g4 r3))))) =>
                                match hexValue g1, hexValue g2, hexValue g3, hexValue g4 with
                                | Some a', Some b', Some c'', Some d' =>
                                    let v := (((a' * 16 + b') * 16 + c'') * 16 + d')%nat in
                                    if Ascii.eqb b1 backslash && Ascii.eqb e1 "u"
                                       && (56320 <=? Z.of_nat v) && (Z.of_nat v <? 57344)
                                    then
                                      prepend
                                        (encode (65536 + (Z.of_nat u - 55296) * 1024
                                                 + (Z.of_nat v - 56320)))
                                        (parseChars r3)
                                    else single
                                | _, _, _, _ => single
                                end
                            | _ => single
                            end
                          else single
                      | _, _, _, _ => None
                      end
                  | _ => None
                  end
                else None
            end
        | EmptyString => None
        end
      else if (nat_of_ascii c <? 32)%nat then None
      else prepend (String c EmptyString) (parseChars r)
  end.

(** A JSON number: an optional minus sign; a single zero or digits that do
    not start with zero; optionally a point and digits; optionally an
    exponent part. *)
Definition parseNumber (s : string) : option (number * string) :=
  let '(neg, s1) := takeSign false s in
  let '(ip, s2) :=
    match stripPrefix "0" s1 with
    | Some r => ("0", r)
    | None => takeDigits s1
    end in
  if negb (truthy ip) then None
  else
    let frac :=
      match stripPrefix "." s2 with
      | Some r =>
          let '(fp, s3) := takeDigits r in
          if truthy fp then Some (fp, s3) else None
      | None => Some (EmptyString, s2)
      end in
    match frac with
    | None => None
    | Some (fp, s3) =>
        let mantissa := digitsValue 0 (ip ++ fp) in
        let scale := Z.of_nat (String.length fp) in
        match stripPrefix "e" s3, stripPrefix "E" s3 with
        | None, None => Some (roundDecimal neg mantissa (- scale), s3)
        | _, _ =>
            match takeExponent s3 with
            | Some (ex, s4) => Some (roundDecimal neg mantissa (ex - scale), s4)
            | None => None
            end
        end
    end.

(** What follows the character [c], when [s] starts with it after white
    space. *)
Definition token (c : ascii) (s : string) : option string :=
  stripPrefix (String c EmptyString) (skipWs s).

(** Recursive descent over the JSON grammar.  The fuel bounds the number of
    nested calls; [JSON_parse] supplies more than any text can use. *)
Fixpoint parseValue (fuel : nat) (s : string) : option (JSValue * string) :=
  match fuel with
  | O => None
  | S fuel' =>
      match token "[" s, token "{" s, token dquote s with
      | Some r, _, _ =>
          match token "]" r with
          | Some r' => Some (JArr [], r')
          | None =>
              match parseElements fuel' r with
              | Some (l, r') => Some (JArr l, r')
              | None => None
              end
          end
      | None, Some r, _ =>
          match token "}" r with
          | Some r' => Some (JObj [], r')
          | None =>
              match parseMembers fuel' r with
              | Some (l, r') => Some (JObj l, r')
              | None => None
              end
          end
      | None, None, Some r =>
          match parseChars r with
          | Some (t, r') => Some (JStr t, r')
          | None => None
          end
      | None, None, None =>
          match stripPrefix "true" (skipWs s), stripPrefix "false" (skipWs s),
                stripPrefix "null" (skipWs s) with
          | Some r', _, _ => Some (JBool true, r')
          | None, Some r', _ => Some (JBool false, r')
          | None, None, Some r' => Some (JNull, r')
          | None, None, None =>
              match parseNumber (skipWs s) with
              | Some (x, r') => Some (JNum x, r')
              | None => None
              end
          end
      end
  end
with parseElements (fuel : nat) (s : string) : option (list JSValue * string) :=
  match fuel with
  | O => None
  | S fuel' =>
      match parseValue fuel' s with
      | Some (v, r) =>
          match token "," r, token "]" r with
          | Some r', _ =>
              match parseElements fuel' r' with
              | Some (l, r'') => Some (v :: l, r'')
              | None => None
              end
          | None, Some r' => Some ([v], r')
          | None, None => None
          end
      | None => None
      end
  end
with parseMembers (fuel : nat) (s : string) : option (list (string * JSValue) * string) :=
  match fuel with
  | O => None
  | S fuel' =>
      match token dquote s with
      | Some r =>
          match parseChars r with
          | Some (k, r1) =>
              match token ":" r1 with
              | Some r2 =>
                  match parseValue fuel' r2 with
                  | Some (v, r3) =>
                      match token "," r3, token "}" r3 with
                      | Some r4, _ =>
                          match parseMembers fuel' r4 with
                          | Some (l, r5) => Some ((k, v) :: l, r5)
                          | None => None
                          end
                      | None, Some r4 => Some ([(k, v)], r4)
                      | None, None => None
                      end
                  | None => None
                  end
              | None => None
              end
          | None => None
          end
      | None => None
      end
  end.

(** [JSON.parse]: the value of the text, or a [SyntaxError]. *)
Definition JSON_parse (text : string) : JSValue + Error :=
  match parseValue (2 * String.length text + 2) text with
  | Some (v, rest) =>
      match skipWs rest with
      | EmptyString => inl v
      | String _ _ => inr SyntaxError
      end
  | None => inr SyntaxError
  end.

End JS.

Import JS.

(** ** The data model ([types.ts]) *)

Module Types.

Inductive PaymentMode := Cash | UPI.

(** ['I Paid' | 'They Paid' | 'Split'] *)
Inductive PaymentStatus := IPaid | TheyPaid | Split.

(** [Omit<Expense, 'id' | 'timestamp'>]: what the entry form hands over. *)
Record Entry := {
  amount : number;
  person : string;
  mode : PaymentMode;
  label : option string;
  status : PaymentStatus;
  proof : option string
}.

(** [Expense], built as [{...expense, id, timestamp}]. *)
Record Expense := {
  entry :> Entry;
  id : string;
  timestamp : number
}.

Inductive View := ViewHome | ViewAdd | ViewPerson.

End Types.

Import Types.

Definition modeName (m : PaymentMode) : string :=
  match m with
  | Cash => "Cash"
  | UPI => "UPI"
  end.

Definition statusName (st : PaymentStatus) : string :=
  match st with
  | IPaid => "I Paid"
  | TheyPaid => "They Paid"
  | Split => "Split"
  end.

(** *** Records as JSON

    The object of a record has its properties in creation order; an
    [undefined] property is left out by [JSON.stringify]. *)

Definition optProp (k : string) (o : option string) : list (string * JSValue) :=
  match o with
  | Some s => [(k, JStr s)]
  | None => []
  end.

Definition Expense_object (e : Expense) : JSValue :=
  JObj ([("amount", JNum (amount e)); ("person", JStr (person e));
         ("mode", JStr (modeName (mode e)))]
        ++ optProp "label" (label e)
        ++ [("status", JStr (statusName (status e)))]
        ++ optProp "proof" (proof e)
        ++ [("id", JStr (id e)); ("timestamp", JNum (timestamp e))]).

(** [JSON.stringify(expenses)] *)
Definition JSON_stringify (l : list Expense) : string :=
  stringifyValue (JArr (map Expense_object l)).

(** The value of a property; of two with the same key [JSON.parse] keeps
    the later. *)
Fixpoint getProp (k : string) (props : list (string * JSValue)) : option JSValue :=
  match props with
  | [] => None
  | (k', v) :: rest =>
      match getProp k rest with
      | Some v' => Some v'
      | None => if String.eqb k k' then Some v else None
      end
  end.

Definition asString (v : JSValue) : option string :=
  match v with
  | JStr s => Some s
  | _ => None
  end.

Definition asNumber (v : JSValue) : option number :=
  match v with
  | JNum x => Some x
  | _ => None
  end.

Definition asMode (v : JSValue) : option PaymentMode :=
  match v with
  | JStr s =>
      if String.eqb s "Cash" then Some Cash
      else if String.eqb s "UPI" then Some UPI
      else None
  | _ => None
  end.

Definition asStatus (v : JSValue) : option PaymentStatus :=
  match v with
  | JStr s =>
      if String.eqb s "I Paid" then Some IPaid
      else if String.eqb s "They Paid" then Some TheyPaid
      else if String.eqb s "Split" then Some Split
      else None
  | _ => None
  end.

(** An optional string property: absent, or a string. *)
Definition asOptional (o : option JSValue) : option (option string) :=
  match o with
  | None => Some None
  | Some (JStr s) => Some (Some s)
  | Some _ => None
  end.

Definition expenseKeys : list string :=
  ["amount"; "person"; "mode"; "label"; "status"; "proof"; "id"; "timestamp"].

(** A parsed value seen at type [Expense]: an object with the properties
    of the interface, each of its declared type, and no other. *)
Definition asExpense (v : JSValue) : option Expense :=
  match v with
  | JObj props =>
      if forallb (fun kv => existsb (String.eqb (fst kv)) expenseKeys) props then
        a ← getProp "amount" props ≫= asNumber;
        p ← getProp "person" props ≫= asString;
        m ← getProp "mode" props ≫= asMode;
        l ← asOptional (getProp "label" props);
        st ← getProp "status" props ≫= asStatus;
        pr ← asOptional (getProp "proof" props);
        i ← getProp "id" props ≫= asString;
        t ← getProp "timestamp" props ≫= asNumber;
        Some {| entry := {| amount := a; person := p; mode := m; label := l;
                            status := st; proof := pr |};
                id := i; timestamp := t |}
      else None
  | _ => None
  end.

(** A parsed value seen at type [Expense[]]. *)
Definition asExpenses (v : JSValue) : option (list Expense) :=
  match v with
  | JArr l => mapM asExpense l
  | _ => None
  end.

(** What reading a stored record set comes to: the records, an exception,
    or a text that is JSON but not an [Expense[]], which the static types
    of the source leave out. *)
Inductive Read :=
  | Records (l : list Expense)
  | Raise (e : Error)
  | NotExpenses.

(** [JSON.parse(text)] at type [Expense[]]. *)
Definition parseExpenses (text : string) : Read :=
  match JSON_parse text with
  | inr e => Raise e
  | inl v =>
      match asExpenses v with
      | Some l => Records l
      | None => NotExpenses
      end
  end.

(** [Array.prototype.slice(start, end)]: a negative bound counts from the
    end of the array. *)
Definition slice {A} (l : list A) (start stop : Z) : list A :=
  let len := Z.of_nat (length l) in
  let rel (i : Z) := if i <? 0 then Z.max (len + i) 0 else Z.min i len in
  let k := rel start in
  let final := rel stop in
  take (Z.to_nat (Z.max (final - k) 0)) (drop (Z.to_nat k) l).

(** The Number value of an integer. *)
Definition ofZ (z : Z) : number := roundDecimal (z <? 0) (Z.abs z) 0.

(** ** The application ([App.tsx]) *)

Module Home.

(** [(Date.now() - e.timestamp) / (1000 * 60 * 60 * 24)] *)
Definition ageInDays (now : number) (e : Expense) : number :=
  ((now - timestamp e) / (1000 * 60 * 60 * 24))%float.

(** [nudgeItem] (the specification's findNudgeCandidate); [now] is the
    reading of [Date.now()] during the scan. *)
Definition nudgeItem (now : number) (expenses : list Expense) : option Expense :=
  List.find (fun e => (3 <? ageInDays now e)%float && (ageInDays now e <? 7)%float) expenses.

(** [isEndOfMonth && expenses.length > 0], the condition under which the
    Archive button is rendered; [dayOfMonth] is [new Date().getDate()] and
    [expenses] the list handed to [Home]. *)
Definition archiveVisible (dayOfMonth : Z) (expenses : list Expense) : bool :=
  (25 <=? dayOfMonth) && (0 <? length expenses)%nat.

(** The texts of one entry of the list. *)
Record Row := {
  initial : string;
  name : string;
  splitBadge : bool;
  labelText : string;
  timeText : string;
  amountText : string;
  modeText : string
}.

(** [expense.person[0].toUpperCase()], the avatar of an entry.  Reading
    [toUpperCase] off [undefined] throws. *)
Definition avatar (expense : Expense) : string + Error :=
  match charAt0 (person expense) with
  | None => inr TypeError
  | Some c => inl (toUpperCase c)
  end.

(** One entry of [expenses.map(expense => ...)]: the avatar, the name, the
    label or 'No Label', the time, the amount with a minus sign for They
    Paid, and the mode. *)
Definition row (formatTime : number -> string) (expense : Expense) : Row + Error :=
  match avatar expense with
  | inr e => inr e
  | inl a =>
      inl {| initial := a;
             name := person expense;
             splitBadge := match status expense with Split => true | _ => false end;
             labelText :=
               match label expense with
               | Some l => if truthy l then l else "No Label"
               | None => "No Label"
               end;
             timeText := formatTime (timestamp expense);
             amountText :=
               (match status expense with TheyPaid => "-" | _ => EmptyString end)
               ++ "₹" ++ Number_toString (amount expense);
             modeText := modeName (mode expense) |}
  end.

(** The list of [Home], entry by entry in order; the first exception ends
    the render. *)
Fixpoint rows (formatTime : number -> string) (expenses : list Expense) : list Row + Error :=
  match expenses with
  | [] => inl []
  | expense :: rest =>
      match row formatTime expense with
      | inr e => inr e
      | inl r =>
          match rows formatTime rest with
          | inr e => inr e
          | inl rs => inl (r :: rs)
          end
      end
  end.

End Home.

Module App.

Definition STORAGE_KEY : string := "did-i-pay-expenses".
Definition ARCHIVE_KEY : string := "did-i-pay-archive".

(** The state hooks and refs of [App], with the part of the browser they
    act on: local storage, the clock, and the callbacks scheduled with
    [window.setTimeout] and not yet run (every one of them is
    [() => setShowUndo(false)], so a handle and a due time describe it). *)
Record State := {
  view : View;
  expenses : list Expense;
  selectedPerson : option string;
  searchQuery : string;
  showUndo : bool;
  lastArchivedData : list Expense;
  undoTimeoutRef : option positive;
  localStorage : gmap string string;
  timers : list (positive * Z);
  nextHandle : positive;
  clock : Z
}.

(** The first render: [useState] and [useRef] initial values. *)
Definition initial (storage : gmap string string) (now : Z) : State :=
  {| view := ViewHome; expenses := []; selectedPerson := None;
     searchQuery := EmptyString; showUndo := false; lastArchivedData := [];
     undoTimeoutRef := None; localStorage := storage; timers := [];
     nextHandle := 1%positive; clock := now |}.

Definition setView (v : View) (s : State) : State :=
  {| view := v; expenses := expenses s; selectedPerson := selectedPerson s;
     searchQuery := searchQuery s; showUndo := showUndo s;
     lastArchivedData := lastArchivedData s; undoTimeoutRef := undoTimeoutRef s;
     localStorage := localStorage s; timers := timers s;
     nextHandle := nextHandle s; clock := clock s |}.

Definition setExpenses (l : list Expense) (s : State) : State :=
  {| view := view s; expenses := l; selectedPerson := selectedPerson s;
     searchQuery := searchQuery s; showUndo := showUndo s;
     lastArchivedData := lastArchivedData s; undoTimeoutRef := undoTimeoutRef s;
     localStorage := localStorage s; timers := timers s;
     nextHandle := nextHandle s; clock := clock s |}.

Definition setShowUndo (b : bool) (s : State) : State :=
  {| view := view s; expenses := expenses s; selectedPerson := selectedPerson s;
     searchQuery := searchQuery s; showUndo := b;
     lastArchivedData := lastArchivedData s; undoTimeoutRef := undoTimeoutRef s;
     localStorage := localStorage s; timers := timers s;
     nextHandle := nextHandle s; clock := clock s |}.

(** [lastArchivedData.current = l] *)
Definition setLastArchivedData (l : list Expense) (s : State) : State :=
  {| view := view s; expenses := expenses s; selectedPerson := selectedPerson s;
     searchQuery := searchQuery s; showUndo := showUndo s;
     lastArchivedData := l; undoTimeoutRef := undoTimeoutRef s;
     localStorage := localStorage s; timers := timers s;
     nextHandle := nextHandle s; clock := clock s |}.

(** [localStorage.getItem(k)] *)
Definition getItem (k : string) (s : State) : option string :=
  localStorage s !! k.

(** [localStorage.setItem(k, v)] *)
Definition setItem (k v : string) (s : State) : State :=
  {| view := view s; expenses := expenses s; selectedPerson := selectedPerson s;
     searchQuery := searchQuery s; showUndo := showUndo s;
     lastArchivedData := lastArchivedData s; undoTimeoutRef := undoTimeoutRef s;
     localStorage := <[k := v]> (localStorage s); timers := timers s;
     nextHandle := nextHandle s; clock := clock s |}.

(** [clearTimeout(h)]: the callback of handle [h] will not run. *)
Definition clearTimeout (h : positive) (s : State) : State :=
  {| view := view s; expenses := expenses s; selectedPerson := selectedPerson s;
     searchQuery := searchQuery s; showUndo := showUndo s;
     lastArchivedData := lastArchivedData s; undoTimeoutRef := undoTimeoutRef s;
     localStorage := localStorage s;
     timers := List.filter (fun t => negb (Pos.eqb (fst t) h)) (timers s);
     nextHandle := nextHandle s; clock := clock s |}.

(** [undoTimeoutRef.current = window.setTimeout(() => setShowUndo(false), delay)] *)
Definition scheduleHide (delay : Z) (s : State) : State :=
  {| view := view s; expenses := expenses s; selectedPerson := selectedPerson s;
     searchQuery := searchQuery s; showUndo := showUndo s;
     lastArchivedData := lastArchivedData s;
     undoTimeoutRef := Some (nextHandle s);
     localStorage := localStorage s;
     timers := (nextHandle s, clock s + delay) :: timers s;
     nextHandle := Pos.succ (nextHandle s); clock := clock s |}.

(** [if (undoTimeoutRef.current) clearTimeout(undoTimeoutRef.current)] *)
Definition clearUndoTimeout (s : State) : State :=
  match undoTimeoutRef s with
  | Some h => clearTimeout h s
  | None => s
  end.

Definition due (now : Z) (t : positive * Z) : bool := snd t <=? now.

(** [ms] milliseconds pass with no user action: the callbacks that come due
    run, each hiding the undo bar. *)
Definition elapse (ms : Z) (s : State) : State :=
  let now := clock s + ms in
  {| view := view s; expenses := expenses s; selectedPerson := selectedPerson s;
     searchQuery := searchQuery s;
     showUndo := if existsb (due now) (timers s) then false else showUndo s;
     lastArchivedData := lastArchivedData s; undoTimeoutRef := undoTimeoutRef s;
     localStorage := localStorage s;
     timers := List.filter (fun t => negb (due now t)) (timers s);
     nextHandle := nextHandle s; clock := now |}.

(** [Date.now()] *)
Definition Date_now (s : State) : number := ofZ (clock s).

(** [expenses.filter(e => e.person === selectedPerson)], the records handed
    to [PersonDetail]. *)
Definition personExpenses (name : string) (expenses : list Expense) : list Expense :=
  List.filter (fun e : Expense => String.eqb (person e) name) expenses.

(** The predicate of the filter, on the lowercased query. *)
Definition matchesQuery (query : string) (e : Expense) : bool :=
  includes (toLowerCase (person e)) query
  || match label e with
     | Some l => includes (toLowerCase l) query
     | None => false
     end
  || includes (Number_toString (amount e)) query
  || includes (toLowerCase (modeName (mode e))) query.

(** [filteredExpenses] (the filter of the specification). *)
Definition filteredExpenses (expenses : list Expense) (searchQuery : string) : list Expense :=
  if negb (truthy searchQuery) then expenses
  else
    let query := toLowerCase searchQuery in
    List.filter (matchesQuery query) expenses.

(** Which component [App] renders, and on which records: [Home] on the
    filtered list, [AddExpense], [PersonDetail] on the records of the
    selected person when [view === 'person' && selectedPerson], and
    otherwise none of the three. *)
Inductive Screen :=
  | HomeScreen (shown : list Expense)
  | AddScreen
  | PersonScreen (name : string) (shown : list Expense)
  | NoScreen.

Definition screen (s : State) : Screen :=
  match view s with
  | ViewHome => HomeScreen (filteredExpenses (expenses s) (searchQuery s))
  | ViewAdd => AddScreen
  | ViewPerson =>
      match selectedPerson s with
      | Some name =>
          if truthy name then PersonScreen name (personExpenses name (expenses s))
          else NoScreen
      | None => NoScreen
      end
  end.

(** The render of [s] does not throw.  Of what the three components
    evaluate, only the avatar of an entry of [Home] can throw. *)
Definition draws (s : State) : bool :=
  match screen s with
  | HomeScreen shown =>
      forallb (fun e => match Home.avatar e with inl _ => true | inr _ => false end) shown
  | _ => true
  end.

(** How a handler or an effect ends: normally, with an exception thrown
    half-way (the state is what it had reached), or on stored data outside
    the static types. *)
Inductive Outcome :=
  | Done (s : State)
  | Threw (e : Error) (s : State)
  | Untyped.

(** The first effect: load the active set, once, on mount. *)
Definition loadEffect (s : State) : Outcome :=
  match getItem STORAGE_KEY s with
  | Some saved =>
      if truthy saved then
        match parseExpenses saved with
        | Records l => Done (setExpenses l s)
        | Raise e => Threw e s
        | NotExpenses => Untyped
        end
      else Done s
  | None => Done s
  end.

(** The second effect: store the active set after a render that changed it. *)
Definition saveEffect (s : State) : State :=
  setItem STORAGE_KEY (JSON_stringify (expenses s)) s.

(** The effects that follow a handler that ended normally, for a render
    that does not throw. *)
Definition rendered (o : Outcome) : Outcome :=
  match o with
  | Done s => Done (saveEffect s)
  | _ => o
  end.

(** Mounting [App] on a browser with the given storage.  The first render
    has no record; after it the two effects run in order, the load and the
    save of the active set of that render, which is still empty.  The
    render of the loaded set follows: when it throws, nothing is left on
    screen and the store stays as the first save has left it; otherwise its
    save effect runs.  (When nothing was loaded there is no second render;
    the state is the same.) *)
Definition mount (storage : gmap string string) (now : Z) : Outcome :=
  let s0 := initial storage now in
  match loadEffect s0 with
  | Done s1 =>
      let s2 := setItem STORAGE_KEY (JSON_stringify (expenses s0)) s1 in
      if draws s2 then Done (saveEffect s2) else Threw TypeError s2
  | o => o
  end.

(** [addExpense]; [newId] is what [Math.random().toString(36).substr(2, 9)]
    comes to. *)
Definition addExpense (expense : Entry) (newId : string) (s : State) : State :=
  let newExpense := {| entry := expense; id := newId; timestamp := Date_now s |} in
  setView ViewHome (setExpenses (newExpense :: expenses s) s).

(** [JSON.parse(localStorage.getItem(ARCHIVE_KEY) || '[]')] *)
Definition currentArchive (s : State) : Read :=
  parseExpenses
    match getItem ARCHIVE_KEY s with
    | Some text => if truthy text then text else "[]"
    | None => "[]"
    end.

(** [archiveData]: nothing on an empty active set; otherwise the snapshot
    goes into [lastArchivedData], the active set is appended to the stored
    archive, the active set is emptied, the undo bar is shown, and the
    timer that hides it is set anew for ten seconds. *)
Definition archiveData (s : State) : Outcome :=
  if (length (expenses s) =? 0)%nat then Done s
  else
    let s1 := setLastArchivedData (expenses s) s in
    match currentArchive s1 with
    | Records archive =>
        let s2 := setItem ARCHIVE_KEY (JSON_stringify (archive ++ expenses s)) s1 in
        let s3 := setShowUndo true (setExpenses [] s2) in
        Done (scheduleHide 10000 (clearUndoTimeout s3))
    | Raise e => Threw e s1
    | NotExpenses => Untyped
    end.

(** [undoArchive]: nothing on an empty snapshot; otherwise the snapshot
    becomes the active set, as many records as it has are cut off the end of
    the stored archive, the snapshot is dropped, the undo bar is hidden and
    its timer cancelled. *)
Definition undoArchive (s : State) : Outcome :=
  if (0 <? length (lastArchivedData s))%nat then
    let s1 := setExpenses (lastArchivedData s) s in
    match currentArchive s1 with
    | Records archive =>
        let newArchive :=
          slice archive 0
            (Z.of_nat (length archive) - Z.of_nat (length (lastArchivedData s1))) in
        let s2 := setItem ARCHIVE_KEY (JSON_stringify newArchive) s1 in
        let s3 := setShowUndo false (setLastArchivedData [] s2) in
        Done (clearUndoTimeout s3)
    | Raise e => Threw e s1
    | NotExpenses => Untyped
    end
  else Done s.

(** The Archive button of [Home] (after the confirmation). *)
Definition clickArchive (s : State) : Outcome := rendered (archiveData s).

(** The Undo button: it is rendered, and can be clicked, only while
    [showUndo] holds. *)
Definition clickUndo (s : State) : Outcome :=
  if showUndo s then rendered (undoArchive s) else Done s.

Definition setSelectedPerson (p : option string) (s : State) : State :=
  {| view := view s; expenses := expenses s; selectedPerson := p;
     searchQuery := searchQuery s; showUndo := showUndo s;
     lastArchivedData := lastArchivedData s; undoTimeoutRef := undoTimeoutRef s;
     localStorage := localStorage s; timers := timers s;
     nextHandle := nextHandle s; clock := clock s |}.

Definition setSearchQuery (q : string) (s : State) : State :=
  {| view := view s; expenses := expenses s; selectedPerson := selectedPerson s;
     searchQuery := q; showUndo := showUndo s;
     lastArchivedData := lastArchivedData s; undoTimeoutRef := undoTimeoutRef s;
     localStorage := localStorage s; timers := timers s;
     nextHandle := nextHandle s; clock := clock s |}.

(** [onAddClick={() => setView('add')}] *)
Definition onAddClick (s : State) : State := setView ViewAdd s.

(** [onBack={() => setView('home')}] *)
Definition onBack (s : State) : State := setView ViewHome s.

(** [onPersonClick={(name) => { setSelectedPerson(name); setView('person'); }}] *)
Definition onPersonClick (name : string) (s : State) : State :=
  setView ViewPerson (setSelectedPerson (Some name) s).

End App.

Module AddExpense.

(** The [useState] values of the entry form.  The amount is the value of
    an input of type number, so the browser hands over the empty text or
    the text of a number. *)
Record Form := {
  amount : string;
  person : string;
  mode : PaymentMode;
  label : string;
  status : PaymentStatus;
  proof : option string
}.

(** [handleSave]: [None] when it returns without calling [onSave],
    otherwise the argument of [onSave]. *)
Definition handleSave (f : Form) : option Entry :=
  if negb (truthy (amount f)) || negb (truthy (person f)) then None
  else Some {| Types.amount := parseFloat (amount f);
               Types.person := trim (person f);
               Types.mode := mode f;
               Types.label := Some (trim (label f));
               Types.status := status f;
               Types.proof := proof f |}.

(** The Save button, with [onSave = addExpense]. *)
Definition clickSave (f : Form) (newId : string) (s : App.State) : App.Outcome :=
  match handleSave f with
  | Some expense => App.rendered (App.Done (App.addExpense expense newId s))
  | None => App.Done s
  end.

(** [disabled={!amount || !person}] of the Save button. *)
Definition disabled (f : Form) : bool :=
  negb (truthy (amount f)) || negb (truthy (person f)).

End AddExpense.

Module PersonDetail.

(** [balance] (the specification's computeBalance). *)
Definition balance (expenses : list Expense) : number :=
  fold_left
    (fun (acc : number) (curr : Expense) =>
       match status curr with
       | TheyPaid => acc - amount curr
       | Split => acc + amount curr / 2
       | IPaid => acc + amount curr
       end%float)
    expenses 0%float.

(** [balanceText] (the specification's formatBalanceLabel). *)
Definition balanceText (balance : number) : string :=
  if (0 <? balance)%float then "Owes you ₹" ++ toFixed0 balance
  else if (balance <? 0)%float then "You owe ₹" ++ toFixed0 (abs balance)
  else "Settled Up".

(** [const lastPayment = expenses[0]] *)
Definition lastPayment (expenses : list Expense) : option Expense := hd_error expenses.

End PersonDetail.

(** ** Sessions

    What a user, and time, can do to a mounted [App]. *)

Module Session.

Inductive Event :=
  | ClickAdd
  | ClickBack
  | ClickPerson (name : string)
  | TypeSearch (query : string)
  | ClickSave (form : AddExpense.Form) (newId : string)
  | ClickArchive (dayOfMonth : Z)
  | ClickUndo
  | Wait (ms : Z).

(** The control of the event is on screen and enabled: the plus button,
    the search box, the entries and the Archive button belong to [Home],
    the Save button to [AddExpense], a back button to [AddExpense] and to
    [PersonDetail], the Undo button to the undo bar; time does not run
    backwards. *)
Definition available (ev : Event) (s : App.State) : bool :=
  match ev, App.screen s with
  | ClickAdd, App.HomeScreen _ => true
  | ClickBack, (App.AddScreen | App.PersonScreen _ _) => true
  | ClickPerson name, App.HomeScreen shown =>
      existsb (fun e : Expense => String.eqb (person e) name) shown
  | TypeSearch _, App.HomeScreen _ => true
  | ClickSave form _, App.AddScreen => negb (AddExpense.disabled form)
  | ClickArchive dayOfMonth, App.HomeScreen shown => Home.archiveVisible dayOfMonth shown
  | ClickUndo, _ => App.showUndo s
  | Wait ms, _ => 0 <=? ms
  | _, _ => false
  end.

(** The handler of each event; [ClickArchive] is a click confirmed in the
    dialog. *)
Definition dispatch (ev : Event) (s : App.State) : App.Outcome :=
  match ev with
  | ClickAdd => App.Done (App.onAddClick s)
  | ClickBack => App.Done (App.onBack s)
  | ClickPerson name => App.Done (App.onPersonClick name s)
  | TypeSearch query => App.Done (App.setSearchQuery query s)
  | ClickSave form newId => AddExpense.clickSave form newId s
  | ClickArchive _ => App.clickArchive s
  | ClickUndo => App.clickUndo s
  | Wait ms => App.Done (App.elapse ms s)
  end.

(** The state the session goes on from.  An exception in a handler leaves
    the updates made before it in place, and the render and its effects
    follow (the save effect of a render that has not changed the active
    set finds its text in the store already); stored data outside the
    static types ends the model. *)
Definition settled (o : App.Outcome) : option App.State :=
  match o with
  | App.Done s => Some s
  | App.Threw _ s => Some (App.saveEffect s)
  | App.Untyped => None
  end.

(** The states a session can be in. *)
Inductive reachable (storage : gmap string string) (now : Z) : App.State -> Prop :=
  | reach_mount (s : App.State) :
      App.mount storage now = App.Done s -> reachable storage now s
  | reach_step (s s' : App.State) (ev : Event) :
      reachable storage now s -> available ev s = true ->
      settled (dispatch ev s) = Some s' ->
      reachable storage now s'.

(** Running a list of events from a state. *)
Fixpoint run (evs : list Event) (s : App.State) : option App.State :=
  match evs with
  | [] => Some s
  | ev :: rest =>
      if available ev s then
        match settled (dispatch ev s) with
        | Some s' => run rest s'
        | None => None
        end
      else None
  end.

(** Mounting, then a list of events. *)
Definition session (storage : gmap string string) (now : Z) (evs : list Event)
  : option App.State :=
  match App.mount storage now with
  | App.Done s => run evs s
  | _ => None
  end.

End Session.

(** ** Vocabulary of the specification *)

(** What one record adds to the balance, in the words of the
    specification: [-amount] for They Paid, [+amount/2] for Split,
    [+amount] for I Paid. *)
Definition contribution (e : Expense) : number :=
  match status e with
  | TheyPaid => (- amount e)%float
  | Split => (amount e / 2)%float
  | IPaid => amount e
  end.

(** The running total of the contributions, left to right from 0. *)
Definition sumContributions (l : list Expense) : number :=
  fold_left (fun (acc : number) (e : Expense) => (acc + contribution e)%float) l 0%float.

(** [q] occurs in [s]. *)
Definition isSubstring (q s : string) : Prop :=
  exists pre post, s = pre ++ q ++ post.

(** The filter of the specification: the lowercased query occurs in the
    lowercased person, in the lowercased label (the empty string when there
    is none), in the decimal form of the amount, or in the lowercased mode
    name. *)
Definition matchesSpec (searchQuery : string) (e : Expense) : Prop :=
  let q := toLowerCase searchQuery in
  isSubstring q (toLowerCase (person e))
  \/ isSubstring q (toLowerCase (default EmptyString (label e)))
  \/ isSubstring q (Number_toString (amount e))
  \/ isSubstring q (toLowerCase (modeName (mode e))).

(** A record qualifies for the nudge when [3 < age < 7], in days. *)
Definition qualifies (now : number) (e : Expense) : bool :=
  (3 <? Home.ageInDays now e)%float && (Home.ageInDays now e <? 7)%float.

(** Timestamps never decrease along the list. *)
Fixpoint oldestFirst (l : list Expense) : bool :=
  match l with
  | a :: (b :: _) as rest => (timestamp a <=? timestamp b)%float && oldestFirst rest
  | _ => true
  end.

(** Timestamps never increase along the list. *)
Fixpoint newestFirst (l : list Expense) : bool :=
  match l with
  | a :: (b :: _) as rest => (timestamp b <=? timestamp a)%float && newestFirst rest
  | _ => true
  end.

(** The characters that can follow a value inside a JSON text. *)
Definition isDelimiter (c : ascii) : bool :=
  Ascii.eqb c "," || Ascii.eqb c "}" || Ascii.eqb c "]".

(** The characters a JSON value can start with. *)
Definition isStarter (c : ascii) : bool :=
  isDigit c || Ascii.eqb c "-" || Ascii.eqb c "[" || Ascii.eqb c "{"
  || Ascii.eqb c dquote || Ascii.eqb c "t" || Ascii.eqb c "f" || Ascii.eqb c "n".

(** A number that [JSON.stringify] writes and [JSON.parse] reads back: it
    is finite, and its decimal form, wherever it stands in a JSON text,
    parses to the same number. *)
Definition storableNumber (x : number) : Prop :=
  is_finite x = true
  /\ forall c rest, isDelimiter c = true ->
       parseNumber (Number_toString x ++ String c rest) = Some (x, String c rest).

(** The same, as a test that can be run. *)
Definition checkNumber (x : number) : bool :=
  is_finite x
  && forallb
       (fun c : ascii =>
          match parseNumber (Number_toString x ++ String c EmptyString) with
          | Some (y, r) => PrimFloat.Leibniz.eqb y x && String.eqb r (String c EmptyString)
          | None => false
          end)
       [","; "}"; "]"]%char.

(** A record whose two numbers are storable. *)
Definition storable (e : Expense) : Prop :=
  storableNumber (amount e) /\ storableNumber (timestamp e).

Definition checkStorable (e : Expense) : bool :=
  checkNumber (amount e) && checkNumber (timestamp e).

(** A JSON value all of whose numbers are storable. *)
Fixpoint printable (v : JSValue) : Prop :=
  match v with
  | JNum x => storableNumber x
  | JArr l => fold_right (fun v' acc => printable v' /\ acc) True l
  | JObj props => fold_right (fun kv acc => printable (snd kv) /\ acc) True props
  | _ => True
  end.

(** What may follow a value for it to be read back: after a number, a
    delimiter. *)
Definition followed (v : JSValue) (rest : string) : Prop :=
  match v with
  | JNum _ => exists c r, rest = String c r /\ isDelimiter c = true
  | _ => True
  end.

(** The parser, given the text of [v] and then [rest], returns [v] and
    [rest]. *)
Definition readsBack (v : JSValue) : Prop :=
  forall rest m,
    followed v rest ->
    (2 * String.length (stringifyValue v ++ rest) <= m)%nat ->
    parseValue m (stringifyValue v ++ rest) = Some (v, rest).

(** The text of a property in an object. *)
Definition memberText (kv : string * JSValue) : string :=
  QuoteJSONString (fst kv) ++ ":" ++ stringifyValue (snd kv).

(** The records survive [JSON.stringify] followed by [JSON.parse]. *)
Definition roundTrips (l : list Expense) : Prop :=
  parseExpenses (JSON_stringify l) = Records l.

(** The archive set as the store holds it. *)
Definition archiveSet (s : App.State) : Read := App.currentArchive s.

(** The real number [m * 2^e] is below [10^21]. *)
Definition below1e21 (m : positive) (e : Z) : Prop :=
  Zpos m * 2 ^ Z.max e 0 < 10 ^ 21 * 2 ^ Z.max (- e) 0.

(** [n] is the integer nearest to [m * 2^e], the larger of the two on a
    tie: [n - 1/2 <= m * 2^e < n + 1/2]. *)
Definition nearestInteger (m : positive) (e n : Z) : Prop :=
  (2 * n - 1) * 2 ^ Z.max (- e) 0 <= 2 * (Zpos m * 2 ^ Z.max e 0)
  /\ 2 * (Zpos m * 2 ^ Z.max e 0) < (2 * n + 1) * 2 ^ Z.max (- e) 0.

(** What holds of the state between two events: the store mirrors the
    active set; at most one timer is pending, it is the one
    [undoTimeoutRef] names and it comes due within ten seconds; the undo
    bar is shown only with a snapshot to restore and a timer to hide it. *)
Definition consistent (s : App.State) : Prop :=
  App.getItem App.STORAGE_KEY s = Some (JSON_stringify (App.expenses s))
  /\ (length (App.timers s) <= 1)%nat
  /\ (forall h t, In (h, t) (App.timers s) ->
        App.undoTimeoutRef s = Some h /\ App.clock s < t <= App.clock s + 10000)
  /\ (App.showUndo s = true ->
      App.lastArchivedData s <> []
      /\ exists h t, In (h, t) (App.timers s)).

(** How many of [len] records [slice(0, len - n)] keeps. *)
Definition keptOf (len n : nat) : nat :=
  if (n <=? len)%nat then (len - n)%nat else (2 * len - n)%nat.

(** An IEEE-754 form that is a zero, not a number, or of sign [s]
    ([true] for minus). *)
Definition signed (s : bool) (f : spec_float) : Prop :=
  match f with
  | S754_infinity s' | S754_finite s' _ _ => s' = s
  | _ => True
  end.

(** A number that is not below zero: zero, positive, or not a number. *)
Definition notNegative (x : number) : Prop := (x <? 0)%float = false.

(** A number that is not above zero. *)
Definition notPositive (x : number) : Prop := (0 <? x)%float = false.

(** ** Sample data *)

Module Sample.

Definition chai : AddExpense.Form :=
  {| AddExpense.amount := "120"; AddExpense.person := "Rohit";
     AddExpense.mode := UPI; AddExpense.label := " Chai ";
     AddExpense.status := IPaid; AddExpense.proof := None |}.

Definition cab : AddExpense.Form :=
  {| AddExpense.amount := "200"; AddExpense.person := "Asha";
     AddExpense.mode := Cash; AddExpense.label := "Cab";
     AddExpense.status := TheyPaid; AddExpense.proof := None |}.

Definition lunch : AddExpense.Form :=
  {| AddExpense.amount := "100"; AddExpense.person := "Rohit";
     AddExpense.mode := Cash; AddExpense.label := EmptyString;
     AddExpense.status := Split; AddExpense.proof := Some "data:image/png;base64,AAAA" |}.

(** A form the guard lets through: a negative amount and a blank person. *)
Definition blank : AddExpense.Form :=
  {| AddExpense.amount := "-5"; AddExpense.person := " ";
     AddExpense.mode := Cash; AddExpense.label := EmptyString;
     AddExpense.status := IPaid; AddExpense.proof := None |}.

(** A form whose person is a no-break space and an ideographic space. *)
Definition nbsp : AddExpense.Form :=
  {| AddExpense.amount := "5"; AddExpense.person := encodeAll [160; 12288];
     AddExpense.mode := Cash; AddExpense.label := EmptyString;
     AddExpense.status := IPaid; AddExpense.proof := None |}.

Definition state (o : App.Outcome) : App.State :=
  match o with
  | App.Done s => s
  | App.Threw _ s => s
  | App.Untyped => App.initial ∅ 0
  end.

Definition t0 : Z := 1700000000000.

(** A fresh browser, then three entries five seconds apart. *)
Definition s0 : App.State := state (App.mount ∅ t0).
Definition s1 : App.State := state (AddExpense.clickSave chai "k3x9q2m1a" s0).
Definition s2 : App.State :=
  state (AddExpense.clickSave cab "p0o9i8u7y" (App.elapse 5000 s1)).
Definition s3 : App.State :=
  state (AddExpense.clickSave lunch "z1x2c3v4b" (App.elapse 5000 s2)).

(** The list is archived; then the ten seconds pass. *)
Definition archived : App.State := state (App.clickArchive s3).
Definition expired : App.State := App.elapse 10000 archived.

(** One more entry after the archive has become permanent, so that the
    next archive finds three records already stored. *)
Definition s4 : App.State := state (AddExpense.clickSave chai "m5n6b7v8c" expired).

(** A store whose active-set text is not JSON. *)
Definition corrupt : gmap string string := {[ App.STORAGE_KEY := "{oops" ]}.

Definition rohit (ts : number) : Expense :=
  {| entry := {| amount := 120; person := "Rohit"; mode := UPI; label := None;
                 status := IPaid; proof := None |};
     id := "r"; timestamp := ts |}.

(** Records with letters outside ASCII: an accented capital, and a Greek
    word that ends in a sigma. *)
Definition emile : Expense :=
  {| entry := {| amount := 99.5; person := "Émile"; mode := Cash; label := Some "Café";
                 status := Split; proof := None |};
     id := "e"; timestamp := 1 |}.

Definition odos : Expense :=
  {| entry := {| amount := 7; person := "ΟΔΟΣ"; mode := UPI; label := None;
                 status := IPaid; proof := None |};
     id := "o"; timestamp := 2 |}.

Definition day : number := 86400000.
Definition now : number := 1700000000000.

End Sample.

(** A session on a fresh browser: three entries five seconds apart, then
    the Archive button on the 28th. *)
Module Tour.

Definition entries : list Session.Event :=
  [Session.ClickAdd; Session.ClickSave Sample.chai "k3x9q2m1a"; Session.Wait 5000;
   Session.ClickAdd; Session.ClickSave Sample.cab "p0o9i8u7y"; Session.Wait 5000;
   Session.ClickAdd; Session.ClickSave Sample.lunch "z1x2c3v4b"].

Definition archive : list Session.Event := entries ++ [Session.ClickArchive 28].

(** After the archive: a look at the form, four seconds, one more entry,
    six seconds. *)
Definition later : list Session.Event :=
  [Session.ClickAdd; Session.Wait 4000;
   Session.ClickSave Sample.chai "m5n6b7v8c"; Session.Wait 6000].

(** The state four seconds after the archive, with one more entry. *)
Definition again : list Session.Event :=
  archive ++ [Session.ClickAdd; Session.Wait 4000;
              Session.ClickSave Sample.chai "m5n6b7v8c"].

Definition readded : App.State :=
  Sample.state
    (AddExpense.clickSave Sample.chai "m5n6b7v8c"
       (App.elapse 4000 (App.onAddClick Sample.archived))).

(** The state after the archive when something else (another tab) has
    meanwhile replaced the stored archive by one of two records. *)
Definition replaced : App.State :=
  App.setItem App.ARCHIVE_KEY (JSON_stringify [Sample.rohit 1; Sample.rohit 2])
    Sample.archived.


(** With a search typed that lists nothing, the form with a person of one
    space is saved on top of the three sample entries. *)
Definition unseen : list Session.Event :=
  entries ++ [Session.TypeSearch "zzz"; Session.ClickAdd;
              Session.ClickSave Sample.blank "q7w8e9r0t"].

Definition hidden : App.State :=
  Sample.state
    (AddExpense.clickSave Sample.blank "q7w8e9r0t"
       (App.onAddClick (App.setSearchQuery "zzz" Sample.s3))).

End Tour.

(** * Properties *)

(** ** Strings *)

#[local] Arguments String.append !_ _ / : simpl nomatch.

Lemma truthy_true (s : string) : truthy s = true <-> s <> EmptyString.
Proof. destruct s; simpl; split; congruence. Qed.

Lemma truthy_false (s : string) : truthy s = false <-> s = EmptyString.
Proof. destruct s; simpl; split; congruence. Qed.

Lemma append_nil_r (s : string) : s ++ EmptyString = s.
Proof. induction s; simpl; congruence. Qed.

Lemma append_assoc (a b c : string) : (a ++ b) ++ c = a ++ (b ++ c).
Proof. induction a; simpl; congruence. Qed.

Lemma prefix_spec (q s : string) :
  String.prefix q s = true <-> exists post, s = q ++ post.
Proof.
  revert s. induction q as [|a q IH]; intros s.
  - split; [intros _; exists s; reflexivity | intros _; destruct s; reflexivity].
  - destruct s as [|b s]; simpl.
    + split; [discriminate | intros [post H]; discriminate].
    + destruct (ascii_dec a b) as [->|Hne].
      * rewrite IH. split; intros [post H]; exists post; congruence.
      * split; [discriminate | intros [post H]; congruence].
Qed.

Lemma includes_spec (s q : string) : includes s q = true <-> isSubstring q s.
Proof.
  unfold isSubstring. induction s as [|c s IH].
  - cbn [includes]. rewrite orb_false_r, prefix_spec. split.
    + intros [post H]. exists EmptyString, post. exact H.
    + intros [pre [post H]]. destruct pre; [exists post; exact H | discriminate].
  - cbn [includes]. rewrite orb_true_iff, prefix_spec, IH. split.
    + intros [[post H] | [pre [post H]]].
      * exists EmptyString, post. exact H.
      * exists (String c pre), post. simpl. congruence.
    + intros [pre [post H]]. destruct pre as [|c' pre].
      * left. exists post. exact H.
      * right. exists pre, post. simpl in H. congruence.
Qed.

Lemma includes_empty_l (q : string) : q <> EmptyString -> includes EmptyString q = false.
Proof. destruct q; [congruence | reflexivity]. Qed.

Lemma length_append (a b : string) :
  String.length (a ++ b) = (String.length a + String.length b)%nat.
Proof. induction a; simpl; congruence. Qed.

(** *** Characters *)

Lemma next_spec (s : string) (cp : Z) (w r : string) :
  next s = Some (cp, w, r) -> s = w ++ r /\ w <> EmptyString.
Proof.
  unfold next, stray. destruct s as [|a s]; [discriminate|].
  intros H. injection H as H.
  repeat match type of H with
         | context [match ?x with _ => _ end] => destruct x
         end;
    injection H as <- <- <-; split; (reflexivity || discriminate).
Qed.

Lemma next_None (s : string) : next s = None -> s = EmptyString.
Proof. destruct s; [reflexivity | discriminate]. Qed.

Lemma text_charsN (n : nat) :
  forall s, (String.length s <= n)%nat -> text (charsN n s) = s.
Proof.
  induction n as [|n IH]; intros s Hn.
  - destruct s; [reflexivity | simpl in Hn; lia].
  - cbn [charsN]. destruct (next s) as [[[cp w] r]|] eqn:E.
    + apply next_spec in E as [-> Hw]. cbn [text]. f_equal. apply IH.
      rewrite length_append in Hn. destruct w; [congruence | simpl in Hn; lia].
    + apply next_None in E. subst s. reflexivity.
Qed.

(** The characters of a string spell it. *)
Lemma text_chars (s : string) : text (chars s) = s.
Proof. apply text_charsN. lia. Qed.

Lemma charsN_spelt (n : nat) :
  forall s c, In c (charsN n s) -> snd c <> EmptyString.
Proof.
  induction n as [|n IH]; intros s c; [intros []|].
  cbn [charsN]. destruct (next s) as [[[cp w] r]|] eqn:E; [|intros []].
  intros [<- | Hin]; [apply next_spec in E; tauto | exact (IH r c Hin)].
Qed.

Lemma text_app (l l' : list (Z * string)) : text (l ++ l') = text l ++ text l'.
Proof.
  induction l as [|[cp w] l IH]; [reflexivity|]. cbn [app text].
  rewrite IH, append_assoc. reflexivity.
Qed.

Lemma text_empty (l : list (Z * string)) :
  (forall c, In c l -> snd c <> EmptyString) -> text l = EmptyString -> l = [].
Proof.
  destruct l as [|[cp w] l]; [reflexivity|]. intros Hne H. exfalso.
  apply (Hne (cp, w)); [left; reflexivity|]. cbn [text] in H.
  destruct w; [reflexivity | discriminate].
Qed.

Lemma chars_cons (a : ascii) (s : string) :
  exists cp w l, chars (String a s) = (cp, w) :: l.
Proof.
  unfold chars. cbn [String.length charsN].
  destruct (next (String a s)) as [[[cp w] r]|] eqn:E; [eauto | discriminate].
Qed.

Lemma encode_spelt (cp : Z) : exists a t, encode cp = String a t.
Proof.
  unfold encode.
  destruct (cp <? 128); [eauto|]. destruct (cp <? 2048); [eauto|].
  destruct (cp <? 65536); [eauto|]. destruct (cp <? 1114112); eauto.
Qed.

Lemma encodeAll_truthy (l : list Z) : l <> [] -> truthy (encodeAll l) = true.
Proof.
  destruct l as [|c l]; [congruence|]. intros _. cbn [encodeAll].
  destruct (encode_spelt c) as [a [t ->]]. reflexivity.
Qed.

Lemma expanded_spelt (t : list (Z * list Z)) (c : Z) (l : list Z) :
  forallb (fun p : Z * list Z => negb (length (snd p) =? 0)%nat) t = true ->
  expanded t c = Some l -> l <> [].
Proof.
  induction t as [|[c' l'] t IH]; [discriminate|]. cbn [forallb expanded snd].
  intros H. apply andb_true_iff in H as [Hl Ht].
  destruct (c =? c'); [|exact (IH Ht)].
  intros [= <-] ->. discriminate.
Qed.

Lemma lowerOf_spelt (c : Z) : lowerOf c <> [].
Proof.
  unfold lowerOf. destruct (expanded lowerSpecial c) as [l|] eqn:E.
  - apply (expanded_spelt lowerSpecial c); [reflexivity | exact E].
  - destruct (shifted lowerRanges c); discriminate.
Qed.

Lemma upperOf_spelt (c : Z) : upperOf c <> [].
Proof.
  unfold upperOf. destruct (expanded upperSpecial c) as [l|] eqn:E.
  - apply (expanded_spelt upperSpecial c); [vm_compute; reflexivity | exact E].
  - destruct (shifted upperRanges c); discriminate.
Qed.

(** Case mapping keeps a non-empty string non-empty. *)
Lemma toLowerCase_truthy (s : string) : truthy (toLowerCase s) = truthy s.
Proof.
  destruct s as [|a s]; [reflexivity|]. cbn [truthy].
  unfold toLowerCase, codePoints. destruct (chars_cons a s) as [cp [w [l ->]]].
  apply encodeAll_truthy. cbn [map fst lowerAll].
  pose proof (lowerOf_spelt cp) as Hl.
  destruct (cp =? 931); [destruct (_ && _); discriminate|].
  destruct (lowerOf cp); [congruence | discriminate].
Qed.

Lemma toUpperCase_truthy (s : string) : truthy (toUpperCase s) = truthy s.
Proof.
  destruct s as [|a s]; [reflexivity|]. cbn [truthy].
  unfold toUpperCase, codePoints. destruct (chars_cons a s) as [cp [w [l ->]]].
  apply encodeAll_truthy. cbn [map fst flat_map].
  pose proof (upperOf_spelt cp) as Hu.
  destruct (upperOf cp); [congruence | discriminate].
Qed.

(** *** White space *)

Lemma dropSpace_spec (l : list (Z * string)) :
  exists l1,
    l = (l1 ++ dropSpace l)%list
    /\ forallb (fun c : Z * string => isWhiteSpace (fst c)) l1 = true
    /\ (forall c m, dropSpace l = c :: m -> isWhiteSpace (fst c) = false).
Proof.
  induction l as [|[cp w] l [l1 [Hl [Hw Hh]]]].
  - exists []. split; [reflexivity|]. split; [reflexivity | discriminate].
  - cbn [dropSpace]. destruct (isWhiteSpace cp) eqn:Hc.
    + exists ((cp, w) :: l1). split; [simpl; congruence|].
      split; [simpl; rewrite Hc; exact Hw | exact Hh].
    + exists []. split; [reflexivity|]. split; [reflexivity|].
      intros c m [= <- _]. exact Hc.
Qed.

Lemma dropSpace_all (l : list (Z * string)) :
  forallb (fun c : Z * string => isWhiteSpace (fst c)) l = true -> dropSpace l = [].
Proof.
  induction l as [|[cp w] l IH]; [reflexivity|]. cbn [forallb dropSpace fst].
  intros H. apply andb_true_iff in H as [-> Hl]. exact (IH Hl).
Qed.

Lemma forallb_rev {A} (p : A -> bool) (l : list A) :
  forallb p (rev l) = true <-> forallb p l = true.
Proof.
  rewrite !forallb_forall. split; intros H x Hx; apply H.
  - apply (proj1 (in_rev l x)). exact Hx.
  - apply (proj2 (in_rev l x)). exact Hx.
Qed.

(** [trim s] is [s] without the white space at its two ends: the
    characters of [s] are white space, then those of [trim s], then white
    space, and [trim s] neither starts nor ends with white space. *)
Lemma trim_spec (s : string) :
  exists l m r,
    chars s = (l ++ m ++ r)%list
    /\ trim s = text m
    /\ forallb (fun c : Z * string => isWhiteSpace (fst c)) l = true
    /\ forallb (fun c : Z * string => isWhiteSpace (fst c)) r = true
    /\ (forall c m', m = c :: m' -> isWhiteSpace (fst c) = false)
    /\ (forall c m', m = (m' ++ [c])%list -> isWhiteSpace (fst c) = false).
Proof.
  destruct (dropSpace_spec (chars s)) as [l [Hl [Hwl Hhead]]].
  destruct (dropSpace_spec (rev (dropSpace (chars s)))) as [r' [Hr [Hwr Hlast]]].
  exists l, (rev (dropSpace (rev (dropSpace (chars s))))), (rev r').
  assert (Hd : dropSpace (chars s)
               = (rev (dropSpace (rev (dropSpace (chars s)))) ++ rev r')%list).
  { rewrite <- rev_app_distr, <- Hr, rev_involutive. reflexivity. }
  split; [rewrite <- Hd; exact Hl|]. split; [reflexivity|]. split; [exact Hwl|].
  split; [apply forallb_rev; exact Hwr|]. split.
  - intros c m' Hm. rewrite Hm in Hd. exact (Hhead c _ Hd).
  - intros c m' Hm. apply (Hlast c (rev m')).
    rewrite <- (rev_involutive (dropSpace (rev (dropSpace (chars s))))), Hm.
    rewrite rev_app_distr. reflexivity.
Qed.

(** [trim s] is empty exactly when [s] is white space throughout. *)
Lemma trim_empty (s : string) : trim s = EmptyString <-> allWhiteSpace s = true.
Proof.
  split.
  - intros H. destruct (trim_spec s) as [l [m [r [Hc [Ht [Hl [Hr _]]]]]]].
    rewrite Ht in H. apply text_empty in H.
    + subst m. unfold allWhiteSpace. rewrite Hc. simpl.
      rewrite forallb_app, Hl, Hr. reflexivity.
    + intros c Hin. apply (charsN_spelt (String.length s) s). fold (chars s).
      rewrite Hc. apply in_or_app. right. apply in_or_app. left. exact Hin.
  - intros H. unfold trim. rewrite (dropSpace_all _ H). reflexivity.
Qed.

Lemma allWhiteSpace_trim (s : string) : allWhiteSpace s = true -> trim s = EmptyString.
Proof. apply trim_empty. Qed.


(** ** Numbers *)

(** Subtracting is adding the opposite, bit for bit. *)
Lemma sub_add_opp (x y : number) : (x - y = x + - y)%float.
Proof.
  apply Prim2SF_inj. rewrite sub_spec, add_spec, opp_spec.
  unfold SF64sub, SF64add.
  destruct (Prim2SF x) as [sx|sx| |sx mx ex], (Prim2SF y) as [sy|sy| |sy my ey];
    try reflexivity;
    destruct sx, sy; reflexivity.
Qed.

Lemma Prim2SF_zero : Prim2SF 0 = S754_zero false.
Proof. reflexivity. Qed.

(** The sign of a number, read off its IEEE-754 form. *)
Lemma positive_spec (b : number) :
  (0 <? b)%float = true <->
  (exists m e, Prim2SF b = S754_finite false m e) \/ Prim2SF b = S754_infinity false.
Proof.
  rewrite FloatAxioms.ltb_spec, Prim2SF_zero. unfold SFltb.
  destruct (Prim2SF b) as [s|s| |s m e]; simpl.
  - split; [discriminate | intros [[m [e H]] | H]; discriminate].
  - destruct s; split; try discriminate; auto.
    intros [[m [e H]] | H]; discriminate.
  - split; [discriminate | intros [[m [e H]] | H]; discriminate].
  - destruct s; split; try discriminate; eauto.
    intros [[m' [e' H]] | H]; discriminate.
Qed.

Lemma negative_spec (b : number) :
  (b <? 0)%float = true <->
  (exists m e, Prim2SF b = S754_finite true m e) \/ Prim2SF b = S754_infinity true.
Proof.
  rewrite FloatAxioms.ltb_spec, Prim2SF_zero. unfold SFltb.
  destruct (Prim2SF b) as [s|s| |s m e]; simpl.
  - split; [discriminate | intros [[m [e H]] | H]; discriminate].
  - destruct s; split; try discriminate; auto.
    intros [[m [e H]] | H]; discriminate.
  - split; [discriminate | intros [[m [e H]] | H]; discriminate].
  - destruct s; split; try discriminate; eauto.
    intros [[m' [e' H]] | H]; discriminate.
Qed.

Lemma zero_spec (b : number) :
  (b =? 0)%float = true <-> exists s, Prim2SF b = S754_zero s.
Proof.
  rewrite FloatAxioms.eqb_spec, Prim2SF_zero. unfold SFeqb.
  destruct (Prim2SF b) as [s|s| |s m e]; simpl.
  - split; eauto.
  - destruct s; split; try discriminate; intros [s' H]; discriminate.
  - split; [discriminate | intros [s' H]; discriminate].
  - destruct s; split; try discriminate; intros [s' H]; discriminate.
Qed.

Lemma negative_not_positive (b : number) :
  (b <? 0)%float = true -> (0 <? b)%float = false.
Proof.
  intros H. apply negative_spec in H. apply not_true_is_false. intros P.
  apply positive_spec in P.
  destruct H as [[m [e H]] | H], P as [[m' [e' P]] | P]; congruence.
Qed.

Lemma zero_not_signed (b : number) :
  (b =? 0)%float = true -> (0 <? b)%float = false /\ (b <? 0)%float = false.
Proof.
  intros H. apply zero_spec in H as [s H]. split; apply not_true_is_false; intros P.
  - apply positive_spec in P. destruct P as [[m [e P]] | P]; congruence.
  - apply negative_spec in P. destruct P as [[m [e P]] | P]; congruence.
Qed.

(** [Math.abs] leaves a positive number alone. *)
Lemma abs_positive (b : number) : (0 <? b)%float = true -> abs b = b.
Proof.
  intros H. apply positive_spec in H. apply Prim2SF_inj. rewrite abs_spec.
  destruct H as [[m [e H]] | H]; rewrite H; reflexivity.
Qed.

Lemma abs_negative (b : number) :
  (b <? 0)%float = true ->
  (exists m e, Prim2SF b = S754_finite true m e /\ Prim2SF (abs b) = S754_finite false m e)
  \/ (Prim2SF b = S754_infinity true /\ Prim2SF (abs b) = S754_infinity false).
Proof.
  intros H. apply negative_spec in H. rewrite abs_spec.
  destruct H as [[m [e H]] | H]; rewrite H; [left; exists m, e | right]; split; reflexivity.
Qed.

Lemma roundHalfUp_nearest (m : positive) (e : Z) : nearestInteger m e (roundHalfUp m e).
Proof.
  unfold nearestInteger, roundHalfUp. destruct (0 <=? e) eqn:He.
  - apply Z.leb_le in He. rewrite (Z.max_l e 0), (Z.max_r (- e) 0) by lia.
    simpl (2 ^ 0). lia.
  - apply Z.leb_gt in He. rewrite (Z.max_r e 0), (Z.max_l (- e) 0) by lia.
    simpl (2 ^ 0). rewrite Z.mul_1_r.
    assert (Hd : 0 < 2 ^ (- e)) by (apply Z.pow_pos_nonneg; lia).
    set (d := 2 ^ (- e)) in *.
    pose proof (Z.div_mod (2 * Z.pos m + d) (2 * d) ltac:(lia)) as Hq.
    pose proof (Z.mod_pos_bound (2 * Z.pos m + d) (2 * d) ltac:(lia)) as Hr.
    nia.
Qed.

Lemma toFixed0_rounds (x : number) (s : bool) (m : positive) (e : Z) :
  Prim2SF x = S754_finite s m e -> below1e21 m e ->
  toFixed0 x = (if s then "-" else EmptyString) ++ digitsOf (roundHalfUp m e).
Proof.
  intros Hx Hb. unfold toFixed0. rewrite Hx.
  replace (10 ^ 21 <=? fst (scaled m e 0)) with false; [reflexivity|].
  symmetry. apply Z.leb_gt. unfold scaled, below1e21 in *. cbn [fst].
  rewrite Z.max_id. change (10 ^ 0) with 1. rewrite !Z.mul_1_r.
  assert (Hd : 0 < 2 ^ Z.max (- e) 0) by (apply Z.pow_pos_nonneg; lia).
  apply Z.div_lt_upper_bound; lia.
Qed.

Lemma digits2_pos_bound (m : positive) : Zpos m < 2 ^ Zpos (digits2_pos m).
Proof.
  induction m as [p IH | p IH |]; cbn [digits2_pos].
  - rewrite Pos2Z.inj_succ, Z.pow_succ_r by lia. lia.
  - rewrite Pos2Z.inj_succ, Z.pow_succ_r by lia. lia.
  - reflexivity.
Qed.

(** The significand of a binary64 number is below [2^53]. *)
Lemma significand_bound (x : number) (s : bool) (m : positive) (e : Z) :
  Prim2SF x = S754_finite s m e -> Zpos m < 2 ^ 53.
Proof.
  intros Hx. pose proof (Prim2SF_valid x) as Hv. rewrite Hx in Hv.
  unfold valid_binary, bounded, canonical_mantissa, fexp in Hv.
  apply andb_true_iff in Hv as [Hc _]. apply Z.eqb_eq in Hc.
  pose proof (digits2_pos_bound m) as Hd.
  assert (Hle : Zpos (digits2_pos m) <= 53) by (unfold prec in Hc; lia).
  eapply Z.lt_le_trans; [exact Hd|]. apply Z.pow_le_mono_r; lia.
Qed.

(** A number of [10^21] or more is a whole number, and [toFixed(0)] shows
    it as [Number::toString] does. *)
Lemma toFixed0_large (x : number) (s : bool) (m : positive) (e : Z) :
  Prim2SF x = S754_finite s m e -> ~ below1e21 m e ->
  0 <= e /\ toFixed0 x = (if s then "-" else EmptyString) ++ Number_toString (abs x).
Proof.
  intros Hx Hb. pose proof (significand_bound x s m e Hx) as Hm.
  unfold below1e21 in Hb. apply Z.nlt_ge in Hb.
  assert (He : 0 <= e).
  { destruct (Z.le_gt_cases 0 e) as [H | H]; [exact H|]. exfalso.
    rewrite (Z.max_r e 0), (Z.max_l (- e) 0) in Hb by lia. change (2 ^ 0) with 1 in Hb.
    assert (Hp : 1 <= 2 ^ (- e)) by (apply (Z.pow_le_mono_r 2 0 (- e)); lia).
    assert (H21 : 2 ^ 53 < 10 ^ 21) by reflexivity. nia. }
  split; [exact He|]. unfold toFixed0. rewrite Hx.
  replace (10 ^ 21 <=? fst (scaled m e 0)) with true; [reflexivity|].
  symmetry. apply Z.leb_le. unfold scaled. cbn [fst].
  rewrite (Z.max_l e 0), (Z.max_r (- e) 0) in * by lia. rewrite Z.max_id.
  change (2 ^ 0) with 1 in *. change (10 ^ 0) with 1. rewrite Z.mul_1_r, Z.div_1_r. lia.
Qed.

Lemma abs_abs (x : number) : abs (abs x) = abs x.
Proof.
  apply Prim2SF_inj. rewrite !abs_spec. destruct (Prim2SF x); reflexivity.
Qed.

(** ** The JSON parser needs no more fuel than it is given *)


Lemma skipWs_length (s : string) : (String.length (skipWs s) <= String.length s)%nat.
Proof.
  induction s as [|c s IH]; simpl; [lia|].
  destruct (isJSONSpace c); simpl; lia.
Qed.

Lemma stripPrefix_length (p s r : string) :
  stripPrefix p s = Some r -> (String.length r + String.length p = String.length s)%nat.
Proof.
  revert s. induction p as [|a p IH]; intros s H; simpl in H.
  - injection H as <-. simpl. lia.
  - destruct s as [|b s]; [discriminate|]. destruct (Ascii.eqb a b); [|discriminate].
    apply IH in H. simpl. lia.
Qed.

Lemma token_length (c : ascii) (s r : string) :
  token c s = Some r -> (String.length r < String.length s)%nat.
Proof.
  unfold token. intros H. apply stripPrefix_length in H.
  pose proof (skipWs_length s). simpl in H. lia.
Qed.

Lemma prepend_length (t : string) (k : option (string * string)) (u r : string) (n : nat) :
  prepend t k = Some (u, r) ->
  (forall u' r', k = Some (u', r') -> (String.length r' < n)%nat) ->
  (String.length r < n)%nat.
Proof.
  destruct k as [[u' r']|]; simpl; [|discriminate].
  intros [= _ <-] H. eapply H. reflexivity.
Qed.

Lemma parseChars_length (s t r : string) :
  parseChars s = Some (t, r) -> (String.length r < String.length s)%nat.
Proof.
  remember (String.length s) as n eqn:Hn. revert s t r Hn.
  induction n as [n IH] using lt_wf_ind. intros s t r -> H.
  destruct s as [|c s]; [discriminate|]. cbn [parseChars] in H.
  destruct (Ascii.eqb c dquote); [injection H as _ <-; simpl; lia|].
  destruct (Ascii.eqb c backslash).
  - destruct s as [|e s]; [discriminate|]. destruct (unescape e).
    + eapply prepend_length in H; [exact H|]. intros u' r' Hk.
      eapply Nat.lt_trans; [eapply (IH (String.length s)); simpl; eauto; lia | simpl; lia].
    + destruct (Ascii.eqb e "u"); [|discriminate].
      destruct s as [|h1 [|h2 [|h3 [|h4 s]]]]; try discriminate.
      destruct (hexValue h1), (hexValue h2), (hexValue h3), (hexValue h4); try discriminate.
      cbv zeta in H.
      assert (Hsingle : forall u, prepend u (parseChars s) = Some (t, r) ->
                (String.length r
                 < String.length (String c (String e (String h1 (String h2 (String h3
                                    (String h4 s)))))))%nat).
      { intros u Hu. eapply prepend_length in Hu; [exact Hu|]. intros u' r' Hk.
        eapply Nat.lt_trans; [eapply (IH (String.length s)); simpl; eauto; lia | simpl; lia]. }
      destruct (_ && _); [|exact (Hsingle _ H)].
      destruct s as [|b1 [|e1 [|g1 [|g2 [|g3 [|g4 s']]]]]]; try exact (Hsingle _ H).
      destruct (hexValue g1), (hexValue g2), (hexValue g3), (hexValue g4);
        try exact (Hsingle _ H).
      destruct (_ && _); [|exact (Hsingle _ H)].
      eapply prepend_length in H; [exact H|]. intros u' r' Hk.
      eapply Nat.lt_trans; [eapply (IH (String.length s')); simpl; eauto; lia | simpl; lia].
  - destruct (nat_of_ascii c <? 32)%nat; [discriminate|].
    eapply prepend_length in H; [exact H|]. intros u' r' Hk.
    eapply Nat.lt_trans; [eapply (IH (String.length s)); simpl; eauto; lia | simpl; lia].
Qed.

Lemma takeDigits_length (s d r : string) :
  takeDigits s = (d, r) -> (String.length d + String.length r = String.length s)%nat.
Proof.
  revert d r. induction s as [|c s IH]; simpl; intros d r H.
  - injection H as <- <-. reflexivity.
  - destruct (isDigit c).
    + destruct (takeDigits s) as [d' r'] eqn:Ht. injection H as <- <-.
      specialize (IH d' r' eq_refl). simpl. lia.
    + injection H as <- <-. reflexivity.
Qed.

Lemma takeSign_length (plus : bool) (s r : string) (neg : bool) :
  takeSign plus s = (neg, r) -> (String.length r <= String.length s)%nat.
Proof.
  unfold takeSign. intros H.
  destruct (stripPrefix "-" s) as [r1|] eqn:H1.
  - injection H as _ <-. apply stripPrefix_length in H1. lia.
  - destruct (stripPrefix "+" s) as [r2|] eqn:H2.
    + apply stripPrefix_length in H2. destruct plus; injection H as _ <-; lia.
    + injection H as _ <-. lia.
Qed.

Lemma takeExponent_length (s r : string) (ex : Z) :
  takeExponent s = Some (ex, r) -> (String.length r < String.length s)%nat.
Proof.
  unfold takeExponent. destruct s as [|c u]; [discriminate|].
  destruct (Ascii.eqb c "e" || Ascii.eqb c "E")%bool; [|discriminate].
  destruct (takeSign true u) as [eneg r1] eqn:Hs. apply takeSign_length in Hs.
  destruct (takeDigits r1) as [ed rest] eqn:Ht. apply takeDigits_length in Ht.
  destruct (truthy ed); [|discriminate]. intros [= _ <-]. simpl. lia.
Qed.

Lemma parseNumber_length (s r : string) (x : number) :
  parseNumber s = Some (x, r) -> (String.length r < String.length s)%nat.
Proof.
  unfold parseNumber. destruct (takeSign false s) as [neg s1] eqn:Hs.
  apply takeSign_length in Hs.
  destruct (match stripPrefix "0" s1 with
            | Some r0 => ("0", r0)
            | None => takeDigits s1
            end) as [ip s2] eqn:Hi.
  assert (Hip : (String.length ip + String.length s2 = String.length s1)%nat).
  { destruct (stripPrefix "0" s1) as [r0|] eqn:H0.
    - injection Hi as <- <-. apply stripPrefix_length in H0. simpl in *. lia.
    - apply takeDigits_length. exact Hi. }
  destruct (truthy ip) eqn:Ht; [|discriminate]. cbn [negb].
  assert (Hpos : (0 < String.length ip)%nat) by (destruct ip; [discriminate | simpl; lia]).
  destruct (match stripPrefix "." s2 with
            | Some r0 => let '(fp, s3) := takeDigits r0 in
                         if truthy fp then Some (fp, s3) else None
            | None => Some (EmptyString, s2)
            end) as [[fp s3]|] eqn:Hf; [|discriminate].
  assert (Hfp : (String.length s3 <= String.length s2)%nat).
  { destruct (stripPrefix "." s2) as [r0|] eqn:Hd.
    - apply stripPrefix_length in Hd. destruct (takeDigits r0) as [d r'] eqn:Hd'.
      apply takeDigits_length in Hd'. destruct (truthy d); [|discriminate].
      injection Hf as _ <-. lia.
    - injection Hf as _ <-. lia. }
  intros H.
  assert (He : forall ex s4, takeExponent s3 = Some (ex, s4) ->
                             (String.length s4 < String.length s3)%nat)
    by (intros ex s4; apply takeExponent_length).
  destruct (stripPrefix "e" s3), (stripPrefix "E" s3);
    try (destruct (takeExponent s3) as [[ex' rest']|]; [|discriminate];
         injection H as _ <-; specialize (He ex' rest' eq_refl); lia).
  injection H as _ <-. lia.
Qed.

(** What the three parsers return at some fuel they return at any fuel
    that is twice the number of characters they consumed. *)
Lemma parse_fuel (n : nat) :
  (forall s v r, parseValue n s = Some (v, r) ->
     (String.length r < String.length s)%nat
     /\ forall m, (2 * (String.length s - String.length r) <= m)%nat ->
                  parseValue m s = Some (v, r))
  /\ (forall s l r, parseElements n s = Some (l, r) ->
        (String.length r < String.length s)%nat
        /\ forall m, (2 * (String.length s - String.length r) <= m)%nat ->
                     parseElements m s = Some (l, r))
  /\ (forall s l r, parseMembers n s = Some (l, r) ->
        (String.length r < String.length s)%nat
        /\ forall m, (2 * (String.length s - String.length r) <= m)%nat ->
                     parseMembers m s = Some (l, r)).
Proof.
  induction n as [|n [IHv [IHe IHm]]]; [repeat split; discriminate|].
  split; [|split].
  - intros s v r H. cbn [parseValue] in H.
    destruct (token "[" s) as [r0|] eqn:H1.
    { apply token_length in H1 as L1. destruct (token "]" r0) as [r1|] eqn:H2.
      - apply token_length in H2 as L2. injection H as <- <-. split; [lia|].
        intros [|m] Hle; [lia|]. cbn [parseValue]. rewrite H1, H2. reflexivity.
      - destruct (parseElements n r0) as [[l r']|] eqn:He; [|discriminate].
        injection H as <- <-. apply IHe in He as [Hlt Hm]. split; [lia|].
        intros [|m] Hle; [lia|]. cbn [parseValue]. rewrite H1, H2.
        rewrite Hm by lia. reflexivity. }
    destruct (token "{" s) as [r0|] eqn:H2.
    { apply token_length in H2 as L2. destruct (token "}" r0) as [r1|] eqn:H3.
      - apply token_length in H3 as L3. injection H as <- <-. split; [lia|].
        intros [|m] Hle; [lia|]. cbn [parseValue]. rewrite H1, H2, H3. reflexivity.
      - destruct (parseMembers n r0) as [[l r']|] eqn:He; [|discriminate].
        injection H as <- <-. apply IHm in He as [Hlt Hm]. split; [lia|].
        intros [|m] Hle; [lia|]. cbn [parseValue]. rewrite H1, H2, H3.
        rewrite Hm by lia. reflexivity. }
    assert (Hrest : (String.length r < String.length s)%nat).
    { pose proof (skipWs_length s) as Hws.
      destruct (token dquote s) as [r0|] eqn:H3.
      - apply token_length in H3. destruct (parseChars r0) as [[t r']|] eqn:Hp; [|discriminate].
        injection H as _ <-. apply parseChars_length in Hp. lia.
      - destruct (stripPrefix "true" (skipWs s)) as [r'|] eqn:T1;
          [injection H as _ <-; apply stripPrefix_length in T1; simpl in T1; lia|].
        destruct (stripPrefix "false" (skipWs s)) as [r'|] eqn:T2;
          [injection H as _ <-; apply stripPrefix_length in T2; simpl in T2; lia|].
        destruct (stripPrefix "null" (skipWs s)) as [r'|] eqn:T3;
          [injection H as _ <-; apply stripPrefix_length in T3; simpl in T3; lia|].
        destruct (parseNumber (skipWs s)) as [[x r']|] eqn:T4; [|discriminate].
        injection H as _ <-. apply parseNumber_length in T4. lia. }
    split; [lia|]. intros [|m] Hle; [lia|]. cbn [parseValue]. rewrite H1, H2. exact H.
  - intros s l r H. cbn [parseElements] in H.
    destruct (parseValue n s) as [[v r0]|] eqn:Hv; [|discriminate].
    apply IHv in Hv as [Hlt Hm].
    destruct (token "," r0) as [r1|] eqn:H1.
    { apply token_length in H1 as L1.
      destruct (parseElements n r1) as [[l' r']|] eqn:He; [|discriminate].
      injection H as <- <-. apply IHe in He as [Hlt' Hm']. split; [lia|].
      intros [|m] Hle; [lia|]. cbn [parseElements]. rewrite Hm by lia. rewrite H1.
      rewrite Hm' by lia. reflexivity. }
    destruct (token "]" r0) as [r1|] eqn:H2; [|discriminate].
    apply token_length in H2 as L2. injection H as <- <-. split; [lia|].
    intros [|m] Hle; [lia|]. cbn [parseElements]. rewrite Hm by lia. rewrite H1, H2.
    reflexivity.
  - intros s l r H. cbn [parseMembers] in H.
    destruct (token dquote s) as [r0|] eqn:H0; [|discriminate].
    apply token_length in H0 as L0.
    destruct (parseChars r0) as [[k r1]|] eqn:Hk; [|discriminate].
    pose proof (parseChars_length _ _ _ Hk) as Lk.
    destruct (token ":" r1) as [r2|] eqn:Hc; [|discriminate].
    apply token_length in Hc as Lc.
    destruct (parseValue n r2) as [[v r3]|] eqn:Hv; [|discriminate].
    apply IHv in Hv as [Hlt Hm].
    destruct (token "," r3) as [r4|] eqn:H1.
    { apply token_length in H1 as L1.
      destruct (parseMembers n r4) as [[l' r']|] eqn:He; [|discriminate].
      injection H as <- <-. apply IHm in He as [Hlt' Hm']. split; [lia|].
      intros [|m] Hle; [lia|]. cbn [parseMembers]. rewrite H0, Hk, Hc.
      rewrite Hm by lia. rewrite H1. rewrite Hm' by lia. reflexivity. }
    destruct (token "}" r3) as [r4|] eqn:H2; [|discriminate].
    apply token_length in H2 as L2. injection H as <- <-. split; [lia|].
    intros [|m] Hle; [lia|]. cbn [parseMembers]. rewrite H0, Hk, Hc.
    rewrite Hm by lia. rewrite H1, H2. reflexivity.
Qed.

(** [JSON_parse] gives the parser enough fuel: what the parser returns for
    a text at any fuel at all, [JSON_parse] returns. *)
Lemma JSON_parse_enough (n : nat) (text : string) (v : JSValue) (rest : string) :
  parseValue n text = Some (v, rest) -> skipWs rest = EmptyString ->
  JSON_parse text = inl v.
Proof.
  intros H Hr. unfold JSON_parse.
  destruct (proj1 (parse_fuel n) text v rest H) as [_ Hm].
  rewrite Hm by lia. rewrite Hr. reflexivity.
Qed.

(** ** Reading back what [JSON.stringify] wrote *)

(** *** Scanners do not look past the character that stops them *)

Lemma stripPrefix_ext (p u r w : string) :
  stripPrefix p u = Some r -> stripPrefix p (u ++ w) = Some (r ++ w).
Proof.
  revert u. induction p as [|a p IH]; intros u H; simpl in H.
  - injection H as <-. reflexivity.
  - destruct u as [|b u]; [discriminate|]. simpl.
    destruct (Ascii.eqb a b); [apply IH; exact H | discriminate].
Qed.

Lemma stripChar_none_ext (a : ascii) (u w : string) :
  stripPrefix (String a EmptyString) u = None -> u <> EmptyString ->
  stripPrefix (String a EmptyString) (u ++ w) = None.
Proof.
  destruct u as [|b u]; [congruence|]. simpl.
  destruct (Ascii.eqb a b); [discriminate | reflexivity].
Qed.

Lemma takeDigits_ext (u d r w : string) :
  takeDigits u = (d, r) -> r <> EmptyString -> takeDigits (u ++ w) = (d, r ++ w).
Proof.
  revert d. induction u as [|c u IH]; intros d H Hr; simpl in H.
  - injection H as _ <-. congruence.
  - simpl. destruct (isDigit c).
    + destruct (takeDigits u) as [d' r'] eqn:Ht. injection H as <- <-.
      rewrite (IH d' eq_refl Hr). reflexivity.
    + injection H as <- <-. reflexivity.
Qed.

Lemma takeSign_ext (plus : bool) (u r w : string) (neg : bool) :
  takeSign plus u = (neg, r) -> r <> EmptyString ->
  takeSign plus (u ++ w) = (neg, r ++ w).
Proof.
  unfold takeSign. intros H Hr.
  destruct (stripPrefix "-" u) as [r1|] eqn:H1.
  - injection H as <- <-. rewrite (stripPrefix_ext _ _ _ w H1). reflexivity.
  - assert (Hu : u <> EmptyString).
    { intros ->. simpl in H. injection H as _ <-. congruence. }
    rewrite (stripChar_none_ext _ _ w H1 Hu).
    destruct (stripPrefix "+" u) as [r2|] eqn:H2.
    + rewrite (stripPrefix_ext _ _ _ w H2). destruct plus; injection H as <- <-; reflexivity.
    + rewrite (stripChar_none_ext _ _ w H2 Hu). injection H as <- <-. reflexivity.
Qed.

Lemma takeDigits_empty : takeDigits EmptyString = (EmptyString, EmptyString).
Proof. reflexivity. Qed.

Lemma takeExponent_ext (u r w : string) (ex : Z) :
  takeExponent u = Some (ex, r) -> r <> EmptyString ->
  takeExponent (u ++ w) = Some (ex, r ++ w).
Proof.
  unfold takeExponent. destruct u as [|c u]; [discriminate|]. simpl.
  destruct (Ascii.eqb c "e" || Ascii.eqb c "E")%bool; [|discriminate].
  destruct (takeSign true u) as [eneg r1] eqn:Hs.
  destruct (takeDigits r1) as [ed rest] eqn:Ht.
  destruct (truthy ed) eqn:He; [|discriminate]. intros [= <- <-] Hr.
  assert (H1 : r1 <> EmptyString).
  { intros ->. simpl in Ht. injection Ht as <- _. discriminate. }
  rewrite (takeSign_ext _ _ _ w _ Hs H1), (takeDigits_ext _ _ _ w Ht Hr), He. reflexivity.
Qed.

Lemma parseNumber_ext (u r w : string) (x : number) :
  parseNumber u = Some (x, r) -> r <> EmptyString ->
  parseNumber (u ++ w) = Some (x, r ++ w).
Proof.
  unfold parseNumber. intros H Hr.
  destruct (takeSign false u) as [neg s1] eqn:Hs.
  destruct (match stripPrefix "0" s1 with
            | Some r0 => ("0", r0)
            | None => takeDigits s1
            end) as [ip s2] eqn:Hi.
  destruct (truthy ip) eqn:Hip; [|discriminate]. cbn [negb] in H.
  destruct (match stripPrefix "." s2 with
            | Some r0 => let '(fp, s3) := takeDigits r0 in
                         if truthy fp then Some (fp, s3) else None
            | None => Some (EmptyString, s2)
            end) as [[fp s3]|] eqn:Hf; [|discriminate].
  (* the exponent part, or none, leaves [r] *)
  assert (H3 : s3 <> EmptyString).
  { intros ->. simpl in H. injection H as _ <-. congruence. }
  assert (H2 : s2 <> EmptyString).
  { intros ->. simpl in Hf. injection Hf as _ <-. congruence. }
  assert (H1 : s1 <> EmptyString).
  { intros ->. simpl in Hi. injection Hi as <- _. discriminate. }
  rewrite (takeSign_ext _ _ _ w _ Hs H1).
  assert (Hi' : match stripPrefix "0" (s1 ++ w) with
                | Some r0 => ("0", r0)
                | None => takeDigits (s1 ++ w)
                end = (ip, s2 ++ w)).
  { destruct (stripPrefix "0" s1) as [r0|] eqn:H0.
    - injection Hi as <- <-. rewrite (stripPrefix_ext _ _ _ w H0). reflexivity.
    - rewrite (stripChar_none_ext _ _ w H0 H1). apply takeDigits_ext; assumption. }
  rewrite Hi', Hip. cbn [negb].
  assert (Hf' : match stripPrefix "." (s2 ++ w) with
                | Some r0 => let '(fp, s3) := takeDigits r0 in
                             if truthy fp then Some (fp, s3) else None
                | None => Some (EmptyString, s2 ++ w)
                end = Some (fp, s3 ++ w)).
  { destruct (stripPrefix "." s2) as [r0|] eqn:Hd.
    - rewrite (stripPrefix_ext _ _ _ w Hd).
      destruct (takeDigits r0) as [d r'] eqn:Hd'. destruct (truthy d) eqn:Htd; [|discriminate].
      injection Hf as <- <-. rewrite (takeDigits_ext _ _ _ w Hd' H3), Htd. reflexivity.
    - rewrite (stripChar_none_ext _ _ w Hd H2). injection Hf as <- <-. reflexivity. }
  rewrite Hf'.
  destruct (stripPrefix "e" s3) as [e1|] eqn:E1.
  - rewrite (stripPrefix_ext _ _ _ w E1).
    destruct (takeExponent s3) as [[ex s4]|] eqn:Hx.
    + assert (Hx' : Some (roundDecimal neg (digitsValue 0 (ip ++ fp))
                            (ex - Z.of_nat (String.length fp)), s4) = Some (x, r))
        by (destruct (stripPrefix "E" s3); exact H).
      injection Hx' as <- <-. rewrite (takeExponent_ext _ _ w _ Hx Hr).
      destruct (stripPrefix "E" (s3 ++ w)); reflexivity.
    + destruct (stripPrefix "E" s3); discriminate.
  - rewrite (stripChar_none_ext _ _ w E1 H3).
    destruct (stripPrefix "E" s3) as [e2|] eqn:E2.
    + rewrite (stripPrefix_ext _ _ _ w E2).
      destruct (takeExponent s3) as [[ex s4]|] eqn:Hx; [|discriminate].
      injection H as <- <-. rewrite (takeExponent_ext _ _ w _ Hx Hr). reflexivity.
    + rewrite (stripChar_none_ext _ _ w E2 H3). injection H as <- <-. reflexivity.
Qed.

Lemma checkNumber_storable (x : number) : checkNumber x = true -> storableNumber x.
Proof.
  unfold checkNumber, storableNumber. intros H.
  apply andb_true_iff in H as [Hfin Hall]. split; [exact Hfin|].
  intros c rest Hc. rewrite forallb_forall in Hall.
  assert (Hin : In c [","; "}"; "]"]%char).
  { unfold isDelimiter in Hc. apply orb_true_iff in Hc as [Hc | Hc];
      [apply orb_true_iff in Hc as [Hc | Hc]|]; apply Ascii.eqb_eq in Hc; subst c;
      simpl; auto. }
  specialize (Hall c Hin).
  destruct (parseNumber (Number_toString x ++ String c EmptyString)) as [[y r]|] eqn:Hp;
    [|discriminate].
  apply andb_true_iff in Hall as [Hy Hr]. apply FloatAxioms.Leibniz.eqb_spec in Hy.
  apply String.eqb_eq in Hr. subst y r.
  pose proof (parseNumber_ext _ _ rest _ Hp ltac:(discriminate)) as He.
  rewrite append_assoc in He. exact He.
Qed.

Lemma checkStorable_storable (l : list Expense) :
  forallb checkStorable l = true -> Forall storable l.
Proof.
  intros H. apply Forall_forall. intros e He. rewrite forallb_forall in H.
  specialize (H e (proj1 (list_elem_of_In _ _) He)). unfold checkStorable in H.
  apply andb_true_iff in H as [Ha Ht]. split; apply checkNumber_storable; assumption.
Qed.

(** *** Strings *)

Lemma parseChars_quoteChar (c : ascii) (rest : string) :
  parseChars (quoteChar c ++ rest) = prepend (String c EmptyString) (parseChars rest).
Proof.
  destruct c as [b0 b1 b2 b3 b4 b5 b6 b7].
  destruct b0, b1, b2, b3, b4, b5, b6, b7; reflexivity.
Qed.

Lemma parseChars_quoteChars (s rest : string) :
  parseChars (quoteChars s ++ String dquote rest) = Some (s, rest).
Proof.
  induction s as [|c s IH]; [reflexivity|].
  cbn [quoteChars]. rewrite append_assoc, parseChars_quoteChar, IH. reflexivity.
Qed.

(** *** The first character of a value *)

Lemma starter_tokens (c : ascii) (r : string) :
  isStarter c = true ->
  skipWs (String c r) = String c r
  /\ token "]" (String c r) = None /\ token "}" (String c r) = None
  /\ token "," (String c r) = None /\ token ":" (String c r) = None.
Proof.
  destruct c as [b0 b1 b2 b3 b4 b5 b6 b7].
  destruct b0, b1, b2, b3, b4, b5, b6, b7; intros H; try discriminate H;
    repeat split; reflexivity.
Qed.

Lemma number_tokens (c : ascii) (r : string) :
  isDigit c || Ascii.eqb c "-" = true ->
  isStarter c = true
  /\ token "[" (String c r) = None /\ token "{" (String c r) = None
  /\ token dquote (String c r) = None
  /\ stripPrefix "true" (String c r) = None
  /\ stripPrefix "false" (String c r) = None
  /\ stripPrefix "null" (String c r) = None.
Proof.
  destruct c as [b0 b1 b2 b3 b4 b5 b6 b7].
  destruct b0, b1, b2, b3, b4, b5, b6, b7; intros H; try discriminate H;
    repeat split; reflexivity.
Qed.

Lemma takeDigits_head (s r : string) (c : ascii) (d' : string) :
  takeDigits s = (String c d', r) -> exists s', s = String c s' /\ isDigit c = true.
Proof.
  destruct s as [|a s]; simpl; [discriminate|].
  destruct (isDigit a) eqn:Ha; [|discriminate].
  destruct (takeDigits s). intros [= <- _ _]. eauto.
Qed.

Lemma stripChar_head (a : ascii) (s r : string) :
  stripPrefix (String a EmptyString) s = Some r -> s = String a r.
Proof.
  destruct s as [|b s]; simpl; [discriminate|].
  destruct (Ascii.eqb a b) eqn:Hab; [|discriminate].
  apply Ascii.eqb_eq in Hab. intros [= <-]. congruence.
Qed.

(** A text that parses as a number starts with a digit or a minus sign. *)
Lemma parseNumber_head (s r : string) (x : number) :
  parseNumber s = Some (x, r) ->
  exists c s', s = String c s' /\ isDigit c || Ascii.eqb c "-" = true.
Proof.
  unfold parseNumber. intros H.
  destruct (takeSign false s) as [neg s1] eqn:Hs. unfold takeSign in Hs.
  destruct (stripPrefix "-" s) as [r1|] eqn:H1.
  - apply stripChar_head in H1. exists "-"%char, r1. split; [exact H1 | reflexivity].
  - assert (Hs1 : s1 = s) by (destruct (stripPrefix "+" s); injection Hs as _ <-; reflexivity).
    subst s1. clear Hs.
    destruct (stripPrefix "0" s) as [r0|] eqn:H0.
    + apply stripChar_head in H0. exists "0"%char, r0. split; [exact H0 | reflexivity].
    + destruct (takeDigits s) as [ip s2] eqn:Ht.
      destruct ip as [|c d']; [discriminate|].
      apply takeDigits_head in Ht as [s' [-> Hc]].
      exists c, s'. split; [reflexivity | rewrite Hc; reflexivity].
Qed.

Lemma delimiter_tokens (c : ascii) (r : string) :
  isDelimiter c = true ->
  token c (String c r) = Some r
  /\ (Ascii.eqb c "," = false -> token "," (String c r) = None).
Proof.
  unfold isDelimiter. intros H.
  apply orb_true_iff in H as [H | H]; [apply orb_true_iff in H as [H | H]|];
    apply Ascii.eqb_eq in H; subst c; split; try reflexivity; discriminate.
Qed.

(** *** Values *)

Lemma JSValue_ind_nested (P : JSValue -> Prop) :
  P JNull -> (forall b, P (JBool b)) -> (forall x, P (JNum x)) -> (forall s, P (JStr s)) ->
  (forall l, Forall P l -> P (JArr l)) ->
  (forall props, Forall (fun kv => P (snd kv)) props -> P (JObj props)) ->
  forall v, P v.
Proof.
  intros Hn Hb Hx Hs Ha Ho. fix IH 1. intros [ | b | x | s | l | props].
  - exact Hn.
  - apply Hb.
  - apply Hx.
  - apply Hs.
  - apply Ha. induction l as [|v l IHl]; constructor; [apply IH | exact IHl].
  - apply Ho. induction props as [|kv l IHl]; constructor; [apply IH | exact IHl].
Qed.

Lemma printable_JArr (l : list JSValue) : printable (JArr l) <-> Forall printable l.
Proof.
  change (printable (JArr l)) with (fold_right (fun v' acc => printable v' /\ acc) True l).
  induction l as [|v l IH]; simpl.
  - split; [constructor | trivial].
  - rewrite Forall_cons, IH. reflexivity.
Qed.

Lemma printable_JObj (props : list (string * JSValue)) :
  printable (JObj props) <-> Forall (fun kv => printable (snd kv)) props.
Proof.
  change (printable (JObj props))
    with (fold_right (fun kv acc => printable (snd kv) /\ acc) True props).
  induction props as [|kv l IH]; simpl.
  - split; [constructor | trivial].
  - rewrite Forall_cons, IH. reflexivity.
Qed.

Lemma storableNumber_text (x : number) :
  storableNumber x ->
  stringifyValue (JNum x) = Number_toString x
  /\ exists c s', Number_toString x = String c s' /\ isDigit c || Ascii.eqb c "-" = true.
Proof.
  intros [Hfin Hp]. split; [simpl; rewrite Hfin; reflexivity|].
  specialize (Hp ","%char EmptyString eq_refl).
  apply parseNumber_head in Hp as [c [s' [Hs Hc]]].
  destruct (Number_toString x) as [|c0 t]; simpl in Hs.
  - injection Hs as <- _. discriminate Hc.
  - injection Hs as <- _. eauto.
Qed.

(** A printed value starts with a character no separator is made of. *)
Lemma stringify_starts (v : JSValue) :
  printable v -> exists c s', stringifyValue v = String c s' /\ isStarter c = true.
Proof.
  destruct v as [ | b | x | s | l | props]; intros Hp.
  - exists "n"%char, "ull". split; reflexivity.
  - destruct b; [exists "t"%char, "rue" | exists "f"%char, "alse"]; split; reflexivity.
  - destruct (storableNumber_text x Hp) as [-> [c [s' [-> Hc]]]].
    exists c, s'. split; [reflexivity|]. apply (number_tokens c EmptyString Hc).
  - eexists. eexists. split; reflexivity.
  - eexists. eexists. split; reflexivity.
  - eexists. eexists. split; reflexivity.
Qed.


Lemma elements_read_back (l : list JSValue) :
  forall v rest m,
    Forall (fun v' => printable v' /\ readsBack v') (v :: l) ->
    (2 * String.length (join "," (map stringifyValue (v :: l)) ++ String "]" rest) + 1 <= m)%nat ->
    parseElements m (join "," (map stringifyValue (v :: l)) ++ String "]" rest)
    = Some (v :: l, rest).
Proof.
  induction l as [|v' l IH]; intros v rest m Hall Hm.
  - apply Forall_cons in Hall as [[Hp Hr] _]. destruct m as [|m]; [lia|].
    cbn [map join] in *. cbn [parseElements].
    rewrite (Hr (String "]" rest) m); [reflexivity | | lia].
    destruct v; try exact I. exists "]"%char, rest. split; reflexivity.
  - apply Forall_cons in Hall as [[Hp Hr] Hall]. destruct m as [|m]; [lia|].
    change (join "," (map stringifyValue (v :: v' :: l)))
      with (stringifyValue v ++ "," ++ join "," (map stringifyValue (v' :: l))) in *.
    rewrite append_assoc in *.
    change (("," ++ join "," (map stringifyValue (v' :: l))) ++ String "]" rest)
      with (String "," (join "," (map stringifyValue (v' :: l)) ++ String "]" rest)) in *.
    cbn [parseElements]. rewrite length_append in Hm. cbn [String.length] in Hm.
    rewrite (Hr _ m); [| | rewrite length_append; cbn [String.length]; lia].
    + change (token "," (String "," (join "," (map stringifyValue (v' :: l)) ++ String "]" rest)))
        with (Some (join "," (map stringifyValue (v' :: l)) ++ String "]" rest)).
      cbv iota. rewrite (IH v' rest m Hall) by lia. reflexivity.
    + destruct v; try exact I. eexists. eexists. split; reflexivity.
Qed.

Lemma members_read_back (l : list (string * JSValue)) :
  forall kv rest m,
    Forall (fun kv' => printable (snd kv') /\ readsBack (snd kv')) (kv :: l) ->
    (2 * String.length (join "," (map memberText (kv :: l)) ++ String "}" rest) + 1 <= m)%nat ->
    parseMembers m (join "," (map memberText (kv :: l)) ++ String "}" rest)
    = Some (kv :: l, rest).
Proof.
  assert (Hkey : forall k v tail m',
             parseMembers (S m') (memberText (k, v) ++ tail)
             = match parseValue m' (stringifyValue v ++ tail) with
               | Some (v0, r3) =>
                   match token "," r3, token "}" r3 with
                   | Some r4, _ =>
                       match parseMembers m' r4 with
                       | Some (l0, r5) => Some ((k, v0) :: l0, r5)
                       | None => None
                       end
                   | None, Some r4 => Some ([(k, v0)], r4)
                   | None, None => None
                   end
               | None => None
               end).
  { intros k v tail m'. unfold memberText, QuoteJSONString. cbn [fst snd parseMembers].
    change (token dquote ((String dquote (quoteChars k ++ String dquote EmptyString)
                           ++ ":" ++ stringifyValue v) ++ tail))
      with (Some (((quoteChars k ++ String dquote EmptyString)
                   ++ ":" ++ stringifyValue v) ++ tail)).
    cbv iota. rewrite !append_assoc.
    change (String dquote EmptyString ++ ":" ++ stringifyValue v ++ tail)
      with (String dquote (String ":" (stringifyValue v ++ tail))).
    rewrite parseChars_quoteChars. reflexivity. }
  induction l as [|kv' l IH]; intros [k v] rest m Hall Hm.
  - apply Forall_cons in Hall as [[Hp Hr] _]. destruct m as [|m]; [lia|].
    cbn [map join] in *. rewrite Hkey. cbn [snd] in *.
    assert (Hlen : (String.length (stringifyValue v ++ String "}" rest)
                    < String.length (memberText (k, v) ++ String "}" rest))%nat).
    { unfold memberText, QuoteJSONString. rewrite !length_append. cbn [String.length fst snd].
      rewrite !length_append. cbn [String.length]. lia. }
    rewrite (Hr (String "}" rest) m); [reflexivity | | lia].
    destruct v; try exact I. exists "}"%char, rest. split; reflexivity.
  - apply Forall_cons in Hall as [[Hp Hr] Hall]. destruct m as [|m]; [lia|].
    change (join "," (map memberText ((k, v) :: kv' :: l)))
      with (memberText (k, v) ++ "," ++ join "," (map memberText (kv' :: l))) in *.
    rewrite append_assoc in *.
    change (("," ++ join "," (map memberText (kv' :: l))) ++ String "}" rest)
      with (String "," (join "," (map memberText (kv' :: l)) ++ String "}" rest)) in *.
    rewrite Hkey. cbn [snd] in *.
    assert (Hlen : (String.length (stringifyValue v
                                   ++ String "," (join "," (map memberText (kv' :: l)) ++ String "}" rest))
                    < String.length (memberText (k, v)
                                     ++ String "," (join "," (map memberText (kv' :: l)) ++ String "}" rest)))%nat).
    { unfold memberText, QuoteJSONString. rewrite !length_append. cbn [String.length fst snd].
      rewrite !length_append. cbn [String.length]. lia. }
    rewrite (Hr _ m); [| | lia].
    + change (token "," (String "," (join "," (map memberText (kv' :: l)) ++ String "}" rest)))
        with (Some (join "," (map memberText (kv' :: l)) ++ String "}" rest)).
      cbv iota. rewrite (IH kv' rest m Hall); [reflexivity|].
      rewrite length_append in Hlen. cbn [String.length] in Hlen. lia.
    + destruct v; try exact I. eexists. eexists. split; reflexivity.
Qed.


(** Every value whose numbers are storable is read back from its text. *)
Lemma printable_readsBack (v : JSValue) : printable v -> readsBack v.
Proof.
  induction v as [ | b | x | s | l IHl | props IHp] using JSValue_ind_nested;
    intros Hp rest m Hf Hm.
  - destruct m as [|m]; [simpl in Hm; lia | reflexivity].
  - destruct b; (destruct m as [|m]; [simpl in Hm; lia | reflexivity]).
  - destruct (storableNumber_text x Hp) as [Htext [c [s' [Hs Hc]]]].
    destruct Hf as [d [r [-> Hd]]]. rewrite Htext in *.
    destruct Hp as [_ Hparse]. specialize (Hparse d r Hd).
    rewrite Hs in *. cbn [String.append] in *.
    destruct (number_tokens c (s' ++ String d r) Hc) as [Hst [T1 [T2 [T3 [L1 [L2 L3]]]]]].
    destruct (starter_tokens c (s' ++ String d r) Hst) as [Hws _].
    destruct m as [|m]; [simpl in Hm; lia|]. cbn [parseValue].
    rewrite T1, T2, T3, Hws, L1, L2, L3, Hparse. reflexivity.
  - destruct m as [|m]; [simpl in Hm; lia|].
    unfold stringifyValue, QuoteJSONString. cbn [String.append parseValue].
    change (token "[" (String dquote ((quoteChars s ++ String dquote EmptyString) ++ rest)))
      with (@None string).
    change (token "{" (String dquote ((quoteChars s ++ String dquote EmptyString) ++ rest)))
      with (@None string).
    change (token dquote (String dquote ((quoteChars s ++ String dquote EmptyString) ++ rest)))
      with (Some ((quoteChars s ++ String dquote EmptyString) ++ rest)).
    cbv iota. rewrite append_assoc. cbn [String.append].
    rewrite parseChars_quoteChars. reflexivity.
  - apply printable_JArr in Hp.
    destruct l as [|v l].
    + destruct m as [|m]; [simpl in Hm; lia | reflexivity].
    + assert (Hall : Forall (fun v' => printable v' /\ readsBack v') (v :: l)).
      { apply Forall_forall. intros v' Hin. rewrite Forall_forall in IHl, Hp.
        split; [apply Hp | apply IHl; [|apply Hp]]; exact Hin. }
      pose proof (Forall_inv Hp) as Hv. apply stringify_starts in Hv as [c [s' [Hs Hc]]].
      change (stringifyValue (JArr (v :: l)))
        with ("[" ++ join "," (map stringifyValue (v :: l)) ++ "]") in *.
      cbn [String.append] in *. rewrite append_assoc in *.
      change ("]" ++ rest) with (String "]" rest) in *.
      destruct m as [|m]; [simpl in Hm; lia|]. cbn [parseValue]. cbn [String.length] in Hm.
      change (token "[" (String "[" (join "," (map stringifyValue (v :: l)) ++ String "]" rest)))
        with (Some (join "," (map stringifyValue (v :: l)) ++ String "]" rest)).
      cbv iota.
      assert (Hclose : token "]" (join "," (map stringifyValue (v :: l)) ++ String "]" rest) = None).
      { destruct l as [|v' l]; cbn [map join]; rewrite Hs; cbn [String.append];
          apply (starter_tokens c _ Hc). }
      rewrite Hclose, (elements_read_back l v rest m Hall) by lia. reflexivity.
  - apply printable_JObj in Hp.
    destruct props as [|kv l].
    + destruct m as [|m]; [simpl in Hm; lia | reflexivity].
    + assert (Hall : Forall (fun kv' => printable (snd kv') /\ readsBack (snd kv')) (kv :: l)).
      { apply Forall_forall. intros kv' Hin. rewrite Forall_forall in IHp, Hp.
        split; [apply Hp | apply IHp; [|apply Hp]]; exact Hin. }
      change (stringifyValue (JObj (kv :: l)))
        with ("{" ++ join "," (map memberText (kv :: l)) ++ "}") in *.
      cbn [String.append] in *. rewrite append_assoc in *.
      change ("}" ++ rest) with (String "}" rest) in *.
      destruct m as [|m]; [simpl in Hm; lia|]. cbn [parseValue]. cbn [String.length] in Hm.
      change (token "[" (String "{" (join "," (map memberText (kv :: l)) ++ String "}" rest)))
        with (@None string).
      change (token "{" (String "{" (join "," (map memberText (kv :: l)) ++ String "}" rest)))
        with (Some (join "," (map memberText (kv :: l)) ++ String "}" rest)).
      cbv iota.
      assert (Hclose : token "}" (join "," (map memberText (kv :: l)) ++ String "}" rest) = None).
      { destruct l as [|kv' l]; cbn [map join]; unfold memberText at 1, QuoteJSONString;
          cbn [String.append]; reflexivity. }
      rewrite Hclose, (members_read_back l kv rest m Hall) by lia. reflexivity.
Qed.

(** *** Records *)

Lemma asExpense_object (e : Expense) : asExpense (Expense_object e) = Some e.
Proof.
  destruct e as [[a p m l st pr] i t]. unfold Expense_object. cbn [amount person mode label
    status proof id timestamp entry].
  destruct m, st, l as [l|], pr as [pr|]; reflexivity.
Qed.

Lemma asExpenses_objects (l : list Expense) :
  asExpenses (JArr (map Expense_object l)) = Some l.
Proof.
  unfold asExpenses. induction l as [|e l IH]; [reflexivity|].
  cbn [map mapM]. rewrite asExpense_object, IH. reflexivity.
Qed.

Lemma storable_printable (e : Expense) : storable e -> printable (Expense_object e).
Proof.
  intros [Ha Ht]. destruct e as [[a p m l st pr] i t]. cbn in Ha, Ht.
  apply printable_JObj. unfold Expense_object.
  cbn [amount person mode label status proof id timestamp entry].
  destruct l as [l|], pr as [pr|]; cbn [optProp app];
    repeat (constructor; [first [exact Ha | exact Ht | exact I]|]); constructor.
Qed.

(** Records whose numbers are storable survive [JSON.stringify] followed by
    [JSON.parse]. *)
Lemma storable_roundTrips (l : list Expense) : Forall storable l -> roundTrips l.
Proof.
  intros Hall. unfold roundTrips, parseExpenses, JSON_parse, JSON_stringify.
  assert (Hp : printable (JArr (map Expense_object l))).
  { apply printable_JArr. apply Forall_forall. intros v Hin.
    apply list_elem_of_fmap in Hin as [e [-> He]]. apply storable_printable.
    rewrite Forall_forall in Hall. apply Hall. exact He. }
  pose proof (printable_readsBack _ Hp EmptyString
                (2 * String.length (stringifyValue (JArr (map Expense_object l))) + 2)%nat I)
    as Hr.
  rewrite append_nil_r in Hr. rewrite Hr by lia. cbn [skipWs].
  rewrite asExpenses_objects. reflexivity.
Qed.

(** ** The balance engine *)

Lemma balance_step (acc : number) (e : Expense) :
  match status e with
  | TheyPaid => acc - amount e
  | Split => acc + amount e / 2
  | IPaid => acc + amount e
  end%float = (acc + contribution e)%float.
Proof. unfold contribution. destruct (status e); auto using sub_add_opp. Qed.

Lemma balance_from (l : list Expense) (acc : number) :
  fold_left
    (fun (a : number) (curr : Expense) =>
       match status curr with
       | TheyPaid => a - amount curr
       | Split => a + amount curr / 2
       | IPaid => a + amount curr
       end%float) l acc
  = fold_left (fun (a : number) (e : Expense) => (a + contribution e)%float) l acc.
Proof.
  revert acc. induction l as [|e l IH]; intros acc; simpl; [reflexivity|].
  rewrite balance_step. apply IH.
Qed.

(** C1.  The balance of a person is the running total, left to right from
    0, of the contributions of the records: [-amount] for a They Paid
    record, [+amount/2] for a Split record and [+amount] for an I Paid
    record; over no record at all it is 0. *)
Theorem balance_sums_contributions :
  PersonDetail.balance [] = 0%float
  /\ (forall l, PersonDetail.balance l = sumContributions l)
  /\ (forall l e, PersonDetail.balance (l ++ [e])%list = (PersonDetail.balance l + contribution e)%float)
  /\ (forall e : Expense, status e = TheyPaid -> contribution e = (- amount e)%float)
  /\ (forall e : Expense, status e = Split -> contribution e = (amount e / 2)%float)
  /\ (forall e : Expense, status e = IPaid -> contribution e = amount e).
Proof.
  assert (Hsum : forall l, PersonDetail.balance l = sumContributions l)
    by (intros l; apply balance_from).
  split; [reflexivity|]. split; [exact Hsum|]. split.
  - intros l e. rewrite !Hsum. unfold sumContributions. rewrite fold_left_app. reflexivity.
  - unfold contribution. repeat split; intros e ->; reflexivity.
Qed.

(** The three sample records: Split 100 adds 50, They Paid 200 takes 200,
    I Paid 120 adds 120; the two records of Rohit come to 170. *)
Lemma balance_sums_contributions_witness :
  map contribution (App.expenses Sample.s3) = [50; -200; 120]%float
  /\ PersonDetail.balance (App.expenses Sample.s3) = (-30)%float
  /\ PersonDetail.balance (App.personExpenses "Rohit" (App.expenses Sample.s3)) = 170%float
  /\ PersonDetail.balance [] = 0%float.
Proof.
  destruct balance_sums_contributions as [H0 [Hsum _]].
  split; [vm_compute; reflexivity|].
  split; [rewrite Hsum; vm_compute; reflexivity|].
  split; [rewrite Hsum; vm_compute; reflexivity | exact H0].
Defined.

(** ** The reminder engine *)

Section Find.

Context {A : Type} (p : A -> bool).

Lemma find_first (l : list A) (x : A) :
  List.find p l = Some x <->
  exists pre post, l = (pre ++ x :: post)%list /\ p x = true /\ forall y, In y pre -> p y = false.
Proof.
  induction l as [|a l IH]; simpl.
  - split; [discriminate | intros [pre [post [H _]]]; destruct pre; discriminate].
  - destruct (p a) eqn:Ha.
    + split.
      * intros [= ->]. exists [], l. simpl. intuition.
      * intros [pre [post [H [Hx Hpre]]]]. destruct pre as [|b pre]; simpl in H.
        -- congruence.
        -- injection H as <- _. rewrite (Hpre a) in Ha; [discriminate | left; reflexivity].
    + rewrite IH. split.
      * intros [pre [post [-> [Hx Hpre]]]]. exists (a :: pre), post. simpl.
        split; [reflexivity|]. split; [exact Hx|]. intros y [<- | Hy]; auto.
      * intros [pre [post [H [Hx Hpre]]]]. destruct pre as [|b pre]; simpl in H.
        -- congruence.
        -- injection H as <- ->. exists pre, post. split; [reflexivity|].
           split; [exact Hx|]. intros y Hy. apply Hpre. right. exact Hy.
Qed.

Lemma find_none (l : list A) :
  List.find p l = None <-> forall y, In y l -> p y = false.
Proof.
  induction l as [|a l IH]; simpl.
  - split; [intros _ y [] | reflexivity].
  - destruct (p a) eqn:Ha.
    + split; [discriminate | intros H; rewrite (H a) in Ha; [discriminate | left; reflexivity]].
    + rewrite IH. split; [intros H y [<- | Hy]; auto | intros H y Hy; apply H; right; exact Hy].
Qed.

End Find.

(** C7.  For every list of records and every reading [now] of the clock,
    [nudgeItem] is the first record of the list, in its order, whose age in
    days [(now - timestamp) / 86400000] lies strictly between 3 and 7, and
    there is none exactly when no record qualifies; a record aged exactly 3
    or 7 days, or 2 or 8 days, does not qualify. *)
Theorem nudgeItem_first_qualifying (now : number) (l : list Expense) :
  (forall e, Home.ageInDays now e = ((now - timestamp e) / 86400000)%float)
  /\ (forall e, qualifies now e = true <->
                (3 <? Home.ageInDays now e)%float = true
                /\ (Home.ageInDays now e <? 7)%float = true)
  /\ (forall e, Home.nudgeItem now l = Some e <->
                exists pre post, l = (pre ++ e :: post)%list /\ qualifies now e = true
                                 /\ forall y, In y pre -> qualifies now y = false)
  /\ (Home.nudgeItem now l = None <-> forall y, In y l -> qualifies now y = false)
  /\ (forall e, Home.ageInDays now e = 3%float \/ Home.ageInDays now e = 7%float
                \/ Home.ageInDays now e = 2%float \/ Home.ageInDays now e = 8%float ->
                qualifies now e = false).
Proof.
  split; [reflexivity|]. split; [intros e; unfold qualifies; apply andb_true_iff|].
  split; [intros e; apply (find_first (qualifies now))|].
  split; [apply (find_none (qualifies now))|].
  intros e H. unfold qualifies. destruct H as [-> | [-> | [-> | ->]]]; reflexivity.
Qed.

(** The scenario of the specification: of a record four days old, one two
    days old and one eight days old, the first is the nudge; records exactly
    three and seven days old are passed over. *)
Lemma nudgeItem_first_qualifying_witness :
  Home.nudgeItem Sample.now
    [Sample.rohit (Sample.now - 2 * Sample.day); Sample.rohit (Sample.now - 3 * Sample.day);
     Sample.rohit (Sample.now - 4 * Sample.day); Sample.rohit (Sample.now - 5 * Sample.day);
     Sample.rohit (Sample.now - 7 * Sample.day); Sample.rohit (Sample.now - 8 * Sample.day)]%float
  = Some (Sample.rohit (Sample.now - 4 * Sample.day)%float)
  /\ Home.nudgeItem Sample.now
       [Sample.rohit (Sample.now - 2 * Sample.day); Sample.rohit (Sample.now - 3 * Sample.day);
        Sample.rohit (Sample.now - 7 * Sample.day); Sample.rohit (Sample.now - 8 * Sample.day)]%float
     = None.
Proof.
  split.
  - apply (proj1 (proj2 (proj2 (nudgeItem_first_qualifying Sample.now _)))).
    exists [Sample.rohit (Sample.now - 2 * Sample.day); Sample.rohit (Sample.now - 3 * Sample.day)]%float,
      [Sample.rohit (Sample.now - 5 * Sample.day); Sample.rohit (Sample.now - 7 * Sample.day);
       Sample.rohit (Sample.now - 8 * Sample.day)]%float.
    split; [reflexivity|]. split; [vm_compute; reflexivity|].
    intros y [<- | [<- | []]]; vm_compute; reflexivity.
  - apply (proj1 (proj2 (proj2 (proj2 (nudgeItem_first_qualifying Sample.now _))))).
    intros y [<- | [<- | [<- | [<- | []]]]]; vm_compute; reflexivity.
Defined.

(** C8.  For every balance the label has exactly one of three forms, fixed
    by the sign: "Owes you" for a positive balance, "You owe" for a negative
    one, "Settled Up" for zero; the three forms exclude one another, and the
    magnitude shown is the balance rounded to a whole number (no decimal
    place): the nearest one, upwards on a tie, in decimal digits; a
    magnitude of [10^21] or more is a whole number as it is and is shown in
    the decimal form of the number. *)
Theorem balanceText_by_sign (b : number) :
  (((0 <? b)%float = true /\ (b <? 0)%float = false
    /\ PersonDetail.balanceText b = "Owes you ₹" ++ toFixed0 b)
   \/ ((0 <? b)%float = false /\ (b <? 0)%float = true
       /\ PersonDetail.balanceText b = "You owe ₹" ++ toFixed0 (abs b))
   \/ ((0 <? b)%float = false /\ (b <? 0)%float = false
       /\ PersonDetail.balanceText b = "Settled Up"))
  /\ ((b =? 0)%float = true -> PersonDetail.balanceText b = "Settled Up")
  /\ (forall d d', "Owes you ₹" ++ d <> "You owe ₹" ++ d'
                   /\ "Owes you ₹" ++ d <> "Settled Up"
                   /\ "You owe ₹" ++ d <> "Settled Up")
  /\ ((0 <? b)%float = true -> abs b = b)
  /\ (forall m e, Prim2SF (abs b) = S754_finite false m e ->
        (below1e21 m e ->
         toFixed0 (abs b) = digitsOf (roundHalfUp m e)
         /\ nearestInteger m e (roundHalfUp m e))
        /\ (~ below1e21 m e ->
            0 <= e /\ toFixed0 (abs b) = Number_toString (abs b))).
Proof.
  split; [|split; [|split; [|split]]].
  - unfold PersonDetail.balanceText.
    destruct (0 <? b)%float eqn:Hp; [|destruct (b <? 0)%float eqn:Hn].
    + left. split; [reflexivity|]. split; [|reflexivity].
      destruct (b <? 0)%float eqn:Hn; [|reflexivity].
      apply negative_not_positive in Hn. congruence.
    + right. left. auto.
    + right. right. auto.
  - intros Hz. apply zero_not_signed in Hz as [Hp Hn].
    unfold PersonDetail.balanceText. rewrite Hp, Hn. reflexivity.
  - intros d d'. repeat split; discriminate.
  - apply abs_positive.
  - intros m e Hb. split.
    + intros Hlt. split; [|apply roundHalfUp_nearest].
      rewrite (toFixed0_rounds _ _ _ _ Hb Hlt). reflexivity.
    + intros Hge. destruct (toFixed0_large _ _ _ _ Hb Hge) as [He Ht].
      split; [exact He|]. rewrite Ht, abs_abs. reflexivity.
Qed.

(** A balance of 117.5 reads "Owes you ₹118", one of -200 "You owe ₹200". *)
Lemma balanceText_by_sign_witness :
  PersonDetail.balanceText 117.5 = "Owes you ₹118"
  /\ PersonDetail.balanceText (-200) = "You owe ₹200"
  /\ PersonDetail.balanceText 0 = "Settled Up".
Proof.
  split; [|split].
  - destruct (proj1 (balanceText_by_sign 117.5)) as [[_ [_ H]] | [[H _] | [H _]]];
      [rewrite H; vm_compute; reflexivity | vm_compute in H; discriminate ..].
  - destruct (proj1 (balanceText_by_sign (-200))) as [[H _] | [[_ [_ H]] | [_ [H _]]]];
      [vm_compute in H; discriminate | rewrite H; vm_compute; reflexivity
      | vm_compute in H; discriminate].
  - apply (proj1 (proj2 (balanceText_by_sign 0))). reflexivity.
Defined.

(** ** The search filter *)

Lemma matchesQuery_spec (q : string) (e : Expense) :
  q <> EmptyString ->
  App.matchesQuery (toLowerCase q) e = true <-> matchesSpec q e.
Proof.
  intros Hq. unfold App.matchesQuery, matchesSpec.
  rewrite !orb_true_iff, <- !includes_spec.
  assert (Hl : match label e with
               | Some l => includes (toLowerCase l) (toLowerCase q)
               | None => false
               end = includes (toLowerCase (default EmptyString (label e))) (toLowerCase q)).
  { destruct (label e); [reflexivity|]. simpl. symmetry. apply includes_empty_l.
    apply truthy_true. rewrite toLowerCase_truthy. apply truthy_true. exact Hq. }
  rewrite Hl. tauto.
Qed.

(** C6.  With an empty query the filter returns its input unchanged; with
    a non-empty query it keeps, in order, exactly the records in which the
    lowercased query occurs in the lowercased person, the lowercased label
    (empty when absent), the decimal form of the amount or the lowercased
    mode name; two queries that differ only in case select the same
    records. *)
Theorem filteredExpenses_spec (l : list Expense) (q : string) :
  App.filteredExpenses l EmptyString = l
  /\ (q <> EmptyString ->
      App.filteredExpenses l q = List.filter (App.matchesQuery (toLowerCase q)) l
      /\ (forall e, App.matchesQuery (toLowerCase q) e = true <-> matchesSpec q e)
      /\ (forall e, In e (App.filteredExpenses l q) <-> In e l /\ matchesSpec q e))
  /\ (forall q', q <> EmptyString -> q' <> EmptyString ->
                 toLowerCase q = toLowerCase q' ->
                 App.filteredExpenses l q = App.filteredExpenses l q').
Proof.
  assert (Hf : forall q0, q0 <> EmptyString ->
             App.filteredExpenses l q0 = List.filter (App.matchesQuery (toLowerCase q0)) l).
  { intros q0 H0. unfold App.filteredExpenses.
    apply truthy_true in H0. rewrite H0. reflexivity. }
  split; [reflexivity|]. split.
  - intros Hq. split; [exact (Hf q Hq)|]. split.
    + intros e. apply matchesQuery_spec. exact Hq.
    + intros e. rewrite (Hf q Hq), filter_In, matchesQuery_spec by exact Hq. reflexivity.
  - intros q' Hq Hq' Heq. rewrite (Hf q Hq), (Hf q' Hq'), Heq. reflexivity.
Qed.

(** A record of "Rohit" is found by "rohit" and by "ROHIT", and not by
    "asha"; one of "Émile" by "émile" and by "ÉMILE"; one of "ΟΔΟΣ", whose
    lower case ends in the final sigma, by "ΟΔΟΣ" and not by "οδοσ".  The
    amounts 120 and 99.5 are found by "120" and by "9.5", the first also
    by "12" and not by "120.0". *)
Lemma filteredExpenses_spec_witness :
  App.filteredExpenses [Sample.rohit Sample.now] "rohit" = [Sample.rohit Sample.now]
  /\ App.filteredExpenses [Sample.rohit Sample.now] "ROHIT" = [Sample.rohit Sample.now]
  /\ App.filteredExpenses [Sample.rohit Sample.now] "asha" = []
  /\ App.filteredExpenses [Sample.rohit 1; Sample.emile] "émile" = [Sample.emile]
  /\ App.filteredExpenses [Sample.rohit 1; Sample.emile] "ÉMILE" = [Sample.emile]
  /\ App.filteredExpenses [Sample.odos] "ΟΔΟΣ" = [Sample.odos]
  /\ App.filteredExpenses [Sample.odos] "οδοσ" = []
  /\ App.filteredExpenses [Sample.rohit 1; Sample.emile] "120" = [Sample.rohit 1]
  /\ App.filteredExpenses [Sample.rohit 1; Sample.emile] "12" = [Sample.rohit 1]
  /\ App.filteredExpenses [Sample.rohit 1; Sample.emile] "9.5" = [Sample.emile]
  /\ App.filteredExpenses [Sample.rohit 1; Sample.emile] "120.0" = [].
Proof.
  assert (Hr : "rohit" <> EmptyString) by discriminate.
  assert (HR : "ROHIT" <> EmptyString) by discriminate.
  assert (He : "émile" <> EmptyString) by discriminate.
  assert (HE : "ÉMILE" <> EmptyString) by discriminate.
  assert (HL : toLowerCase "émile" = toLowerCase "ÉMILE") by (vm_compute; reflexivity).
  assert (Hq : forall l q, q <> EmptyString ->
                 App.filteredExpenses l q = List.filter (App.matchesQuery (toLowerCase q)) l)
    by (intros l q H; exact (proj1 (proj1 (proj2 (filteredExpenses_spec l q)) H))).
  split; [rewrite Hq by discriminate; vm_compute; reflexivity|].
  split.
  { rewrite <- (proj2 (proj2 (filteredExpenses_spec _ "rohit")) "ROHIT" Hr HR
                  ltac:(vm_compute; reflexivity)).
    rewrite Hq by discriminate. vm_compute. reflexivity. }
  split; [rewrite Hq by discriminate; vm_compute; reflexivity|].
  split; [rewrite Hq by discriminate; vm_compute; reflexivity|].
  split.
  { rewrite <- (proj2 (proj2 (filteredExpenses_spec _ "émile")) "ÉMILE" He HE HL).
    rewrite Hq by discriminate. vm_compute. reflexivity. }
  repeat (split; [rewrite Hq by discriminate; vm_compute; reflexivity|]).
  rewrite Hq by discriminate. vm_compute. reflexivity.
Defined.

(** ** The entry form *)

Lemma handleSave_Some (f : AddExpense.Form) :
  AddExpense.amount f <> EmptyString -> AddExpense.person f <> EmptyString ->
  AddExpense.handleSave f =
  Some {| amount := parseFloat (AddExpense.amount f);
          person := trim (AddExpense.person f);
          mode := AddExpense.mode f;
          label := Some (trim (AddExpense.label f));
          status := AddExpense.status f;
          proof := AddExpense.proof f |}.
Proof.
  intros Ha Hp. apply truthy_true in Ha, Hp. unfold AddExpense.handleSave.
  rewrite Ha, Hp. reflexivity.
Qed.


(** C10.  For every save that passes the guard of the form, the record
    that [handleSave] hands to [onSave], and that [addExpense] puts first
    in the active set, has as person and label the entered texts without
    their leading and trailing white space: the characters of each text
    are white space, then those of the stored text, then white space, and
    the stored text neither starts nor ends with white space.  The guard
    looks at the raw texts only, so a person made of white space alone
    passes it, and the stored person is then the empty string (and only
    then). *)
Theorem handleSave_stores_trimmed (f : AddExpense.Form) (newId : string) (s : App.State) :
  AddExpense.amount f <> EmptyString -> AddExpense.person f <> EmptyString ->
  exists (entry : Entry) (stored : Expense),
    AddExpense.handleSave f = Some entry
    /\ stored = {| Types.entry := entry; id := newId; timestamp := App.Date_now s |}
    /\ App.expenses (App.addExpense entry newId s) = stored :: App.expenses s
    /\ person stored = trim (AddExpense.person f)
    /\ label stored = Some (trim (AddExpense.label f))
    /\ (forall raw, raw = AddExpense.person f \/ raw = AddExpense.label f ->
          text (chars raw) = raw
          /\ exists l m r,
               chars raw = (l ++ m ++ r)%list
               /\ trim raw = text m
               /\ forallb (fun c : Z * string => isWhiteSpace (fst c)) l = true
               /\ forallb (fun c : Z * string => isWhiteSpace (fst c)) r = true
               /\ (forall c m', m = c :: m' -> isWhiteSpace (fst c) = false)
               /\ (forall c m', m = (m' ++ [c])%list -> isWhiteSpace (fst c) = false))
    /\ (allWhiteSpace (AddExpense.person f) = true <-> person stored = EmptyString).
Proof.
  intros Ha Hp. rewrite (handleSave_Some f Ha Hp).
  eexists. eexists. split; [reflexivity|]. split; [reflexivity|].
  split; [reflexivity|]. split; [reflexivity|]. split; [reflexivity|]. split.
  - intros raw _. split; [apply text_chars | apply trim_spec].
  - cbn [person entry]. symmetry. apply trim_empty.
Qed.

(** The label " Chai " is stored as "Chai"; a person of one space, and one
    of a no-break space and an ideographic space, are stored as the empty
    string. *)
Lemma handleSave_stores_trimmed_witness :
  (exists entry, AddExpense.handleSave Sample.chai = Some entry
                 /\ person entry = "Rohit" /\ label entry = Some "Chai")
  /\ (exists entry, AddExpense.handleSave Sample.blank = Some entry
                    /\ person entry = EmptyString)
  /\ (exists entry, AddExpense.handleSave Sample.nbsp = Some entry
                    /\ person entry = EmptyString).
Proof.
  split; [|split].
  - destruct (handleSave_stores_trimmed Sample.chai "k3x9q2m1a" Sample.s0)
      as [entry [stored [H1 [-> [_ [H3 [H4 _]]]]]]]; [discriminate | discriminate |].
    exists entry. split; [exact H1|]. split; [exact H3 | exact H4].
  - destruct (handleSave_stores_trimmed Sample.blank "q" Sample.s0)
      as [entry [stored [H1 [-> [_ [_ [_ [_ H6]]]]]]]]; [discriminate | discriminate |].
    exists entry. split; [exact H1|]. apply H6. vm_compute. reflexivity.
  - destruct (handleSave_stores_trimmed Sample.nbsp "q" Sample.s0)
      as [entry [stored [H1 [-> [_ [_ [_ [_ H6]]]]]]]]; [discriminate | discriminate |].
    exists entry. split; [exact H1|]. apply H6. vm_compute. reflexivity.
Defined.




(** ** Storage, archive and undo *)

Lemma keys_differ : App.STORAGE_KEY <> App.ARCHIVE_KEY.
Proof. discriminate. Qed.

Lemma JSON_stringify_truthy (l : list Expense) : truthy (JSON_stringify l) = true.
Proof. reflexivity. Qed.

(** The archive read depends on the stored text only. *)
Lemma currentArchive_text (s : App.State) (text : string) :
  App.localStorage s !! App.ARCHIVE_KEY = Some text -> truthy text = true ->
  App.currentArchive s = parseExpenses text.
Proof.
  intros H Ht. unfold App.currentArchive, App.getItem. rewrite H, Ht. reflexivity.
Qed.

Lemma currentArchive_same (s s' : App.State) :
  App.localStorage s !! App.ARCHIVE_KEY = App.localStorage s' !! App.ARCHIVE_KEY ->
  App.currentArchive s = App.currentArchive s'.
Proof. intros H. unfold App.currentArchive, App.getItem. rewrite H. reflexivity. Qed.

Lemma slice_prefix {A} (l l' : list A) :
  slice (l ++ l') 0 (Z.of_nat (length (l ++ l')) - Z.of_nat (length l')) = l.
Proof.
  unfold slice. rewrite length_app.
  replace (Z.of_nat (length l + length l') - Z.of_nat (length l'))
    with (Z.of_nat (length l)) by lia.
  change (0 <? 0) with false. cbv beta iota zeta.
  destruct (Z.of_nat (length l) <? 0) eqn:Hn; [apply Z.ltb_lt in Hn; lia|].
  rewrite !Z.min_l by lia. rewrite Z.sub_0_r, Z.max_l by lia.
  rewrite Nat2Z.id. simpl. apply take_app_length.
Qed.

(** After [archiveData], on a non-empty active set and a readable archive. *)
Lemma archiveData_Done (s : App.State) (archive : list Expense) :
  App.expenses s <> [] -> App.currentArchive s = Records archive ->
  exists s1,
    App.archiveData s = App.Done s1
    /\ App.expenses s1 = []
    /\ App.lastArchivedData s1 = App.expenses s
    /\ App.showUndo s1 = true
    /\ App.localStorage s1
       = <[App.ARCHIVE_KEY := JSON_stringify (archive ++ App.expenses s)]> (App.localStorage s)
    /\ App.clock s1 = App.clock s
    /\ (exists h, App.undoTimeoutRef s1 = Some h
                  /\ In (h, App.clock s + 10000) (App.timers s1)).
Proof.
  intros Hne Harch. unfold App.archiveData.
  destruct (App.expenses s) as [|e l] eqn:He; [congruence|]. simpl (length _ =? 0)%nat.
  cbv iota.
  rewrite (currentArchive_same _ s) by reflexivity. rewrite Harch.
  eexists. split; [reflexivity|].
  unfold App.clearUndoTimeout. cbn -[JSON_stringify].
  destruct (App.undoTimeoutRef s); cbn -[JSON_stringify];
    repeat split; eauto.
Qed.

Lemma undoArchive_Done (s : App.State) (archive : list Expense) :
  App.lastArchivedData s <> [] ->
  App.currentArchive s = Records (archive ++ App.lastArchivedData s) ->
  exists s1,
    App.undoArchive s = App.Done s1
    /\ App.expenses s1 = App.lastArchivedData s
    /\ App.lastArchivedData s1 = []
    /\ App.showUndo s1 = false
    /\ App.localStorage s1
       = <[App.ARCHIVE_KEY := JSON_stringify archive]> (App.localStorage s)
    /\ (forall h, App.undoTimeoutRef s = Some h ->
                  forall t, ~ In (h, t) (App.timers s1)).
Proof.
  intros Hne Harch. unfold App.undoArchive.
  destruct (App.lastArchivedData s) as [|e l] eqn:He; [congruence|].
  simpl (0 <? length _)%nat. cbv iota zeta.
  rewrite (currentArchive_same _ s) by reflexivity. rewrite Harch.
  cbn [App.setExpenses App.lastArchivedData]. rewrite He, slice_prefix.
  eexists. split; [reflexivity|].
  unfold App.clearUndoTimeout. cbn -[JSON_stringify].
  destruct (App.undoTimeoutRef s) as [h|]; cbn -[JSON_stringify].
  - repeat split; eauto. intros h' [= <-] t Hin.
    apply filter_In in Hin as [_ Hneq]. simpl in Hneq. rewrite Pos.eqb_refl in Hneq.
    discriminate.
  - repeat split; eauto. discriminate.
Qed.

(** C2.  For every non-empty active set and every archive set, of records
    whose numbers JSON can hold, clicking Undo right after Archive gives the
    active set its records back, the same ones in the same order, and leaves
    the archive set as it was before the archive, so of the same length. *)
Theorem undo_after_archive (s : App.State) (archive : list Expense) :
  App.expenses s <> [] ->
  archiveSet s = Records archive ->
  Forall storable (archive ++ App.expenses s) ->
  exists s1 s2 archive',
    App.clickArchive s = App.Done s1
    /\ App.clickUndo s1 = App.Done s2
    /\ App.expenses s2 = App.expenses s
    /\ archiveSet s2 = Records archive'
    /\ archive' = archive
    /\ length archive' = length archive.
Proof.
  intros Hne Harch Hst. unfold archiveSet in *.
  pose proof (storable_roundTrips _ Hst) as Hrt1.
  assert (Hrt2 : roundTrips archive)
    by (apply storable_roundTrips; apply Forall_app in Hst; tauto).
  destruct (archiveData_Done s archive Hne Harch)
    as [a [Ha [Hexp [Hlast [Hshow [Hstore _]]]]]].
  unfold App.clickArchive. rewrite Ha. cbn [App.rendered].
  set (s1 := App.saveEffect a).
  assert (Hlast1 : App.lastArchivedData s1 = App.expenses s) by exact Hlast.
  assert (Harch1 : App.currentArchive s1 = Records (archive ++ App.lastArchivedData s1)).
  { rewrite Hlast1.
    rewrite (currentArchive_text s1 (JSON_stringify (archive ++ App.expenses s))).
    - exact Hrt1.
    - unfold s1, App.saveEffect. cbn [App.setItem App.localStorage]. rewrite Hstore.
      rewrite lookup_insert_ne by exact keys_differ. apply lookup_insert_eq.
    - reflexivity. }
  destruct (undoArchive_Done s1 archive) as [u [Hu [Huexp [_ [_ [Hustore _]]]]]].
  { rewrite Hlast1. exact Hne. }
  { exact Harch1. }
  exists s1, (App.saveEffect u), archive.
  split; [reflexivity|]. split.
  - unfold App.clickUndo. replace (App.showUndo s1) with true by (symmetry; exact Hshow).
    rewrite Hu. reflexivity.
  - split; [cbn [App.saveEffect App.setItem App.expenses]; congruence|].
    split; [|split; reflexivity].
    rewrite (currentArchive_text _ (JSON_stringify archive)).
    + exact Hrt2.
    + unfold App.saveEffect. cbn [App.setItem App.localStorage]. rewrite Hustore.
      rewrite lookup_insert_ne by exact keys_differ. apply lookup_insert_eq.
    + reflexivity.
Qed.

(** Archive then Undo on an active set of one record over an archive of
    three: the record is back and the archive holds its three records. *)
Lemma undo_after_archive_witness :
  exists s1 s2 archive',
    App.clickArchive Sample.s4 = App.Done s1
    /\ App.clickUndo s1 = App.Done s2
    /\ App.expenses s2 = App.expenses Sample.s4
    /\ archiveSet s2 = Records archive'
    /\ archive' = App.expenses Sample.s3
    /\ length archive' = length (App.expenses Sample.s3).
Proof.
  apply (undo_after_archive Sample.s4 (App.expenses Sample.s3)).
  - vm_compute. discriminate.
  - vm_compute. reflexivity.
  - apply checkStorable_storable. vm_compute. reflexivity.
Defined.

(** C5, as the code has it.  Every archive of a non-empty active set
    appends the records of the active set to the stored archive in the order
    the active set has them.  New records are put at the head of the active
    set, so the batch is newest-first. *)
Theorem archive_appends_in_active_order (s : App.State) (archive : list Expense) :
  App.expenses s <> [] ->
  archiveSet s = Records archive ->
  exists s1,
    App.clickArchive s = App.Done s1
    /\ App.getItem App.ARCHIVE_KEY s1 = Some (JSON_stringify (archive ++ App.expenses s))
    /\ (Forall storable (archive ++ App.expenses s) ->
        archiveSet s1 = Records (archive ++ App.expenses s))
    /\ (forall expense newId,
          exists newest, App.expenses (App.addExpense expense newId s)
                         = newest :: App.expenses s).
Proof.
  intros Hne Harch. unfold archiveSet in *.
  destruct (archiveData_Done s archive Hne Harch) as [a [Ha [_ [_ [_ [Hstore _]]]]]].
  assert (Htext : App.localStorage (App.saveEffect a) !! App.ARCHIVE_KEY
                  = Some (JSON_stringify (archive ++ App.expenses s))).
  { unfold App.saveEffect. cbn [App.setItem App.localStorage]. rewrite Hstore.
    rewrite lookup_insert_ne by exact keys_differ. apply lookup_insert_eq. }
  exists (App.saveEffect a). unfold App.clickArchive. rewrite Ha.
  split; [reflexivity|]. split; [exact Htext|]. split.
  - intros Hst. rewrite (currentArchive_text _ _ Htext) by reflexivity.
    apply storable_roundTrips. exact Hst.
  - intros expense newId. eexists. reflexivity.
Qed.

(** The three sample entries are archived in the order of the active set. *)
Lemma archive_appends_in_active_order_witness :
  exists s1,
    App.clickArchive Sample.s3 = App.Done s1
    /\ archiveSet s1 = Records (App.expenses Sample.s3).
Proof.
  destruct (archive_appends_in_active_order Sample.s3 [])
    as [s1 [H1 [_ [H3 _]]]].
  - vm_compute. discriminate.
  - vm_compute. reflexivity.
  - exists s1. split; [exact H1|]. apply H3.
    apply checkStorable_storable. vm_compute. reflexivity.
Defined.

(** C5 as stated fails: three entries made five seconds apart are
    archived with the latest one first; the appended batch is newest-first,
    not oldest-first. *)
Lemma archive_batch_newest_first :
  App.clickArchive Sample.s3 = App.Done Sample.archived
  /\ archiveSet Sample.s3 = Records []
  /\ archiveSet Sample.archived = Records (App.expenses Sample.s3)
  /\ map timestamp (App.expenses Sample.s3)
     = [1700000010000; 1700000005000; 1700000000000]%float
  /\ oldestFirst (App.expenses Sample.s3) = false
  /\ newestFirst (App.expenses Sample.s3) = true.
Proof.
  split; [vm_compute; reflexivity|]. split; [vm_compute; reflexivity|].
  split; [vm_compute; reflexivity|]. split; [vm_compute; reflexivity|].
  split; vm_compute; reflexivity.
Qed.

Lemma elapse_hides (s : App.State) (h : positive) (t ms : Z) :
  In (h, t) (App.timers s) -> t <= App.clock s + ms ->
  App.showUndo (App.elapse ms s) = false.
Proof.
  intros Hin Hle. unfold App.elapse. cbn [App.showUndo].
  replace (existsb (App.due (App.clock s + ms)) (App.timers s)) with true; [reflexivity|].
  symmetry. apply existsb_exists. exists (h, t). split; [exact Hin|].
  unfold App.due. simpl. apply Z.leb_le. exact Hle.
Qed.

(** C3, as the code has it.  When the ten seconds after an archive have
    passed without an undo, the undo bar is hidden; the Undo button exists
    only in that bar, so a click on it can no longer happen and changes
    nothing.  The snapshot itself stays in [lastArchivedData]. *)
Theorem undo_unavailable_after_window (s : App.State) (archive : list Expense) (ms : Z) :
  App.expenses s <> [] ->
  archiveSet s = Records archive ->
  10000 <= ms ->
  exists s1,
    App.clickArchive s = App.Done s1
    /\ App.showUndo s1 = true
    /\ App.showUndo (App.elapse ms s1) = false
    /\ App.clickUndo (App.elapse ms s1) = App.Done (App.elapse ms s1)
    /\ App.expenses (App.elapse ms s1) = []
    /\ archiveSet (App.elapse ms s1) = archiveSet s1
    /\ App.lastArchivedData (App.elapse ms s1) = App.expenses s.
Proof.
  intros Hne Harch Hms. unfold archiveSet in *.
  destruct (archiveData_Done s archive Hne Harch)
    as [a [Ha [Hexp [Hlast [Hshow [_ [Hclock [h [_ Hin]]]]]]]]].
  exists (App.saveEffect a). unfold App.clickArchive. rewrite Ha.
  assert (Hhide : App.showUndo (App.elapse ms (App.saveEffect a)) = false).
  { apply (elapse_hides _ h (App.clock s + 10000)); [exact Hin|].
    cbn [App.saveEffect App.setItem App.clock]. lia. }
  split; [reflexivity|]. split; [exact Hshow|]. split; [exact Hhide|]. split.
  - unfold App.clickUndo. rewrite Hhide. reflexivity.
  - split; [exact Hexp|]. split; [reflexivity | exact Hlast].
Qed.

(** After the sample archive, twelve seconds later, Undo is gone. *)
Lemma undo_unavailable_after_window_witness :
  exists s1,
    App.clickArchive Sample.s3 = App.Done s1
    /\ App.showUndo s1 = true
    /\ App.showUndo (App.elapse 12000 s1) = false
    /\ App.clickUndo (App.elapse 12000 s1) = App.Done (App.elapse 12000 s1).
Proof.
  destruct (undo_unavailable_after_window Sample.s3 [] 12000)
    as [s1 [H1 [H2 [H3 [H4 _]]]]].
  - vm_compute. discriminate.
  - vm_compute. reflexivity.
  - lia.
  - exists s1. auto.
Defined.

(** C3 as stated fails: when the ten seconds have passed the snapshot is
    still in the buffer, and [undoArchive], were it invoked, would put the
    three records back and empty the archive. *)
Lemma undo_buffer_survives_window :
  Sample.expired = App.elapse 10000 Sample.archived
  /\ App.showUndo Sample.expired = false
  /\ App.lastArchivedData Sample.expired = App.expenses Sample.s3
  /\ length (App.lastArchivedData Sample.expired) = 3%nat
  /\ App.expenses Sample.expired = []
  /\ archiveSet Sample.expired = Records (App.expenses Sample.s3)
  /\ exists s', App.undoArchive Sample.expired = App.Done s'
                /\ App.expenses s' = App.expenses Sample.s3
                /\ archiveSet s' = Records [].
Proof.
  split; [reflexivity|]. split; [vm_compute; reflexivity|].
  split; [vm_compute; reflexivity|]. split; [vm_compute; reflexivity|].
  split; [vm_compute; reflexivity|]. split; [vm_compute; reflexivity|].
  exists (Sample.state (App.undoArchive Sample.expired)).
  split; [vm_compute; reflexivity|]. split; vm_compute; reflexivity.
Qed.

(** C4, as the code has it.  When nothing is stored under the active-set
    key, or the empty text, the load leaves the active set empty.  When the
    stored text is not parseable, [JSON.parse] throws and nothing catches
    the [SyntaxError]: it leaves the effect. *)
Theorem load_absent_or_unparseable (storage : gmap string string) (now : Z) :
  (storage !! App.STORAGE_KEY = None \/ storage !! App.STORAGE_KEY = Some EmptyString ->
   exists s, App.mount storage now = App.Done s /\ App.expenses s = [])
  /\ (forall saved e,
        storage !! App.STORAGE_KEY = Some saved -> saved <> EmptyString ->
        JSON_parse saved = inr e ->
        e = SyntaxError
        /\ App.loadEffect (App.initial storage now) = App.Threw e (App.initial storage now)
        /\ App.mount storage now = App.Threw e (App.initial storage now)).
Proof.
  split.
  - intros H. unfold App.mount, App.loadEffect, App.getItem. cbn [App.initial App.localStorage].
    destruct H as [-> | ->]; eexists; split; reflexivity.
  - intros saved e Hs Hne Hp.
    assert (He : e = SyntaxError) by (destruct e; [reflexivity|]; unfold JSON_parse in Hp;
      destruct (parseValue _ _) as [[v r]|]; [destruct (skipWs r)|]; discriminate).
    assert (Hl : App.loadEffect (App.initial storage now) = App.Threw e (App.initial storage now)).
    { unfold App.loadEffect, App.getItem. cbn [App.initial App.localStorage]. rewrite Hs.
      apply truthy_true in Hne. rewrite Hne. unfold parseExpenses. rewrite Hp. reflexivity. }
    split; [exact He|]. split; [exact Hl|]. unfold App.mount. rewrite Hl. reflexivity.
Qed.

(** A fresh browser starts with no record; the text "{oops" makes the load
    throw. *)
Lemma load_absent_or_unparseable_witness :
  (exists s, App.mount ∅ Sample.t0 = App.Done s /\ App.expenses s = [])
  /\ App.mount Sample.corrupt Sample.t0
     = App.Threw SyntaxError (App.initial Sample.corrupt Sample.t0).
Proof.
  split.
  - apply (proj1 (load_absent_or_unparseable ∅ Sample.t0)). left. reflexivity.
  - destruct (proj2 (load_absent_or_unparseable Sample.corrupt Sample.t0) "{oops" SyntaxError)
      as [_ [_ H]]; [reflexivity | discriminate | vm_compute; reflexivity | exact H].
Defined.

(** C4 as stated fails: with the text "{oops" under the active-set key the
    load does not return the empty set, it throws a [SyntaxError]. *)
Lemma corrupt_store_throws :
  Sample.corrupt !! App.STORAGE_KEY = Some "{oops"
  /\ JSON_parse "{oops" = inr SyntaxError
  /\ App.loadEffect (App.initial Sample.corrupt 0)
     = App.Threw SyntaxError (App.initial Sample.corrupt 0)
  /\ forall s, App.mount Sample.corrupt 0 <> App.Done s.
Proof.
  split; [reflexivity|]. split; [vm_compute; reflexivity|].
  split; [vm_compute; reflexivity|]. intros s. vm_compute. discriminate.
Qed.

(** ** Sessions *)

Lemma consistent_saveEffect (s : App.State) :
  (length (App.timers s) <= 1)%nat ->
  (forall h t, In (h, t) (App.timers s) ->
     App.undoTimeoutRef s = Some h /\ App.clock s < t <= App.clock s + 10000) ->
  (App.showUndo s = true ->
   App.lastArchivedData s <> [] /\ exists h t, In (h, t) (App.timers s)) ->
  consistent (App.saveEffect s).
Proof.
  intros H1 H2 H3. unfold consistent. split; [|auto].
  unfold App.saveEffect, App.getItem. cbn [App.setItem App.localStorage App.expenses].
  apply lookup_insert_eq.
Qed.

Lemma consistent_saveEffect_same (s : App.State) :
  consistent s -> consistent (App.saveEffect s).
Proof. intros [_ [H1 [H2 H3]]]. apply consistent_saveEffect; assumption. Qed.

(** In a consistent state the timer [undoTimeoutRef] names is the only one
    there can be. *)
Lemma consistent_clear (s : App.State) :
  consistent s -> App.timers (App.clearUndoTimeout s) = [].
Proof.
  intros [_ [_ [H2 _]]]. unfold App.clearUndoTimeout.
  destruct (App.undoTimeoutRef s) as [h|] eqn:Href.
  - cbn [App.clearTimeout App.timers].
    induction (App.timers s) as [|[h' t'] l IH]; [reflexivity|].
    simpl. destruct (H2 h' t') as [Hh _]; [left; reflexivity|].
    injection Hh as ->. rewrite Pos.eqb_refl. simpl.
    apply IH. intros h0 t0 Hin. apply H2. right. exact Hin.
  - destruct (App.timers s) as [|[h' t'] l]; [reflexivity|].
    destruct (H2 h' t') as [Hh _]; [left; reflexivity | discriminate].
Qed.

Lemma clearUndoTimeout_fields (s : App.State) :
  App.expenses (App.clearUndoTimeout s) = App.expenses s
  /\ App.showUndo (App.clearUndoTimeout s) = App.showUndo s
  /\ App.lastArchivedData (App.clearUndoTimeout s) = App.lastArchivedData s
  /\ App.localStorage (App.clearUndoTimeout s) = App.localStorage s
  /\ App.clock (App.clearUndoTimeout s) = App.clock s
  /\ App.view (App.clearUndoTimeout s) = App.view s
  /\ App.searchQuery (App.clearUndoTimeout s) = App.searchQuery s
  /\ App.nextHandle (App.clearUndoTimeout s) = App.nextHandle s.
Proof.
  unfold App.clearUndoTimeout. destruct (App.undoTimeoutRef s); repeat split; reflexivity.
Qed.

Lemma loadEffect_Done (storage : gmap string string) (now : Z) (s1 : App.State) :
  App.loadEffect (App.initial storage now) = App.Done s1 ->
  exists l, s1 = App.setExpenses l (App.initial storage now).
Proof.
  unfold App.loadEffect. intros H.
  destruct (App.getItem _ _) as [saved|]; [destruct (truthy saved)|].
  - destruct (parseExpenses saved) as [l| |]; try discriminate.
    injection H as <-. exists l. reflexivity.
  - injection H as <-. exists []. reflexivity.
  - injection H as <-. exists []. reflexivity.
Qed.

(** A mount that ends normally has drawn the loaded set and saved it. *)
Lemma mount_Done (storage : gmap string string) (now : Z) (s : App.State) :
  App.mount storage now = App.Done s ->
  exists l,
    s = App.saveEffect
          (App.setItem App.STORAGE_KEY (JSON_stringify [])
             (App.setExpenses l (App.initial storage now)))
    /\ App.draws s = true.
Proof.
  unfold App.mount. intros H.
  destruct (App.loadEffect (App.initial storage now)) as [s1| |] eqn:E; try discriminate.
  apply loadEffect_Done in E as [l ->].
  cbn [App.initial App.expenses] in H.
  destruct (App.draws _) eqn:Hd; [|discriminate]. injection H as <-.
  exists l. split; [reflexivity | exact Hd].
Qed.

Lemma mount_consistent (storage : gmap string string) (now : Z) (s : App.State) :
  App.mount storage now = App.Done s -> consistent s.
Proof.
  intros H. apply mount_Done in H as [l [-> _]]. apply consistent_saveEffect.
  - simpl. lia.
  - intros h t [].
  - discriminate.
Qed.

Lemma archiveData_consistent (s : App.State) (o : App.State) :
  consistent s -> Session.settled (App.clickArchive s) = Some o -> consistent o.
Proof.
  intros Hc. unfold App.clickArchive, App.archiveData.
  destruct (length (App.expenses s) =? 0)%nat eqn:Hlen.
  - intros [= <-]. apply consistent_saveEffect_same. exact Hc.
  - destruct (App.currentArchive _) as [archive|e|]; cbn [App.rendered Session.settled];
      [| |discriminate].
    + intros [= <-]. pose proof (consistent_clear s Hc) as Hclear.
      apply consistent_saveEffect.
      * cbn [App.scheduleHide App.timers].
        match goal with |- (length (_ :: ?l) <= 1)%nat => replace l with (@nil (positive * Z)) end;
          [simpl; lia|].
        symmetry. unfold App.clearUndoTimeout in *. cbn [App.undoTimeoutRef App.setShowUndo App.setExpenses App.setItem App.setLastArchivedData] in *.
        destruct (App.undoTimeoutRef s); exact Hclear.
      * cbn [App.scheduleHide App.timers App.undoTimeoutRef App.clock].
        match goal with |- forall h t, In _ (_ :: ?l) -> _ => replace l with (@nil (positive * Z)) end.
        2:{ symmetry. unfold App.clearUndoTimeout in *. cbn [App.undoTimeoutRef App.setShowUndo App.setExpenses App.setItem App.setLastArchivedData] in *.
            destruct (App.undoTimeoutRef s); exact Hclear. }
        intros h t [[= <- <-]|[]]. split; [reflexivity|]. lia.
      * intros _. split.
        -- cbn [App.scheduleHide App.lastArchivedData].
           destruct (clearUndoTimeout_fields
                       (App.setShowUndo true (App.setExpenses []
                          (App.setItem App.ARCHIVE_KEY
                             (JSON_stringify (archive ++ App.expenses s))
                             (App.setLastArchivedData (App.expenses s) s)))))
             as [_ [_ [-> _]]].
           cbn [App.lastArchivedData App.setShowUndo App.setExpenses App.setItem App.setLastArchivedData].
           destruct (App.expenses s); [discriminate | discriminate].
        -- eexists. eexists. cbn [App.scheduleHide App.timers]. left. reflexivity.
    + intros [= <-]. destruct Hc as [_ [H1 [H2 H3]]]. apply consistent_saveEffect.
      * exact H1.
      * exact H2.
      * intros Hu. destruct (H3 Hu) as [_ Ht]. split; [|exact Ht].
        cbn [App.lastArchivedData App.setLastArchivedData].
        destruct (App.expenses s); discriminate.
Qed.

Lemma clickUndo_consistent (s : App.State) (o : App.State) :
  consistent s -> Session.settled (App.clickUndo s) = Some o -> consistent o.
Proof.
  intros Hc. unfold App.clickUndo, App.undoArchive.
  destruct (App.showUndo s) eqn:Hshow; [|intros [= <-]; exact Hc].
  destruct (0 <? length (App.lastArchivedData s))%nat.
  - destruct (App.currentArchive _) as [archive|e|]; cbn [App.rendered Session.settled];
      [| |discriminate].
    + intros [= <-]. pose proof (consistent_clear s Hc) as Hclear.
      match goal with |- consistent (App.saveEffect (App.clearUndoTimeout ?s3)) =>
        assert (Ht : App.timers (App.clearUndoTimeout s3) = []);
        [|destruct (clearUndoTimeout_fields s3) as [_ [Hu _]]]
      end.
      { unfold App.clearUndoTimeout in *.
        cbn [App.undoTimeoutRef App.setShowUndo App.setExpenses App.setItem
             App.setLastArchivedData] in *.
        destruct (App.undoTimeoutRef s); exact Hclear. }
      apply consistent_saveEffect.
      * rewrite Ht. simpl. lia.
      * rewrite Ht. intros h t [].
      * rewrite Hu. discriminate.
    + intros [= <-]. destruct Hc as [_ [H1 [H2 H3]]].
      apply consistent_saveEffect; assumption.
  - cbn [App.rendered Session.settled]. intros [= <-].
    apply consistent_saveEffect_same. exact Hc.
Qed.

Lemma elapse_consistent (s : App.State) (ms : Z) :
  0 <= ms -> consistent s -> consistent (App.elapse ms s).
Proof.
  intros Hms [H0 [H1 [H2 H3]]]. unfold consistent. split; [exact H0|]. split; [|split].
  - cbn [App.elapse App.timers].
    pose proof (filter_length_le (fun t => negb (App.due (App.clock s + ms) t)) (App.timers s)).
    lia.
  - cbn [App.elapse App.timers App.undoTimeoutRef App.clock]. intros h t Hin.
    apply filter_In in Hin as [Hin Hnd]. destruct (H2 h t Hin) as [Hr Ht].
    split; [exact Hr|]. unfold App.due in Hnd. simpl in Hnd.
    apply negb_true_iff, Z.leb_gt in Hnd. lia.
  - cbn [App.elapse App.timers App.showUndo App.lastArchivedData].
    destruct (existsb _ _) eqn:Hex; [discriminate|]. intros Hu.
    destruct (H3 Hu) as [Hl [h [t Hin]]]. split; [exact Hl|].
    exists h, t. apply filter_In. split; [exact Hin|].
    apply negb_true_iff. apply not_true_is_false. intros Hd.
    assert (existsb (App.due (App.clock s + ms)) (App.timers s) = true)
      by (apply existsb_exists; eauto).
    congruence.
Qed.

Lemma clickSave_consistent (f : AddExpense.Form) (newId : string) (s o : App.State) :
  consistent s -> AddExpense.clickSave f newId s = App.Done o -> consistent o.
Proof.
  intros Hc. unfold AddExpense.clickSave.
  destruct (AddExpense.handleSave f) as [e|]; [|intros [= <-]; exact Hc].
  cbn [App.rendered]. intros [= <-]. destruct Hc as [_ [H1 [H2 H3]]].
  apply consistent_saveEffect; assumption.
Qed.

(** Every handler keeps the state consistent. *)
Lemma dispatch_consistent (ev : Session.Event) (s s' : App.State) :
  consistent s -> Session.available ev s = true ->
  Session.settled (Session.dispatch ev s) = Some s' -> consistent s'.
Proof.
  intros Hc Hav. destruct ev; cbn [Session.dispatch].
  - intros [= <-]. exact Hc.
  - intros [= <-]. exact Hc.
  - intros [= <-]. exact Hc.
  - intros [= <-]. exact Hc.
  - destruct (AddExpense.clickSave form newId s) as [o|e o|] eqn:Hs; [| |discriminate].
    + intros [= <-]. exact (clickSave_consistent _ _ _ _ Hc Hs).
    + unfold AddExpense.clickSave in Hs.
      destruct (AddExpense.handleSave form); discriminate.
  - apply archiveData_consistent. exact Hc.
  - apply clickUndo_consistent. exact Hc.
  - intros [= <-]. apply elapse_consistent; [|exact Hc].
    unfold Session.available in Hav. destruct (App.screen s); apply Z.leb_le; exact Hav.
Qed.

Lemma reachable_consistent_session (storage : gmap string string) (now : Z) (s : App.State) :
  Session.reachable storage now s -> consistent s.
Proof.
  induction 1 as [s Hm | s s' ev _ IH Hav Hstep].
  - exact (mount_consistent _ _ _ Hm).
  - exact (dispatch_consistent _ _ _ IH Hav Hstep).
Qed.

Lemma run_reachable (storage : gmap string string) (now : Z) (evs : list Session.Event) :
  forall s s', Session.reachable storage now s -> Session.run evs s = Some s' ->
               Session.reachable storage now s'.
Proof.
  induction evs as [|ev rest IH]; intros s s' Hr; cbn [Session.run].
  - intros [= <-]. exact Hr.
  - destruct (Session.available ev s) eqn:Hav; [|discriminate].
    destruct (Session.settled (Session.dispatch ev s)) as [s1|] eqn:Hd; [|discriminate].
    apply IH. exact (Session.reach_step _ _ _ _ _ Hr Hav Hd).
Qed.

Lemma session_reachable (storage : gmap string string) (now : Z)
      (evs : list Session.Event) (s : App.State) :
  Session.session storage now evs = Some s -> Session.reachable storage now s.
Proof.
  unfold Session.session.
  destruct (App.mount storage now) as [s0| |] eqn:Hm; try discriminate.
  apply run_reachable. apply Session.reach_mount. exact Hm.
Qed.

Lemma filteredExpenses_nil (q : string) : App.filteredExpenses [] q = [].
Proof. unfold App.filteredExpenses. destruct (negb (truthy q)); reflexivity. Qed.

(** The Archive button is on screen only over a non-empty active set. *)
Lemma available_archive (d : Z) (s : App.State) :
  Session.available (Session.ClickArchive d) s = true ->
  App.view s = ViewHome /\ 25 <= d
  /\ App.filteredExpenses (App.expenses s) (App.searchQuery s) <> []
  /\ App.expenses s <> [].
Proof.
  unfold Session.available, App.screen. destruct (App.view s); try discriminate.
  - unfold Home.archiveVisible. intros H. apply andb_true_iff in H as [Hd Hl].
    apply Z.leb_le in Hd. apply Nat.ltb_lt in Hl.
    split; [reflexivity|]. split; [exact Hd|].
    assert (Hf : App.filteredExpenses (App.expenses s) (App.searchQuery s) <> [])
      by (intros E; rewrite E in Hl; simpl in Hl; lia).
    split; [exact Hf|]. intros E. rewrite E, filteredExpenses_nil in Hf. congruence.
  - destruct (App.selectedPerson s) as [n|]; [destruct (truthy n)|]; discriminate.
Qed.

(** [archiveData] in a consistent state: the one timer left is the new one. *)
Lemma archiveData_timers (s : App.State) (archive : list Expense) :
  consistent s -> App.expenses s <> [] -> App.currentArchive s = Records archive ->
  exists a,
    App.archiveData s = App.Done a
    /\ App.timers a = [(App.nextHandle s, App.clock s + 10000)]
    /\ App.showUndo a = true
    /\ App.clock a = App.clock s
    /\ App.expenses a = []
    /\ App.lastArchivedData a = App.expenses s
    /\ App.localStorage a
       = <[App.ARCHIVE_KEY := JSON_stringify (archive ++ App.expenses s)]> (App.localStorage s).
Proof.
  intros Hc Hne Harch. pose proof (consistent_clear s Hc) as Hclear.
  unfold App.archiveData.
  destruct (App.expenses s) as [|e l] eqn:He; [congruence|]. simpl (length _ =? 0)%nat.
  cbv iota. rewrite (currentArchive_same _ s) by reflexivity. rewrite Harch.
  eexists. split; [reflexivity|].
  unfold App.clearUndoTimeout in *. cbn -[JSON_stringify] in *.
  destruct (App.undoTimeoutRef s); cbn -[JSON_stringify] in *; rewrite Hclear;
    repeat split; reflexivity.
Qed.

Lemma dispatch_timers (ev : Session.Event) (s s' : App.State) :
  (forall d, ev <> Session.ClickArchive d) ->
  Session.settled (Session.dispatch ev s) = Some s' ->
  incl (App.timers s') (App.timers s).
Proof.
  intros Hev. destruct ev; cbn [Session.dispatch].
  - intros [= <-]. apply incl_refl.
  - intros [= <-]. apply incl_refl.
  - intros [= <-]. apply incl_refl.
  - intros [= <-]. apply incl_refl.
  - unfold AddExpense.clickSave. destruct (AddExpense.handleSave form);
      intros [= <-]; apply incl_refl.
  - destruct (Hev dayOfMonth). reflexivity.
  - unfold App.clickUndo, App.undoArchive.
    destruct (App.showUndo s); [|intros [= <-]; apply incl_refl].
    destruct (0 <? length (App.lastArchivedData s))%nat;
      [|intros [= <-]; apply incl_refl].
    destruct (App.currentArchive _) as [archive|e|]; cbn [App.rendered Session.settled];
      [| |discriminate].
    + intros [= <-]. unfold App.clearUndoTimeout.
      cbn [App.undoTimeoutRef App.setShowUndo App.setExpenses App.setItem
           App.setLastArchivedData].
      destruct (App.undoTimeoutRef s); cbn; [|apply incl_refl].
      intros x Hx. apply filter_In in Hx. tauto.
    + intros [= <-]. apply incl_refl.
  - intros [= <-]. cbn. intros x Hx. apply filter_In in Hx. tauto.
Qed.

Lemma run_timers (evs : list Session.Event) :
  forall s s',
    consistent s -> (forall d, ~ In (Session.ClickArchive d) evs) ->
    Session.run evs s = Some s' ->
    consistent s' /\ incl (App.timers s') (App.timers s).
Proof.
  induction evs as [|ev rest IH]; intros s s' Hc Hno; cbn [Session.run].
  - intros [= <-]. split; [exact Hc | apply incl_refl].
  - destruct (Session.available ev s) eqn:Hav; [|discriminate].
    destruct (Session.settled (Session.dispatch ev s)) as [s1|] eqn:Hd; [|discriminate].
    intros Hrun.
    assert (Hc1 : consistent s1) by exact (dispatch_consistent _ _ _ Hc Hav Hd).
    assert (Hi1 : incl (App.timers s1) (App.timers s)).
    { apply (dispatch_timers ev); [|exact Hd]. intros d ->. apply (Hno d). left. reflexivity. }
    destruct (IH s1 s' Hc1) as [Hc' Hi']; [|exact Hrun|].
    + intros d Hin. apply (Hno d). right. exact Hin.
    + split; [exact Hc'|]. intros x Hx. apply Hi1, Hi'. exact Hx.
Qed.

(** [slice(0, len - n)] keeps the first [keptOf len n] elements. *)
Lemma slice_kept {A} (l : list A) (n : nat) :
  slice l 0 (Z.of_nat (length l) - Z.of_nat n) = take (keptOf (length l) n) l.
Proof.
  unfold slice, keptOf. change (0 <? 0) with false. cbv beta iota zeta.
  rewrite (Z.min_l 0) by lia. rewrite Z.sub_0_r. simpl (drop _ _).
  destruct (Nat.leb_spec n (length l)) as [Hle | Hgt].
  - destruct (Z.ltb_spec (Z.of_nat (length l) - Z.of_nat n) 0) as [Hn | Hn]; [lia|].
    rewrite Z.min_l, Z.max_l by lia. f_equal. lia.
  - destruct (Z.ltb_spec (Z.of_nat (length l) - Z.of_nat n) 0) as [Hn | Hn]; [|lia].
    f_equal. lia.
Qed.

Lemma undoArchive_general (s : App.State) (archive : list Expense) :
  App.lastArchivedData s <> [] -> App.currentArchive s = Records archive ->
  exists s1,
    App.undoArchive s = App.Done s1
    /\ App.expenses s1 = App.lastArchivedData s
    /\ App.lastArchivedData s1 = []
    /\ App.showUndo s1 = false
    /\ App.localStorage s1
       = <[App.ARCHIVE_KEY :=
             JSON_stringify
               (take (keptOf (length archive) (length (App.lastArchivedData s))) archive)]>
           (App.localStorage s).
Proof.
  intros Hne Harch. unfold App.undoArchive.
  destruct (App.lastArchivedData s) as [|e l] eqn:He; [congruence|].
  simpl (0 <? length _)%nat. cbv iota zeta.
  rewrite (currentArchive_same _ s) by reflexivity. rewrite Harch.
  cbn [App.setExpenses App.lastArchivedData]. rewrite He, slice_kept.
  eexists. split; [reflexivity|].
  unfold App.clearUndoTimeout. cbn -[JSON_stringify keptOf].
  destruct (App.undoTimeoutRef s) as [h|]; cbn -[JSON_stringify keptOf];
    repeat split; reflexivity.
Qed.

Lemma insert_storage_archive (m : gmap string string) (v : string) :
  <[App.STORAGE_KEY := v]> m !! App.ARCHIVE_KEY = m !! App.ARCHIVE_KEY.
Proof. apply lookup_insert_ne. exact keys_differ. Qed.

Lemma insert_archive_storage (m : gmap string string) (v : string) :
  <[App.ARCHIVE_KEY := v]> m !! App.STORAGE_KEY = m !! App.STORAGE_KEY.
Proof. apply lookup_insert_ne. intros E. apply keys_differ. symmetry. exact E. Qed.

(** ** Signs *)

Lemma binary_round_aux_signed (prec emax : Z) (s : bool) (m e : Z) (l : location) :
  signed s (binary_round_aux prec emax s m e l).
Proof.
  unfold binary_round_aux.
  destruct (shr_fexp prec emax m e l) as [mrs' e'].
  destruct (shr_fexp prec emax _ e' loc_Exact) as [mrs'' e''].
  destruct (shr_m mrs''); simpl; [exact I | | exact I].
  destruct (e'' <=? emax - prec); reflexivity.
Qed.

Lemma binary_round_signed (prec emax : Z) (s : bool) (m : positive) (e : Z) :
  signed s (binary_round prec emax s m e).
Proof.
  unfold binary_round. destruct (shl_align _ _ _) as [mz ez].
  apply binary_round_aux_signed.
Qed.

Lemma SFadd_signed (prec emax : Z) (s : bool) (x y : spec_float) :
  signed s x -> signed s y -> signed s (SFadd prec emax x y).
Proof.
  destruct x as [sx|sx| |sx mx ex], y as [sy|sy| |sy my ey];
    try (intros Hx Hy; simpl in Hx, Hy; subst;
         repeat match goal with b : bool |- _ => destruct b end;
         simpl; auto; fail).
  intros Hx Hy. simpl in Hx, Hy. subst sx sy. unfold SFadd, binary_normalize.
  destruct s; simpl; apply binary_round_signed.
Qed.

Lemma SFopp_signed (s : bool) (x : spec_float) :
  signed s x -> signed (negb s) (SFopp x).
Proof. destruct x; simpl; intros; subst; auto. Qed.

Lemma SFdiv_signed (prec emax : Z) (s : bool) (x : spec_float) (my : positive) (ey : Z) :
  signed s x -> signed s (SFdiv prec emax x (S754_finite false my ey)).
Proof.
  destruct x as [sx|sx| |sx mx ex]; simpl; try (intros; subst; auto using xorb_false_r; fail).
  intros ->. rewrite xorb_false_r.
  destruct (SFdiv_core_binary _ _ _ _ _ _) as [[mz ez] lz].
  apply binary_round_aux_signed.
Qed.

Lemma notNegative_signed (x : number) : notNegative x <-> signed false (Prim2SF x).
Proof.
  unfold notNegative. split.
  - intros H. destruct (Prim2SF x) as [s|s| |s m e] eqn:E; simpl; auto;
      destruct s; auto; exfalso;
      assert (P : (x <? 0)%float = true) by (apply negative_spec; eauto); congruence.
  - intros H. apply not_true_is_false. intros P. apply negative_spec in P.
    destruct P as [[m [e P]] | P]; rewrite P in H; simpl in H; discriminate.
Qed.

Lemma notPositive_signed (x : number) : notPositive x <-> signed true (Prim2SF x).
Proof.
  unfold notPositive. split.
  - intros H. destruct (Prim2SF x) as [s|s| |s m e] eqn:E; simpl; auto;
      destruct s; auto; exfalso;
      assert (P : (0 <? x)%float = true) by (apply positive_spec; eauto); congruence.
  - intros H. apply not_true_is_false. intros P. apply positive_spec in P.
    destruct P as [[m [e P]] | P]; rewrite P in H; simpl in H; discriminate.
Qed.

Lemma add_signed (s : bool) (x y : number) :
  signed s (Prim2SF x) -> signed s (Prim2SF y) -> signed s (Prim2SF (x + y)).
Proof. intros Hx Hy. rewrite add_spec. apply SFadd_signed; assumption. Qed.

Lemma half_signed (s : bool) (x : number) :
  signed s (Prim2SF x) -> signed s (Prim2SF (x / 2)).
Proof.
  intros Hx. rewrite div_spec.
  change (Prim2SF 2) with (S754_finite false 4503599627370496 (-51)).
  apply SFdiv_signed. exact Hx.
Qed.

Lemma sub_signed (x y : number) :
  signed true (Prim2SF x) -> signed false (Prim2SF y) -> signed true (Prim2SF (x - y)).
Proof.
  intros Hx Hy. rewrite sub_add_opp. apply add_signed; [exact Hx|].
  rewrite opp_spec. apply (SFopp_signed false). exact Hy.
Qed.

Lemma balance_signed (s : bool) (l : list Expense) :
  Forall (fun e : Expense => signed false (Prim2SF (amount e))) l ->
  Forall (fun e : Expense => if s then status e = TheyPaid else status e <> TheyPaid) l ->
  forall acc : number,
    signed s (Prim2SF acc) ->
    signed s (Prim2SF (fold_left
                         (fun (a : number) (curr : Expense) =>
                            match status curr with
                            | TheyPaid => a - amount curr
                            | Split => a + amount curr / 2
                            | IPaid => a + amount curr
                            end%float) l acc)).
Proof.
  induction l as [|e l IH]; intros Ham Hst acc Hacc; [exact Hacc|].
  inversion Ham as [|? ? Ha Ham']; subst. inversion Hst as [|? ? Hs Hst']; subst.
  cbn [fold_left]. apply IH; [exact Ham' | exact Hst' |].
  destruct s.
  - rewrite Hs. apply sub_signed; assumption.
  - destruct (status e); [apply add_signed; assumption | congruence |].
    apply add_signed; [exact Hacc | apply half_signed; exact Ha].
Qed.

(** ** The search *)

Lemma isSubstring_trans (a b c : string) :
  isSubstring a b -> isSubstring b c -> isSubstring a c.
Proof.
  intros [p1 [s1 ->]] [p2 [s2 ->]]. exists (p2 ++ p1), (s1 ++ s2).
  rewrite !append_assoc. reflexivity.
Qed.

Lemma isSubstring_empty (q : string) : isSubstring q EmptyString -> q = EmptyString.
Proof.
  intros [p [s H]]. destruct p; [|discriminate]. destruct q; [reflexivity | discriminate].
Qed.

Lemma includes_mono (s q1 q2 : string) :
  isSubstring q1 q2 -> includes s q2 = true -> includes s q1 = true.
Proof.
  intros H12 H2. apply includes_spec. apply includes_spec in H2.
  exact (isSubstring_trans _ _ _ H12 H2).
Qed.

Lemma matchesQuery_mono (q1 q2 : string) (e : Expense) :
  isSubstring q1 q2 -> App.matchesQuery q2 e = true -> App.matchesQuery q1 e = true.
Proof.
  intros H12. unfold App.matchesQuery. rewrite !orb_true_iff.
  intros [[[H | H] | H] | H].
  - left. left. left. exact (includes_mono _ _ _ H12 H).
  - left. left. right. destruct (label e); [exact (includes_mono _ _ _ H12 H) | discriminate].
  - left. right. exact (includes_mono _ _ _ H12 H).
  - right. exact (includes_mono _ _ _ H12 H).
Qed.

Section Filter.
Context {A : Type} (p q : A -> bool).

Lemma filter_narrow (l : list A) :
  (forall x, q x = true -> p x = true) ->
  List.filter q l = List.filter q (List.filter p l).
Proof.
  intros Hqp. induction l as [|x l IH]; [reflexivity|]. simpl.
  destruct (q x) eqn:Hq.
  - rewrite (Hqp x Hq). simpl. rewrite Hq, <- IH. reflexivity.
  - destruct (p x); simpl; [rewrite Hq|]; exact IH.
Qed.

Lemma hd_error_filter (l : list A) : hd_error (List.filter p l) = List.find p l.
Proof.
  induction l as [|x l IH]; [reflexivity|]. simpl. destruct (p x); [reflexivity | exact IH].
Qed.

End Filter.

(** ** The list of [Home] *)

Lemma avatar_inr (e : Expense) (err : Error) :
  Home.avatar e = inr err <-> err = TypeError /\ person e = EmptyString.
Proof.
  unfold Home.avatar, charAt0. destruct (person e) as [|a p].
  - cbn [next]. split; [intros [= <-]; auto | intros [-> _]; reflexivity].
  - destruct (next (String a p)) as [[[cp w] r]|] eqn:E; [|discriminate E].
    split; [discriminate | intros [_ H]; discriminate].
Qed.

Lemma row_inr (formatTime : number -> string) (e : Expense) (err : Error) :
  Home.row formatTime e = inr err <-> err = TypeError /\ person e = EmptyString.
Proof.
  rewrite <- avatar_inr. unfold Home.row.
  destruct (Home.avatar e); split; congruence.
Qed.

(** [draws] is the test that the list of [Home] can be drawn. *)
Lemma draws_rows (formatTime : number -> string) (l : list Expense) :
  forallb (fun e => match Home.avatar e with inl _ => true | inr _ => false end) l = true
  <-> exists rs, Home.rows formatTime l = inl rs.
Proof.
  induction l as [|e l IH]; cbn [forallb Home.rows].
  - split; eauto.
  - unfold Home.row. destruct (Home.avatar e) as [a|err]; cbn [andb].
    + rewrite IH. destruct (Home.rows formatTime l) as [rs|err'].
      * split; eauto.
      * split; intros [rs H]; discriminate.
    + split; [discriminate | intros [rs H]; discriminate].
Qed.

Lemma draws_persons (l : list Expense) :
  forallb (fun e => match Home.avatar e with inl _ => true | inr _ => false end) l = true
  <-> Forall (fun e : Expense => person e <> EmptyString) l.
Proof.
  rewrite forallb_forall, Forall_forall. split; intros H e He.
  - specialize (H e (proj1 (list_elem_of_In _ _) He)). intros Hp.
    assert (Home.avatar e = inr TypeError) by (apply avatar_inr; auto).
    rewrite H0 in H. discriminate.
  - specialize (H e (proj2 (list_elem_of_In _ _) He)).
    destruct (Home.avatar e) as [a|err] eqn:E; [reflexivity|].
    apply avatar_inr in E. tauto.
Qed.

(** Mounting on a store that holds the text of [l]. *)
Lemma mount_stored (m : gmap string string) (l : list Expense) (now : Z) :
  m !! App.STORAGE_KEY = Some (JSON_stringify l) -> Forall storable l ->
  App.mount m now
  = let s2 := App.setItem App.STORAGE_KEY (JSON_stringify [])
                (App.setExpenses l (App.initial m now)) in
    if forallb (fun e => match Home.avatar e with inl _ => true | inr _ => false end) l
    then App.Done (App.saveEffect s2) else App.Threw TypeError s2.
Proof.
  intros Hm Hst. pose proof (storable_roundTrips _ Hst) as Hrt. unfold roundTrips in Hrt.
  unfold App.mount, App.loadEffect.
  change (App.getItem App.STORAGE_KEY (App.initial m now)) with (m !! App.STORAGE_KEY).
  rewrite Hm, JSON_stringify_truthy, Hrt. reflexivity.
Qed.

Lemma filteredExpenses_In (l : list Expense) (q : string) (e : Expense) :
  In e (App.filteredExpenses l q) -> In e l.
Proof.
  unfold App.filteredExpenses. destruct (negb (truthy q)); [auto|].
  intros H. apply filter_In in H. tauto.
Qed.

Lemma filteredExpenses_empty_query (l : list Expense) : App.filteredExpenses l EmptyString = l.
Proof. reflexivity. Qed.

(** X1.  At any point of a session, reloading the page gives the active
    set back when it can be drawn.  If its numbers are ones JSON can hold
    and no record has the empty string as its person, mounting [App] on
    the storage the session has left loads the same records in the same
    order, draws them and leaves the storage as it is.  The page opens on
    [Home] with an empty search, and the undo bar and its snapshot are
    gone. *)
Theorem reload_restores_active_set
        (storage : gmap string string) (now now' : Z) (s : App.State)
        (formatTime : number -> string) :
  Session.reachable storage now s ->
  Forall storable (App.expenses s) ->
  Forall (fun e : Expense => person e <> EmptyString) (App.expenses s) ->
  exists s' rs,
    App.mount (App.localStorage s) now' = App.Done s'
    /\ App.expenses s' = App.expenses s
    /\ App.localStorage s' = App.localStorage s
    /\ App.screen s' = App.HomeScreen (App.expenses s)
    /\ Home.rows formatTime (App.expenses s) = inl rs
    /\ App.showUndo s' = false
    /\ App.lastArchivedData s' = [].
Proof.
  intros Hr Hst Hp. apply reachable_consistent_session in Hr. destruct Hr as [Hstore _].
  apply draws_persons in Hp.
  destruct (proj1 (draws_rows formatTime _) Hp) as [rs Hrs].
  rewrite (mount_stored _ _ now' Hstore Hst). cbv zeta. rewrite Hp.
  eexists. exists rs. split; [reflexivity|]. split; [reflexivity|]. split.
  - unfold App.saveEffect.
    cbn [App.setItem App.localStorage App.setExpenses App.initial App.expenses].
    rewrite insert_insert_eq. apply insert_id. exact Hstore.
  - split; [reflexivity|]. split; [exact Hrs|]. split; reflexivity.
Qed.

(** The three sample entries come back after a reload. *)
Lemma reload_restores_active_set_witness :
  exists s',
    App.mount (App.localStorage Sample.s3) (Sample.t0 + 60000) = App.Done s'
    /\ App.expenses s' = App.expenses Sample.s3.
Proof.
  destruct (reload_restores_active_set ∅ Sample.t0 (Sample.t0 + 60000) Sample.s3
              (fun _ => "Today"))
    as [s' [rs [H1 [H2 _]]]].
  - apply (session_reachable _ _ Tour.entries). vm_compute. reflexivity.
  - apply checkStorable_storable. vm_compute. reflexivity.
  - vm_compute. repeat constructor; discriminate.
  - exists s'. split; [exact H1 | exact H2].
Defined.

(** X2.  Every state of a session is consistent: the stored active-set
    text is the JSON of the active set on screen; at most one timer is
    pending, it is the one [undoTimeoutRef] names and it comes due within
    ten seconds; and the undo bar is shown only with a non-empty snapshot
    to restore and a timer pending to hide it. *)
Theorem session_keeps_consistent (storage : gmap string string) (now : Z) (s : App.State) :
  Session.reachable storage now s -> consistent s.
Proof.
  intros Hr. induction Hr as [s Hm | s s' ev _ IH Hav Hstep].
  - apply (mount_consistent storage now). exact Hm.
  - apply (dispatch_consistent ev s); assumption.
Qed.

(** The state after the sample archive is consistent. *)
Lemma session_keeps_consistent_witness : consistent Sample.archived.
Proof.
  apply (session_keeps_consistent ∅ Sample.t0).
  apply (session_reachable _ _ Tour.archive). vm_compute. reflexivity.
Defined.

(** X3.  The undo bar never outlives its ten seconds, whatever is done in
    between: from any state of a session, after any events none of which
    is a new archive, the bar is hidden as soon as the clock is ten
    seconds on. *)
Theorem undo_bar_never_outlives_window
        (storage : gmap string string) (now : Z) (s s' : App.State)
        (evs : list Session.Event) :
  Session.reachable storage now s ->
  (forall d, ~ In (Session.ClickArchive d) evs) ->
  Session.run evs s = Some s' ->
  App.clock s + 10000 <= App.clock s' ->
  App.showUndo s' = false.
Proof.
  intros Hr Hno Hrun Hclock. apply reachable_consistent_session in Hr.
  destruct (run_timers evs s s' Hr Hno Hrun) as [[_ [_ [H2' H3']]] Hincl].
  destruct (App.showUndo s') eqn:Hshow; [|reflexivity].
  destruct (H3' eq_refl) as [_ [h [t Hin]]].
  destruct (H2' h t Hin) as [_ Ht'].
  destruct Hr as [_ [_ [H2 _]]]. destruct (H2 h t (Hincl _ Hin)) as [_ Ht]. lia.
Qed.

(** Ten seconds after the sample archive, with a visit to the form and one
    more entry in between, the bar is gone. *)
Lemma undo_bar_never_outlives_window_witness :
  exists s', Session.run Tour.later Sample.archived = Some s'
             /\ App.showUndo Sample.archived = true
             /\ App.showUndo s' = false.
Proof.
  assert (Hrun : Session.run Tour.later Sample.archived
                 = Some (App.elapse 6000 Tour.readded))
    by (vm_compute; reflexivity).
  eexists. split; [exact Hrun|]. split; [reflexivity|].
  apply (undo_bar_never_outlives_window ∅ Sample.t0 Sample.archived _ Tour.later).
  - apply (session_reachable _ _ Tour.archive). vm_compute. reflexivity.
  - intros d Hin. vm_compute in Hin. intuition discriminate.
  - exact Hrun.
  - vm_compute. discriminate.
Defined.

(** X4.  Every archive starts the ten seconds anew.  In any state of a
    session where the Archive button is on screen and the stored archive
    is readable, the click shows the undo bar and, whatever timer an
    earlier archive had left, the bar stays for every wait shorter than
    ten seconds and is hidden by one of ten seconds. *)
Theorem archive_restarts_window
        (storage : gmap string string) (now : Z) (s : App.State)
        (d : Z) (archive : list Expense) :
  Session.reachable storage now s ->
  Session.available (Session.ClickArchive d) s = true ->
  archiveSet s = Records archive ->
  exists s',
    Session.dispatch (Session.ClickArchive d) s = App.Done s'
    /\ App.showUndo s' = true
    /\ (forall ms, 0 <= ms < 10000 -> App.showUndo (App.elapse ms s') = true)
    /\ App.showUndo (App.elapse 10000 s') = false.
Proof.
  intros Hr Hav Harch. apply reachable_consistent_session in Hr.
  apply available_archive in Hav as [_ [_ [_ Hne]]].
  destruct (archiveData_timers s archive Hr Hne Harch)
    as [a [Ha [Ht [Hshow [Hclock _]]]]].
  exists (App.saveEffect a). cbn [Session.dispatch]. unfold App.clickArchive. rewrite Ha.
  split; [reflexivity|]. split; [exact Hshow|]. split.
  - intros ms Hms. unfold App.elapse, App.saveEffect.
    cbn [App.showUndo App.timers App.setItem App.clock]. rewrite Ht, Hshow, Hclock.
    simpl. unfold App.due. simpl.
    destruct (Z.leb_spec (App.clock s + 10000) (App.clock s + ms)); [lia | reflexivity].
  - apply (elapse_hides _ (App.nextHandle s) (App.clock s + 10000)).
    + cbn [App.saveEffect App.setItem App.timers]. rewrite Ht. left. reflexivity.
    + cbn [App.saveEffect App.setItem App.clock]. lia.
Qed.

(** Four seconds after the sample archive one more entry is archived: the
    bar is still there 9999 ms later, although the first timer had six
    seconds left. *)
Lemma archive_restarts_window_witness :
  exists s',
    Session.dispatch (Session.ClickArchive 28) Tour.readded = App.Done s'
    /\ App.showUndo (App.elapse 9999 s') = true
    /\ App.showUndo (App.elapse 10000 s') = false.
Proof.
  destruct (archive_restarts_window ∅ Sample.t0 Tour.readded 28 (App.expenses Sample.s3))
    as [s' [H1 [_ [H3 H4]]]].
  - apply (session_reachable _ _ Tour.again). vm_compute. reflexivity.
  - vm_compute. reflexivity.
  - vm_compute. reflexivity.
  - exists s'. split; [exact H1|]. split; [apply H3; lia | exact H4].
Defined.

(** X5.  Undo cuts the stored archive by length, not by content.  With the
    bar on screen and a readable archive of [len] records, the click puts
    the [n] records of the snapshot back as the active set and keeps the
    first [len - n] records of the archive when [n <= len]; when the
    archive has meanwhile become shorter than the snapshot, the end index
    is negative and counts from the end, so the first [2 * len - n] records
    are kept (none when that is not positive). *)
Theorem undo_cuts_archive_by_length (s : App.State) (archive : list Expense) :
  App.showUndo s = true ->
  App.lastArchivedData s <> [] ->
  archiveSet s = Records archive ->
  exists s',
    App.clickUndo s = App.Done s'
    /\ App.expenses s' = App.lastArchivedData s
    /\ App.getItem App.ARCHIVE_KEY s'
       = Some (JSON_stringify
                 (take (keptOf (length archive) (length (App.lastArchivedData s)))
                       archive))
    /\ App.showUndo s' = false.
Proof.
  intros Hshow Hne Harch. unfold archiveSet in Harch.
  destruct (undoArchive_general s archive Hne Harch)
    as [a [Ha [Hexp [_ [Hhide Hstore]]]]].
  exists (App.saveEffect a). unfold App.clickUndo. rewrite Hshow, Ha.
  split; [reflexivity|]. split; [exact Hexp|]. split; [|exact Hhide].
  unfold App.getItem, App.saveEffect. cbn [App.setItem App.localStorage].
  rewrite insert_storage_archive, Hstore. apply lookup_insert_eq.
Qed.

(** A snapshot of three records against an archive of two: Undo leaves the
    first record of the archive, which was never part of the snapshot. *)
Lemma undo_cuts_archive_by_length_witness :
  exists s',
    App.clickUndo Tour.replaced = App.Done s'
    /\ App.expenses s' = App.expenses Sample.s3
    /\ App.getItem App.ARCHIVE_KEY s' = Some (JSON_stringify [Sample.rohit 1]).
Proof.
  destruct (undo_cuts_archive_by_length Tour.replaced [Sample.rohit 1; Sample.rohit 2])
    as [s' [H1 [H2 [H3 _]]]].
  - reflexivity.
  - vm_compute. discriminate.
  - vm_compute. reflexivity.
  - assert (E2 : App.lastArchivedData Tour.replaced = App.expenses Sample.s3)
      by (vm_compute; reflexivity).
    assert (E3 : take (keptOf (length [Sample.rohit 1; Sample.rohit 2])
                              (length (App.lastArchivedData Tour.replaced)))
                      [Sample.rohit 1; Sample.rohit 2] = [Sample.rohit 1])
      by (vm_compute; reflexivity).
    rewrite E2 in H2. rewrite E3 in H3.
    exists s'. split; [exact H1|]. split; [exact H2 | exact H3].
Defined.





(** X8.  The balance never points the wrong way.  Over records whose
    amounts are not negative, a list without a They Paid record gives a
    balance that is not below zero, so the label reads "Owes you" or
    "Settled Up" and never "You owe"; a list of They Paid records only
    gives a balance that is not above zero, so the label reads "You owe"
    or "Settled Up" and never "Owes you".  No rounding and no overflow on
    the way changes that. *)
Theorem balance_direction (l : list Expense) :
  Forall (fun e : Expense => notNegative (amount e)) l ->
  (Forall (fun e : Expense => status e <> TheyPaid) l ->
   notNegative (PersonDetail.balance l)
   /\ (PersonDetail.balanceText (PersonDetail.balance l) = "Settled Up"
       \/ PersonDetail.balanceText (PersonDetail.balance l)
          = "Owes you ₹" ++ toFixed0 (PersonDetail.balance l)))
  /\ (Forall (fun e : Expense => status e = TheyPaid) l ->
      notPositive (PersonDetail.balance l)
      /\ (PersonDetail.balanceText (PersonDetail.balance l) = "Settled Up"
          \/ PersonDetail.balanceText (PersonDetail.balance l)
             = "You owe ₹" ++ toFixed0 (abs (PersonDetail.balance l)))).
Proof.
  intros Ham.
  assert (Ham' : Forall (fun e : Expense => signed false (Prim2SF (amount e))) l).
  { apply Forall_forall. intros e He. apply notNegative_signed.
    exact (proj1 (Forall_forall _ _) Ham e He). }
  split; intros Hst.
  - assert (Hb : notNegative (PersonDetail.balance l)).
    { apply notNegative_signed. apply (balance_signed false); [exact Ham' | exact Hst |].
      exact I. }
    split; [exact Hb|]. unfold PersonDetail.balanceText. unfold notNegative in Hb.
    rewrite Hb. destruct (0 <? PersonDetail.balance l)%float; [right | left]; reflexivity.
  - assert (Hb : notPositive (PersonDetail.balance l)).
    { apply notPositive_signed. apply (balance_signed true); [exact Ham' | exact Hst |].
      exact I. }
    split; [exact Hb|]. unfold PersonDetail.balanceText. unfold notPositive in Hb.
    rewrite Hb. destruct (PersonDetail.balance l <? 0)%float; [right | left]; reflexivity.
Qed.

(** The two sample records of Rohit, I Paid 120 and Split 100: the label
    does not read "You owe". *)
Lemma balance_direction_witness :
  notNegative (PersonDetail.balance (App.personExpenses "Rohit" (App.expenses Sample.s3))).
Proof.
  destruct (balance_direction (App.personExpenses "Rohit" (App.expenses Sample.s3)))
    as [H _].
  - vm_compute. repeat constructor.
  - destruct H as [H _]; [|exact H]. vm_compute. repeat constructor; discriminate.
Defined.

(** X9.  Typing more narrows the search.  When the first query occurs in
    the second, whatever the case of either, the records shown for the
    second are those shown for the first filtered again: every record
    shown for the longer query is shown for the shorter one, in the same
    order. *)
Theorem longer_query_narrows (l : list Expense) (q1 q2 : string) :
  isSubstring (toLowerCase q1) (toLowerCase q2) ->
  App.filteredExpenses l q2 = App.filteredExpenses (App.filteredExpenses l q1) q2
  /\ (forall e, In e (App.filteredExpenses l q2) -> In e (App.filteredExpenses l q1)).
Proof.
  intros Hsub.
  assert (Heq : App.filteredExpenses l q2
                = App.filteredExpenses (App.filteredExpenses l q1) q2).
  { unfold App.filteredExpenses.
    destruct (truthy q1) eqn:H1; [|reflexivity]. simpl.
    destruct (truthy q2) eqn:H2; simpl.
    - apply filter_narrow. intros e. apply matchesQuery_mono. exact Hsub.
    - exfalso. apply truthy_false in H2. subst q2. apply isSubstring_empty in Hsub.
      rewrite <- toLowerCase_truthy, Hsub in H1. discriminate. }
  split; [exact Heq|]. intros e He. rewrite Heq in He.
  unfold App.filteredExpenses in He at 1.
  destruct (negb (truthy q2)); [exact He|]. apply filter_In in He. tauto.
Qed.

(** "ÉM" occurs in "émile" once both are in lower case: what "émile"
    lists of the two records is what it lists of those that "ÉM" lists. *)
Lemma longer_query_narrows_witness :
  App.filteredExpenses [Sample.rohit 1; Sample.emile] "émile"
  = App.filteredExpenses (App.filteredExpenses [Sample.rohit 1; Sample.emile] "ÉM") "émile".
Proof.
  assert (H : isSubstring (toLowerCase "ÉM") (toLowerCase "émile"))
    by (exists EmptyString, "ile"; vm_compute; reflexivity).
  exact (proj1 (longer_query_narrows [Sample.rohit 1; Sample.emile] "ÉM" "émile" H)).
Defined.

(** X10.  The list of [Home] cannot be drawn over a record without a
    person.  Drawing it throws exactly when some record shown has the
    empty string as its person, and what is thrown is a TypeError (the
    avatar is read off [undefined]); otherwise there is one entry per
    record, in order, under the person's name and with the avatar of that
    record, which is not empty, whatever [formatTime] returns. *)
Theorem home_rows_need_a_person (formatTime : number -> string) (l : list Expense) :
  (forall err, Home.rows formatTime l = inr err <->
               err = TypeError /\ exists e : Expense, In e l /\ person e = EmptyString)
  /\ (forall rs, Home.rows formatTime l = inl rs ->
                 map Home.name rs = map (fun e : Expense => person e) l
                 /\ map (fun r => @inl string Error (Home.initial r)) rs = map Home.avatar l
                 /\ Forall (fun r => Home.initial r <> EmptyString) rs).
Proof.
  induction l as [|e l [IHe IHr]].
  - split.
    + intros err. simpl. split; [discriminate | intros [_ [e [[] _]]]].
    + intros rs [= <-]. split; [reflexivity|]. split; [reflexivity | constructor].
  - split.
    + intros err. cbn [Home.rows].
      destruct (Home.row formatTime e) as [r|err0] eqn:Hrow.
      * assert (Hp : person e <> EmptyString).
        { intros Hp. assert (Home.row formatTime e = inr TypeError)
            by (apply row_inr; auto). congruence. }
        destruct (Home.rows formatTime l) as [rs|err1] eqn:Hrows.
        -- split; [discriminate|]. intros [-> [x [[<- | Hin] Hx]]]; [congruence|].
           assert (@inl (list Home.Row) Error rs = inr TypeError)
             by (apply IHe; eauto). discriminate.
        -- split.
           ++ intros [= <-]. destruct (proj1 (IHe err1) eq_refl) as [-> [x [Hin Hx]]].
              split; [reflexivity|]. exists x. split; [right; exact Hin | exact Hx].
           ++ intros [-> [x [[<- | Hin] Hx]]]; [congruence|].
              destruct (proj1 (IHe err1) eq_refl) as [-> _]. reflexivity.
      * apply row_inr in Hrow as [-> Hp]. split.
        -- intros [= <-]. split; [reflexivity|]. exists e. split; [left; reflexivity | exact Hp].
        -- intros [-> _]. reflexivity.
    + intros rs. cbn [Home.rows]. unfold Home.row at 1.
      destruct (Home.avatar e) as [a|] eqn:Ha; [|discriminate].
      destruct (Home.rows formatTime l) as [rs'|] eqn:Hrows; [|discriminate].
      intros [= <-]. destruct (IHr rs' eq_refl) as [Hn [Hi Hne]].
      split; [simpl; rewrite Hn; reflexivity|]. split; [simpl; rewrite Hi, Ha; reflexivity|].
      constructor; [|exact Hne]. cbn [Home.initial].
      unfold Home.avatar in Ha. destruct (charAt0 (person e)) as [c|] eqn:Hc; [|discriminate].
      injection Ha as <-. apply truthy_true. rewrite toUpperCase_truthy.
      unfold charAt0 in Hc. destruct (next (person e)) as [[[cp w] r]|]; [|discriminate].
      injection Hc as <-. destruct (encode_spelt (if (65536 <=? cp) && (cp <? 1114112)
                                                  then 55296 + (cp - 65536) / 1024 else cp))
        as [a0 [t ->]]. reflexivity.
Qed.

(** X11.  A person made of white space breaks the list of [Home].  Such a
    form passes the guard and the Save button is enabled; [handleSave]
    hands on a record whose person is the empty string, [addExpense] puts
    it first in the active set and switches to [Home]; with no search
    typed the record is listed, and the list throws a TypeError instead of
    being drawn, so this render is never completed. *)
Theorem blank_person_breaks_home
        (f : AddExpense.Form) (newId : string) (s : App.State)
        (formatTime : number -> string) :
  AddExpense.amount f <> EmptyString ->
  AddExpense.person f <> EmptyString ->
  allWhiteSpace (AddExpense.person f) = true ->
  App.searchQuery s = EmptyString ->
  exists entry s',
    AddExpense.handleSave f = Some entry
    /\ AddExpense.disabled f = false
    /\ person entry = EmptyString
    /\ s' = App.addExpense entry newId s
    /\ App.screen s'
       = App.HomeScreen
           ({| Types.entry := entry; id := newId; timestamp := App.Date_now s |}
              :: App.expenses s)
    /\ Home.rows formatTime (App.expenses s') = inr TypeError
    /\ App.draws s' = false.
Proof.
  intros Ha Hp Hw Hq. rewrite (handleSave_Some f Ha Hp).
  assert (Htrim : trim (AddExpense.person f) = EmptyString)
    by exact (allWhiteSpace_trim _ Hw).
  eexists. eexists. split; [reflexivity|]. split.
  { unfold AddExpense.disabled. apply truthy_true in Ha, Hp. rewrite Ha, Hp. reflexivity. }
  split; [exact Htrim|]. split; [reflexivity|]. split.
  { unfold App.screen.
    cbn [App.addExpense App.setView App.setExpenses App.view App.expenses App.searchQuery].
    rewrite Hq. reflexivity. }
  split.
  - cbn [App.addExpense App.setView App.setExpenses App.expenses Home.rows].
    unfold Home.row at 1, Home.avatar at 1. cbn [entry person]. rewrite Htrim. reflexivity.
  - unfold App.draws, App.screen.
    cbn [App.addExpense App.setView App.setExpenses App.view App.expenses App.searchQuery].
    rewrite Hq. cbn [App.filteredExpenses truthy negb forallb].
    unfold Home.avatar at 1. cbn [entry person]. rewrite Htrim. reflexivity.
Qed.

(** On a fresh browser the form with a person of one space passes the
    guard, and the list of [Home] throws. *)
Lemma blank_person_breaks_home_witness :
  exists entry,
    AddExpense.handleSave Sample.blank = Some entry
    /\ Home.rows (fun _ => "Today") (App.expenses (App.addExpense entry "q" Sample.s0))
       = inr TypeError.
Proof.
  destruct (blank_person_breaks_home Sample.blank "q" Sample.s0 (fun _ => "Today"))
    as [entry [s' [H1 [_ [_ [-> [_ [H6 _]]]]]]]].
  - discriminate.
  - discriminate.
  - vm_compute. reflexivity.
  - reflexivity.
  - exists entry. split; [exact H1 | exact H6].
Defined.

(** X12.  A click on an entry of [Home] opens the detail of its person
    over all the records of that person.  When the person is not the
    empty string, [PersonDetail] is drawn over exactly the records of the
    active set whose person is that very text, including those the search
    hides; there is at least one, and the last payment shown is the first
    record of the person in the active set. *)
Theorem person_click_opens_detail (s : App.State) (name : string) :
  Session.available (Session.ClickPerson name) s = true ->
  name <> EmptyString ->
  exists shown last,
    Session.dispatch (Session.ClickPerson name) s = App.Done (App.onPersonClick name s)
    /\ App.screen (App.onPersonClick name s) = App.PersonScreen name shown
    /\ (forall x : Expense, In x shown <-> In x (App.expenses s) /\ person x = name)
    /\ PersonDetail.lastPayment shown = Some last
    /\ List.find (fun e : Expense => String.eqb (person e) name) (App.expenses s) = Some last.
Proof.
  intros Hav Hname. apply truthy_true in Hname.
  assert (Hin : exists e : Expense, In e (App.expenses s) /\ person e = name).
  { unfold Session.available, App.screen in Hav.
    destruct (App.view s);
      [| discriminate
       | destruct (App.selectedPerson s) as [n|]; [destruct (truthy n)|]; discriminate].
    apply existsb_exists in Hav as [e [He Hpe]]. exists e.
    split; [exact (filteredExpenses_In _ _ _ He) | apply String.eqb_eq; exact Hpe]. }
  assert (Hfilter : forall x : Expense,
             In x (App.personExpenses name (App.expenses s))
             <-> In x (App.expenses s) /\ person x = name).
  { intros x. unfold App.personExpenses. rewrite filter_In, String.eqb_eq. reflexivity. }
  destruct (PersonDetail.lastPayment (App.personExpenses name (App.expenses s)))
    as [last|] eqn:Hlast.
  - exists (App.personExpenses name (App.expenses s)), last.
    split; [reflexivity|]. split.
    + unfold App.screen. cbn [App.onPersonClick App.setView App.setSelectedPerson
                               App.view App.selectedPerson App.expenses].
      rewrite Hname. reflexivity.
    + split; [exact Hfilter|]. split; [exact Hlast|].
      unfold PersonDetail.lastPayment, App.personExpenses in Hlast.
      rewrite hd_error_filter in Hlast. exact Hlast.
  - exfalso. destruct Hin as [e He]. apply Hfilter in He.
    unfold PersonDetail.lastPayment in Hlast.
    destruct (App.personExpenses name (App.expenses s)); [destruct He | discriminate].
Qed.

(** With "cab" typed in the search only the record of Asha is listed; the
    list without a search has Rohit's, and a click on one of them opens
    the detail of Rohit over his two records. *)
Lemma person_click_opens_detail_witness :
  exists shown last,
    App.screen (App.onPersonClick "Rohit" Sample.s3) = App.PersonScreen "Rohit" shown
    /\ PersonDetail.lastPayment shown = Some last.
Proof.
  destruct (person_click_opens_detail Sample.s3 "Rohit") as [shown [last [_ [H2 [_ [H4 _]]]]]].
  - vm_compute. reflexivity.
  - discriminate.
  - exists shown, last. split; [exact H2 | exact H4].
Defined.

(** X13.  The Archive button takes the hidden records too.  Whenever the
    button is on screen (on or after the 25th, over a non-empty list,
    which may be a search result) and the stored archive is readable, the
    click ends normally, appends the whole active set to the archive, not
    only the records listed, and leaves [Home] with an empty list; the
    early return of [archiveData] on an empty active set is never taken. *)
Theorem archive_takes_hidden_records (s : App.State) (d : Z) (archive : list Expense) :
  Session.available (Session.ClickArchive d) s = true ->
  archiveSet s = Records archive ->
  exists s',
    Session.dispatch (Session.ClickArchive d) s = App.Done s'
    /\ s' <> s
    /\ App.getItem App.ARCHIVE_KEY s' = Some (JSON_stringify (archive ++ App.expenses s))
    /\ App.lastArchivedData s' = App.expenses s
    /\ App.screen s' = App.HomeScreen []
    /\ (forall e, In e (App.filteredExpenses (App.expenses s) (App.searchQuery s)) ->
                  In e (App.expenses s)).
Proof.
  intros Hav Harch. unfold archiveSet in Harch.
  destruct (available_archive d s Hav) as [Hview [_ [_ Hne]]].
  destruct (archiveData_Done s archive Hne Harch)
    as [a [Ha [Hexp [Hlast [Hshow [Hstore _]]]]]].
  assert (Hv : App.view a = App.view s).
  { unfold App.archiveData in Ha. destruct (length (App.expenses s) =? 0)%nat.
    - injection Ha as <-. reflexivity.
    - destruct (App.currentArchive _); try discriminate. injection Ha as <-.
      unfold App.clearUndoTimeout.
      cbn [App.undoTimeoutRef App.setShowUndo App.setExpenses App.setItem
           App.setLastArchivedData].
      destruct (App.undoTimeoutRef s); reflexivity. }
  exists (App.saveEffect a). cbn [Session.dispatch]. unfold App.clickArchive. rewrite Ha.
  split; [reflexivity|]. split.
  { intros E. apply Hne. rewrite <- E. exact Hexp. }
  split.
  { unfold App.getItem, App.saveEffect. cbn [App.setItem App.localStorage].
    rewrite insert_storage_archive, Hstore. apply lookup_insert_eq. }
  split; [exact Hlast|]. split.
  - unfold App.screen. cbn [App.saveEffect App.setItem App.view App.expenses App.searchQuery].
    rewrite Hv, Hview, Hexp, filteredExpenses_nil. reflexivity.
  - intros e. apply filteredExpenses_In.
Qed.

(** With "cab" typed, [Home] lists one of the three sample records; the
    Archive button archives all three. *)
Lemma archive_takes_hidden_records_witness :
  exists s',
    Session.dispatch (Session.ClickArchive 28) (App.setSearchQuery "cab" Sample.s3)
    = App.Done s'
    /\ App.getItem App.ARCHIVE_KEY s' = Some (JSON_stringify ([] ++ App.expenses Sample.s3))
    /\ length (App.filteredExpenses (App.expenses Sample.s3) "cab") = 1%nat.
Proof.
  destruct (archive_takes_hidden_records (App.setSearchQuery "cab" Sample.s3) 28 [])
    as [s' [H1 [_ [H3 _]]]].
  - vm_compute. reflexivity.
  - vm_compute. reflexivity.
  - exists s'. split; [exact H1|]. split; [exact H3|]. vm_compute. reflexivity.
Defined.

(** X14.  The stored archive changes by Archive and Undo only: after any
    events none of which is a click on one of the two buttons, the archive
    text is what it was, while entries are saved, the search is typed in,
    pages are opened or time passes. *)
Theorem archive_changed_only_by_archive_and_undo
        (evs : list Session.Event) (s s' : App.State) :
  (forall d, ~ In (Session.ClickArchive d) evs) ->
  ~ In Session.ClickUndo evs ->
  Session.run evs s = Some s' ->
  App.getItem App.ARCHIVE_KEY s' = App.getItem App.ARCHIVE_KEY s.
Proof.
  revert s. induction evs as [|ev rest IH]; intros s Harch Hundo; cbn [Session.run].
  - intros [= <-]. reflexivity.
  - destruct (Session.available ev s); [|discriminate].
    destruct (Session.settled (Session.dispatch ev s)) as [s1|] eqn:Hd; [|discriminate].
    intros Hrun.
    assert (Hrest : App.getItem App.ARCHIVE_KEY s' = App.getItem App.ARCHIVE_KEY s1).
    { apply IH; [|  |exact Hrun].
      - intros d Hin. apply (Harch d). right. exact Hin.
      - intros Hin. apply Hundo. right. exact Hin. }
    rewrite Hrest. clear Hrest Hrun IH.
    destruct ev; cbn [Session.dispatch Session.settled] in Hd.
    + injection Hd as <-. reflexivity.
    + injection Hd as <-. reflexivity.
    + injection Hd as <-. reflexivity.
    + injection Hd as <-. reflexivity.
    + unfold AddExpense.clickSave in Hd. destruct (AddExpense.handleSave form).
      * injection Hd as <-. unfold App.getItem, App.saveEffect.
        cbn [App.setItem App.localStorage]. apply insert_storage_archive.
      * injection Hd as <-. reflexivity.
    + destruct (Harch dayOfMonth). left. reflexivity.
    + destruct Hundo. left. reflexivity.
    + injection Hd as <-. reflexivity.
Qed.

(** From the sample archive, through the form, a wait, one more entry and
    another wait, the archive text stays the three archived records. *)
Lemma archive_changed_only_by_archive_and_undo_witness :
  App.getItem App.ARCHIVE_KEY (App.elapse 6000 Tour.readded)
  = App.getItem App.ARCHIVE_KEY Sample.archived.
Proof.
  apply (archive_changed_only_by_archive_and_undo Tour.later).
  - intros d Hin. vm_compute in Hin. intuition discriminate.
  - intros Hin. vm_compute in Hin. intuition discriminate.
  - vm_compute. reflexivity.
Defined.

(** X16.  A record without a person in the store costs the whole active
    set at the next reload.  When the stored active set, of numbers JSON
    can hold, has a record whose person is the empty string, mounting
    [App] first overwrites the stored text with that of the empty first
    render, then throws a TypeError at the render of the loaded list: the
    page is not drawn and the store is left at "[]".  A reload after that
    ends normally, on an empty list. *)
Theorem reload_over_blank_person_empties_store
        (m : gmap string string) (l : list Expense) (now : Z) :
  m !! App.STORAGE_KEY = Some (JSON_stringify l) ->
  Forall storable l ->
  Exists (fun e : Expense => person e = EmptyString) l ->
  exists s',
    App.mount m now = App.Threw TypeError s'
    /\ App.expenses s' = l
    /\ App.draws s' = false
    /\ App.getItem App.STORAGE_KEY s' = Some "[]"
    /\ (forall now', exists s'',
          App.mount (App.localStorage s') now' = App.Done s''
          /\ App.expenses s'' = []).
Proof.
  intros Hm Hst Hex. rewrite (mount_stored m l now Hm Hst). cbv zeta.
  destruct (forallb _ l) eqn:Hd.
  { exfalso. apply draws_persons in Hd. apply Exists_exists in Hex as [e [He Hp]].
    exact (proj1 (Forall_forall _ _) Hd e He Hp). }
  eexists. split; [reflexivity|]. split; [reflexivity|]. split; [exact Hd|]. split.
  - unfold App.getItem. cbn [App.setItem App.localStorage]. apply lookup_insert_eq.
  - intros now'. eexists. split.
    + rewrite (mount_stored _ [] now'); [reflexivity | | constructor].
      cbn [App.setItem App.localStorage]. apply lookup_insert_eq.
    + reflexivity.
Qed.

(** In the sample session a search that lists nothing is typed before the
    form with a person of one space is saved: every render on the way can
    be drawn and the four records are in the store.  The reload throws and
    leaves "[]" there. *)
Lemma reload_over_blank_person_empties_store_witness :
  Session.session ∅ Sample.t0 Tour.unseen = Some Tour.hidden
  /\ App.draws (App.setSearchQuery "zzz" Sample.s3) = true
  /\ App.draws (App.onAddClick (App.setSearchQuery "zzz" Sample.s3)) = true
  /\ App.draws Tour.hidden = true
  /\ length (App.expenses Tour.hidden) = 4%nat
  /\ exists s',
       App.mount (App.localStorage Tour.hidden) (Sample.t0 + 60000)
       = App.Threw TypeError s'
       /\ App.getItem App.STORAGE_KEY s' = Some "[]".
Proof.
  split; [vm_compute; reflexivity|]. split; [vm_compute; reflexivity|].
  split; [vm_compute; reflexivity|]. split; [vm_compute; reflexivity|].
  split; [vm_compute; reflexivity|].
  destruct (reload_over_blank_person_empties_store
              (App.localStorage Tour.hidden) (App.expenses Tour.hidden)
              (Sample.t0 + 60000))
    as [s' [H1 [_ [_ [H4 _]]]]].
  - vm_compute. reflexivity.
  - apply checkStorable_storable. vm_compute. reflexivity.
  - apply Exists_cons_hd. vm_compute. reflexivity.
  - exists s'. split; [exact H1 | exact H4].
Defined.
